(** * Authentication and adaptive abuse control of the Eco-product backend

    A shallow embedding of
      - [backend/src/middleware/rateLimit.ts]  (IP tracker, lockout, ledger),
      - [backend/src/middleware/auth.ts]       (the Auth Gate),
      - [backend/src/routes/auth.ts]           (POST /login, POST /login/totp,
                                                the TOTP and password routes),
    with the theorems that settle the specification's claims about them
    and further properties of the code.

    Conventions.
      - A request is one that reaches a route handler: the middleware the
        server file puts in front of the routers is not part of the model.
      - Instants are integers: milliseconds since the epoch, as [Date.now()]
        and [Date.prototype.getTime()] return them.  A handler is run at one
        instant [now]: every clock read of one request returns that value.
      - A string is a sequence of UTF-16 code units below 256, one [ascii]
        per code unit.  This is what Node hands to the code as the value of
        a header (it decodes header bytes as latin1), and it holds the
        e-mails zod accepts, the numeric codes, the uuids and the tokens.
        Lengths count code units, as [String.prototype.length] and zod's
        [min] and [max] do; case folding and trimming are those of
        JavaScript on these code units.  A body field with a code unit
        above U+00FF has no counterpart in the model.
      - The in-memory [Map] of the IP tracker is a [gmap string IpEntry];
        the Prisma tables are lists of rows.
      - Library calls whose code is not part of the repository (bcrypt,
        jsonwebtoken, otplib, zod's e-mail and uuid formats, the uuid the
        database draws for a new row) are the fields of the class
        [Libraries]; every theorem holds for all of its instances.
      - Handlers run in a state monad over [World]; the world carries a
        ghost [trace] of the guard and library calls that were made, so
        that "is evaluated before" and "is never evaluated" can be stated. *)

From stdpp Require Import gmap strings list.
From Stdlib Require Import ZArith Ascii String Bool Lia.

Local Open Scope string_scope.
Local Open Scope Z_scope.

(** ** Configuration: the [RATE_LIMIT] object of rateLimit.ts *)

Module RATE_LIMIT.
Definition IP_MAX_ATTEMPTS : Z := 5.
Definition IP_WINDOW_MS : Z := 60 * 1000.
Definition EMAIL_MAX_ATTEMPTS : Z := 10.
Definition EMAIL_WINDOW_MS : Z := 60 * 60 * 1000.
Definition LOCKOUT_THRESHOLD : Z := 10.
Definition LOCKOUT_DURATION_MS : Z := 15 * 60 * 1000.
End RATE_LIMIT.

(** The validity window of a login challenge: [2 * 60 * 1000] in POST /login. *)
Definition CHALLENGE_WINDOW_MS : Z := 2 * 60 * 1000.

(** The name of the session cookie: [AUTH_COOKIE] in routes/auth.ts and the
    literal of [getTokenFromRequest]. *)
Definition AUTH_COOKIE : string := "eco_token".

(** ** JavaScript values and string primitives *)

(** [Math.ceil(a / b)] on integers, for a positive [b]. *)
Definition ceil_div (a b : Z) : Z := - ((- a) / b).

(** Truthiness of a string: only the empty string is falsy. *)
Definition truthy (s : string) : bool :=
  match s with EmptyString => false | String _ _ => true end.

(** Truthiness of [string | null | undefined]. *)
Definition truthy_opt (o : option string) : bool :=
  match o with Some s => truthy s | None => false end.

(** [x || d] for [x : string | undefined]. *)
Definition or_else (o : option string) (d : string) : string :=
  match o with
  | Some s => if truthy s then s else d
  | None => d
  end.

(** [x || null]. *)
Definition or_null (o : option string) : option string :=
  match o with
  | Some s => if truthy s then Some s else None
  | None => None
  end.

(** The lower case of a code unit below 256: A-Z and the Latin-1 capitals
    U+00C0-U+00DE (the multiplication sign U+00D7 excepted) move up by 32,
    the others map to themselves. *)
Definition lower_ascii (c : ascii) : ascii :=
  let n := N_of_ascii c in
  if (((65 <=? n) && (n <=? 90))
      || ((192 <=? n) && (n <=? 222) && negb (n =? 215)))%N
  then ascii_of_N (n + 32) else c.

(** [String.prototype.toLowerCase]. *)
Fixpoint toLowerCase (s : string) : string :=
  match s with
  | EmptyString => EmptyString
  | String c r => String (lower_ascii c) (toLowerCase r)
  end.

(** The white space and line terminators [String.prototype.trim] removes,
    among the code units below 256: TAB, LF, VT, FF, CR, SPACE and the
    NO-BREAK SPACE U+00A0. *)
Definition is_ws (c : ascii) : bool :=
  let n := N_of_ascii c in
  (((9 <=? n) && (n <=? 13)) || (n =? 32) || (n =? 160))%N.

Fixpoint trimStart (s : string) : string :=
  match s with
  | EmptyString => EmptyString
  | String c r => if is_ws c then trimStart r else s
  end.

(** Drops the trailing white space: a character is kept when it is not
    white space or when something is kept after it. *)
Fixpoint trimEnd (s : string) : string :=
  match s with
  | EmptyString => EmptyString
  | String c r =>
      match trimEnd r with
      | EmptyString => if is_ws c then EmptyString else String c EmptyString
      | r' => String c r'
      end
  end.

Definition trim (s : string) : string := trimEnd (trimStart s).

(** [s.split(sep)] for a one-character separator: never the empty list. *)
Fixpoint split (sep : ascii) (s : string) : list string :=
  match s with
  | EmptyString => [EmptyString]
  | String c r =>
      if Ascii.eqb c sep then EmptyString :: split sep r
      else match split sep r with
           | [] => [String c EmptyString]
           | h :: t => String c h :: t
           end
  end.

(** [parts.join(sep)]. *)
Fixpoint join (sep : string) (parts : list string) : string :=
  match parts with
  | [] => EmptyString
  | [p] => p
  | p :: rest => p ++ sep ++ join sep rest
  end.

(** [s.startsWith(p)]. *)
Fixpoint startsWith (p s : string) : bool :=
  match p, s with
  | EmptyString, _ => true
  | String a p', String b s' => Ascii.eqb a b && startsWith p' s'
  | String _ _, EmptyString => false
  end.

(** [s.slice(n)] for [0 <= n]. *)
Fixpoint slice (n : nat) (s : string) : string :=
  match n, s with
  | O, _ => s
  | S n', String _ r => slice n' r
  | S _, EmptyString => EmptyString
  end.

Definition is_digit (c : ascii) : bool :=
  let n := N_of_ascii c in ((48 <=? n) && (n <=? 57))%N.

Fixpoint all_chars (p : ascii -> bool) (s : string) : bool :=
  match s with
  | EmptyString => true
  | String c r => p c && all_chars p r
  end.

(** ** The data model *)

(** A bucket of the IP tracker: [{ count, firstAttempt }]. *)
Record IpEntry := { count : Z; firstAttempt : Z }.

(** A row of the [User] table, with the columns the handlers read or write. *)
Record User := {
  u_id : string;
  u_email : string;
  u_name : string;
  u_passwordHash : string;
  u_totpEnabled : bool;
  u_totpSecret : option string;
  u_lockedUntil : option Z;
  u_lastLoginAt : option Z
}.

(** A row of the [LoginAttempt] ledger.
    Modelled from the spec: the Prisma schema is not among the sources; the
    creation time of a row is the instant of the insert ("creation time"). *)
Record LoginAttempt := {
  a_email : string;
  a_ip : string;
  a_userAgent : option string;
  a_success : bool;
  a_userId : option string;
  a_createdAt : Z
}.

(** A row of the [LoginChallenge] table.
    Modelled from the spec: the Prisma schema is not among the sources; a
    challenge has an id drawn by the database, its owner, its creation time
    (the instant of the insert), its expiry and an optional consumed-at. *)
Record LoginChallenge := {
  c_id : string;
  c_userId : string;
  c_createdAt : Z;
  c_expiresAt : Z;
  c_usedAt : option Z
}.

(** The calls a handler makes that the claims speak about. *)
Inductive Event :=
| EvCheckIpRateLimit (ip : string)
| EvCheckAccountLockout (email : string)
| EvCheckEmailRateLimit (email : string)
| EvBcryptCompare (password hash : string)
| EvTotpVerify (token secret : string)
| EvJwtSign (subject : string).

Record World := {
  loginAttempts : gmap string IpEntry;   (* the module-level Map *)
  users : list User;                     (* prisma.user *)
  ledger : list LoginAttempt;            (* prisma.loginAttempt, oldest first *)
  challenges : list LoginChallenge;      (* prisma.loginChallenge *)
  drawn : nat;                           (* how many uuids the database drew *)
  trace : list Event                     (* ghost: calls made, oldest first *)
}.

Definition set_loginAttempts (m : gmap string IpEntry) (w : World) : World :=
  {| loginAttempts := m; users := users w; ledger := ledger w;
     challenges := challenges w; drawn := drawn w; trace := trace w |}.
Definition set_users (us : list User) (w : World) : World :=
  {| loginAttempts := loginAttempts w; users := us; ledger := ledger w;
     challenges := challenges w; drawn := drawn w; trace := trace w |}.
Definition set_ledger (l : list LoginAttempt) (w : World) : World :=
  {| loginAttempts := loginAttempts w; users := users w; ledger := l;
     challenges := challenges w; drawn := drawn w; trace := trace w |}.
Definition set_challenges (cs : list LoginChallenge) (w : World) : World :=
  {| loginAttempts := loginAttempts w; users := users w; ledger := ledger w;
     challenges := cs; drawn := drawn w; trace := trace w |}.
Definition set_drawn (n : nat) (w : World) : World :=
  {| loginAttempts := loginAttempts w; users := users w; ledger := ledger w;
     challenges := challenges w; drawn := n; trace := trace w |}.
Definition add_event (e : Event) (w : World) : World :=
  {| loginAttempts := loginAttempts w; users := users w; ledger := ledger w;
     challenges := challenges w; drawn := drawn w; trace := trace w ++ [e] |}.

(** ** The handler monad: state passing over [World] *)

Definition M (A : Type) : Type := World -> A * World.

Definition ret {A} (a : A) : M A := fun w => (a, w).
Definition bind {A B} (m : M A) (k : A -> M B) : M B :=
  fun w => let '(a, w') := m w in k a w'.
Definition get : M World := fun w => (w, w).
Definition modify (f : World -> World) : M unit := fun w => (tt, f w).
Definition emit (e : Event) : M unit := modify (add_event e).

Declare Scope handler_scope.
Delimit Scope handler_scope with handler.
Notation "x <- m ;; k" := (bind m (fun x => k))
  (at level 20, m at level 99, k at level 200, only parsing) : handler_scope.
Notation "m ;;; k" := (bind m (fun _ => k))
  (at level 100, k at level 200, right associativity, only parsing) : handler_scope.
Local Open Scope handler_scope.

(** ** rateLimit.ts *)

(** An HTTP request, with the headers, the socket address and the JSON body
    fields the handlers read.  A header value is the string Node makes of
    its bytes, one code unit per byte. *)
Record Request := {
  h_x_forwarded_for : option string;
  h_user_agent : option string;
  h_authorization : option string;
  h_cookie : option string;
  remoteAddress : option string;
  body_email : option string;
  body_password : option string;
  body_challengeId : option string;
  body_code : option string
}.

Definition head_or_empty (l : list string) : string :=
  match l with [] => EmptyString | h :: _ => h end.

Definition getClientIp (req : Request) : string :=
  match h_x_forwarded_for req with
  | Some forwarded =>
      or_else (Some (trim (head_or_empty (split "," forwarded)))) "unknown"
  | None => or_else (remoteAddress req) "unknown"
  end.

Definition ip_key (ip : string) : string := "ip:" ++ ip.

Record IpCheck := { allowed : bool; remainingSeconds : option Z }.

Definition checkIpRateLimit_pure (ip : string) (now : Z)
    (m : gmap string IpEntry) : IpCheck :=
  match m !! ip_key ip with
  | None => {| allowed := true; remainingSeconds := None |}
  | Some data =>
      if RATE_LIMIT.IP_WINDOW_MS <? now - firstAttempt data
      then {| allowed := true; remainingSeconds := None |}
      else if RATE_LIMIT.IP_MAX_ATTEMPTS <=? count data
      then let remainingMs := RATE_LIMIT.IP_WINDOW_MS - (now - firstAttempt data) in
           {| allowed := false; remainingSeconds := Some (ceil_div remainingMs 1000) |}
      else {| allowed := true; remainingSeconds := None |}
  end.

Definition checkIpRateLimit (ip : string) (now : Z) : M IpCheck :=
  emit (EvCheckIpRateLimit ip) ;;;
  w <- get ;;
  ret (checkIpRateLimit_pure ip now (loginAttempts w)).

Definition recordIpAttempt_pure (ip : string) (now : Z)
    (m : gmap string IpEntry) : gmap string IpEntry :=
  match m !! ip_key ip with
  | None => <[ip_key ip := {| count := 1; firstAttempt := now |}]> m
  | Some data =>
      if RATE_LIMIT.IP_WINDOW_MS <? now - firstAttempt data
      then <[ip_key ip := {| count := 1; firstAttempt := now |}]> m
      else <[ip_key ip := {| count := count data + 1;
                             firstAttempt := firstAttempt data |}]> m
  end.

Definition recordIpAttempt (ip : string) (now : Z) : M unit :=
  modify (fun w => set_loginAttempts (recordIpAttempt_pure ip now (loginAttempts w)) w).

Definition clearIpAttempts (ip : string) : M unit :=
  modify (fun w => set_loginAttempts (delete (ip_key ip) (loginAttempts w)) w).

(** The sweep [setInterval] runs every five minutes. *)
Definition cleanupLoginAttempts (now : Z) : M unit :=
  let maxWindow := Z.max RATE_LIMIT.IP_WINDOW_MS RATE_LIMIT.EMAIL_WINDOW_MS in
  modify (fun w =>
    set_loginAttempts
      (filter (fun kv => negb (maxWindow <? now - firstAttempt (snd kv)) = true)
              (loginAttempts w)) w).

(** The texts of the JSON [error] fields.  The templates written in
    Vietnamese in the source are named by what they say; their arguments
    are the interpolated numbers. *)
Inductive Message :=
| MsgIpRateLimit (seconds : option Z)     (* too many requests, retry after N seconds *)
| MsgAccountTempLocked (minutes : Z)      (* account temporarily locked, retry after N minutes *)
| MsgEmailRateLimit                       (* too many failed logins, retry after 1 hour *)
| MsgAccountLockedNow (minutes : Z)       (* account has been locked after too many failures *)
| MsgInvalidCredentials                   (* 'Invalid credentials' *)
| MsgChallengeNotFound                    (* 'Challenge not found' *)
| MsgChallengeUsed                        (* 'Challenge already used' *)
| MsgChallengeExpired                     (* 'Challenge expired' *)
| MsgTotpNotConfigured                    (* 'TOTP not configured for this account' *)
| MsgInvalidTotp                          (* wrong TOTP code *)
| MsgUnauthorized.                        (* 'Unauthorized' *)

Record LockoutCheck := {
  locked : bool;
  remainingMinutes : option Z;
  message : option Message
}.

Record EmailCheck := { email_allowed : bool; email_message : option Message }.

(** [prisma.user.findUnique({ where: { email } })]. *)
Definition user_by_email (email : string) (us : list User) : option User :=
  List.find (fun u => String.eqb (u_email u) email) us.

(** [prisma.user.findUnique({ where: { id } })]. *)
Definition user_by_id (id : string) (us : list User) : option User :=
  List.find (fun u => String.eqb (u_id u) id) us.

Definition checkAccountLockout_pure (email : string) (now : Z)
    (us : list User) : LockoutCheck :=
  match user_by_email email us with
  | None => {| locked := false; remainingMinutes := None; message := None |}
  | Some user =>
      match u_lockedUntil user with
      | Some lockedUntil =>
          if now <? lockedUntil then
            let remainingMs := lockedUntil - now in
            let minutes := ceil_div remainingMs 60000 in
            {| locked := true; remainingMinutes := Some minutes;
               message := Some (MsgAccountTempLocked minutes) |}
          else {| locked := false; remainingMinutes := None; message := None |}
      | None => {| locked := false; remainingMinutes := None; message := None |}
      end
  end.

Definition checkAccountLockout (email : string) (now : Z) : M LockoutCheck :=
  emit (EvCheckAccountLockout email) ;;;
  w <- get ;;
  ret (checkAccountLockout_pure email now (users w)).

(** [prisma.loginAttempt.count({ where: { email, success: false,
    createdAt: { gte: windowStart } } })]. *)
Definition failed_since (email : string) (windowStart : Z)
    (l : list LoginAttempt) : Z :=
  Z.of_nat (List.length (List.filter
    (fun a => String.eqb (a_email a) email && negb (a_success a)
              && (windowStart <=? a_createdAt a)) l)).

Definition checkEmailRateLimit_pure (email : string) (now : Z)
    (l : list LoginAttempt) : EmailCheck :=
  let windowStart := now - RATE_LIMIT.EMAIL_WINDOW_MS in
  let recentAttempts := failed_since email windowStart l in
  if RATE_LIMIT.EMAIL_MAX_ATTEMPTS <=? recentAttempts
  then {| email_allowed := false; email_message := Some MsgEmailRateLimit |}
  else {| email_allowed := true; email_message := None |}.

Definition checkEmailRateLimit (email : string) (now : Z) : M EmailCheck :=
  emit (EvCheckEmailRateLimit email) ;;;
  w <- get ;;
  ret (checkEmailRateLimit_pure email now (ledger w)).

Definition set_lockedUntil (v : option Z) (u : User) : User :=
  {| u_id := u_id u; u_email := u_email u; u_name := u_name u;
     u_passwordHash := u_passwordHash u; u_totpEnabled := u_totpEnabled u;
     u_totpSecret := u_totpSecret u; u_lockedUntil := v;
     u_lastLoginAt := u_lastLoginAt u |}.

Definition set_lastLoginAt (v : option Z) (u : User) : User :=
  {| u_id := u_id u; u_email := u_email u; u_name := u_name u;
     u_passwordHash := u_passwordHash u; u_totpEnabled := u_totpEnabled u;
     u_totpSecret := u_totpSecret u; u_lockedUntil := u_lockedUntil u;
     u_lastLoginAt := v |}.

(** [updateMany({ where: { email }, data: { lockedUntil: until } })]. *)
Definition lock_accounts (email : string) (until : Z) (us : list User) : list User :=
  List.map (fun u => if String.eqb (u_email u) email
                     then set_lockedUntil (Some until) u else u) us.

(** [updateMany({ where: { email, lockedUntil: { not: null } },
    data: { lockedUntil: null } })]. *)
Definition unlock_accounts (email : string) (us : list User) : list User :=
  List.map (fun u => if String.eqb (u_email u) email
                     then match u_lockedUntil u with
                          | Some _ => set_lockedUntil None u
                          | None => u
                          end
                     else u) us.

(** Returns the [accountLocked] field of the result. *)
Definition recordLoginAttempt (email ip : string) (userAgent : option string)
    (success : bool) (userId : option string) (now : Z) : M bool :=
  modify (fun w => set_ledger
    (ledger w ++ [ {| a_email := email; a_ip := ip;
                      a_userAgent := or_null userAgent; a_success := success;
                      a_userId := or_null userId; a_createdAt := now |} ]) w) ;;;
  if negb success then
    let windowStart := now - RATE_LIMIT.EMAIL_WINDOW_MS in
    w <- get ;;
    let failedCount := failed_since email windowStart (ledger w) in
    if RATE_LIMIT.LOCKOUT_THRESHOLD <=? failedCount then
      modify (fun w => set_users
        (lock_accounts email (now + RATE_LIMIT.LOCKOUT_DURATION_MS) (users w)) w) ;;;
      ret true
    else ret false
  else
    modify (fun w => set_users (unlock_accounts email (users w)) w) ;;;
    ret false.

(** ** Responses *)

(** The [{ id, email, name }] object of the success responses. *)
Record PublicUser := { pu_id : string; pu_email : string; pu_name : string }.

Definition public_of (u : User) : PublicUser :=
  {| pu_id := u_id u; pu_email := u_email u; pu_name := u_name u |}.

(** The JSON bodies the two login handlers and the gate send. *)
Inductive Body :=
| ErrorBody (error : option Message) (code : option string) (retryAfter : option Z)
| SessionBody (user : PublicUser)         (* { totpRequired: false, user } *)
| ChallengeBody (challengeId : string) (expiresAt : Z) (user : PublicUser)
                                          (* { totpRequired: true, challengeId, expiresAt, user } *)
| UserBody (user : PublicUser).           (* { user } *)

(** What a handler sent: the status, the body, and the value of the
    [eco_token] cookie when [setAuthCookie] was called. *)
Record Response := { status : Z; body : Body; set_cookie : option string }.

(** A route handler either sends a response or passes an exception on with
    [next(err)]. *)
Inductive Outcome :=
| Sent (r : Response)
| Thrown.

Definition reject (st : Z) (m : option Message) (code : option string)
    (retryAfter : option Z) : Outcome :=
  Sent {| status := st; body := ErrorBody m code retryAfter; set_cookie := None |}.

(** The session token a response delivers, if any. *)
Definition session_of (o : Outcome) : option string :=
  match o with
  | Sent r => set_cookie r
  | Thrown => None
  end.

(** ** The handlers, over the library calls they make *)

(** The calls into code that is not part of the repository. *)
Class Libraries := {
  (** zod's [z.string().email()] and [z.string().uuid()] formats. *)
  is_email : string -> bool;
  is_uuid : string -> bool;
  (** [bcrypt.compare(password, hash)]. *)
  bcrypt_compare : string -> string -> bool;
  (** [authenticator.verify({ token, secret })] with [window: 1], at an instant. *)
  authenticator_verify : string -> string -> Z -> bool;
  (** [jwt.sign({}, JWT_SECRET, { subject, expiresIn: '7d' })] at an instant. *)
  jwt_sign : string -> Z -> string;
  (** [jwt.verify(token, JWT_SECRET)] at an instant: [None] when it throws
      (bad signature, expired, malformed), else the payload's [sub]. *)
  jwt_verify : string -> Z -> option (option string);
  (** The [n]-th uuid the database draws as the id of a new row. *)
  uuid : nat -> string;
  (** [decodeURIComponent(v)]: [None] when it throws. *)
  decodeURIComponent : string -> option string
}.

Section Backend.

Context {lib : Libraries}.

(** *** middleware/auth.ts: the Auth Gate *)

Definition decode_or_raw (v : string) : string :=
  match decodeURIComponent v with
  | Some d => d
  | None => v
  end.

(** The loop of [getCookieValue] over the parts of the header. *)
Fixpoint cookie_in_parts (parts : list string) (name : string) : option string :=
  match parts with
  | [] => None
  | part :: more =>
      match split "=" (trim part) with
      | k :: rest =>
          if String.eqb k name then Some (decode_or_raw (join "=" rest))
          else cookie_in_parts more name
      | [] => cookie_in_parts more name
      end
  end.

Definition getCookieValue (cookieHeader : option string) (name : string)
    : option string :=
  if negb (truthy_opt cookieHeader) then None
  else cookie_in_parts (split ";" (or_else cookieHeader "")) name.

Definition getTokenFromRequest (req : Request) : option string :=
  match h_authorization req with
  | Some header =>
      if startsWith "Bearer " header then Some (slice 7 header)
      else getCookieValue (h_cookie req) AUTH_COOKIE
  | None => getCookieValue (h_cookie req) AUTH_COOKIE
  end.

(** A middleware either calls [next()], with [req.user] set or not, or sends
    a response and stops the chain. *)
Inductive Gate :=
| Proceed (user : option string)
| Stop (r : Response).

Definition unauthorized : Gate :=
  Stop {| status := 401; body := ErrorBody (Some MsgUnauthorized) None None;
          set_cookie := None |}.

Definition optionalAuth (req : Request) (now : Z) : Gate :=
  let token := getTokenFromRequest req in
  if negb (truthy_opt token) then Proceed None
  else match jwt_verify (or_else token "") now with
       | Some sub => if truthy_opt sub then Proceed sub else Proceed None
       | None => Proceed None
       end.

Definition requireAuth (req : Request) (now : Z) : Gate :=
  let token := getTokenFromRequest req in
  if negb (truthy_opt token) then unauthorized
  else match jwt_verify (or_else token "") now with
       | Some sub => if negb (truthy_opt sub) then unauthorized else Proceed sub
       | None => unauthorized
       end.

(** *** routes/auth.ts: POST /login *)

(** [LoginSchema.parse(req.body)]: [None] when it throws.  The bounds of
    [min] and [max] are on the [length] of the string, its number of code
    units. *)
Definition LoginSchema_parse (req : Request) : option (string * string) :=
  match body_email req, body_password req with
  | Some email, Some password =>
      if is_email email && (String.length email <=? 255)%nat
         && (1 <=? String.length password)%nat
         && (String.length password <=? 200)%nat
      then Some (email, password) else None
  | _, _ => None
  end.

Definition bcrypt_compare_call (password hash : string) : M bool :=
  emit (EvBcryptCompare password hash) ;;;
  ret (bcrypt_compare password hash).

Definition jwt_sign_call (subject : string) (now : Z) : M string :=
  emit (EvJwtSign subject) ;;;
  ret (jwt_sign subject now).

Definition authenticator_verify_call (token secret : string) (now : Z) : M bool :=
  emit (EvTotpVerify token secret) ;;;
  ret (authenticator_verify token secret now).

(** [prisma.user.update({ where: { id }, data: { lastLoginAt: now } })]. *)
Definition touch_lastLogin (id : string) (now : Z) : M unit :=
  modify (fun w => set_users
    (List.map (fun u => if String.eqb (u_id u) id
                        then set_lastLoginAt (Some now) u else u) (users w)) w).

(** The rows [deleteMany] removes: the user's challenges that are expired
    ([expiresAt < now]) or consumed. *)
Definition stale_for (userId : string) (now : Z) (c : LoginChallenge) : bool :=
  String.eqb (c_userId c) userId
  && ((c_expiresAt c <? now)
      || match c_usedAt c with Some _ => true | None => false end).

Definition purge_challenges (userId : string) (now : Z) : M unit :=
  modify (fun w => set_challenges
    (List.filter (fun c => negb (stale_for userId now c)) (challenges w)) w).

(** [prisma.loginChallenge.findUnique({ where: { id } })] on the table. *)
Definition challenge_by_id (id : string) (cs : list LoginChallenge)
    : option LoginChallenge :=
  List.find (fun c => String.eqb (c_id c) id) cs.

(** [prisma.loginChallenge.create({ data: { userId, expiresAt } })]: the
    database draws the id and stamps the creation time. *)
Definition create_challenge (userId : string) (expiresAt now : Z)
    : M LoginChallenge :=
  w <- get ;;
  let c := {| c_id := uuid (drawn w); c_userId := userId; c_createdAt := now;
              c_expiresAt := expiresAt; c_usedAt := None |} in
  modify (fun w => set_challenges (challenges w ++ [c]) (set_drawn (S (drawn w)) w)) ;;;
  ret c.

(** The block "RATE LIMIT CHECKS" of the handler: [Some] response when a
    guard returns early, [None] when the handler goes on. *)
Definition rate_limit_checks (ip normalizedEmail : string) (now : Z)
    : M (option Outcome) :=
  (* 1. Check IP rate limit (in-memory, fast) *)
  ipCheck <- checkIpRateLimit ip now ;;
  if negb (allowed ipCheck) then
    ret (Some (reject 429 (Some (MsgIpRateLimit (remainingSeconds ipCheck)))
                      (Some "IP_RATE_LIMIT") (remainingSeconds ipCheck)))
  else
  (* 2. Check if account is locked *)
  lockoutCheck <- checkAccountLockout normalizedEmail now ;;
  if locked lockoutCheck then
    ret (Some (reject 423 (message lockoutCheck) (Some "ACCOUNT_LOCKED")
                      (Some (match remainingMinutes lockoutCheck with
                             | Some m => m
                             | None => 0
                             end * 60))))
  else
  (* 3. Check email rate limit (from DB) *)
  emailCheck <- checkEmailRateLimit normalizedEmail now ;;
  if negb (email_allowed emailCheck) then
    ret (Some (reject 429 (email_message emailCheck)
                      (Some "EMAIL_RATE_LIMIT") None))
  else ret None.

(** The block "CREDENTIAL VALIDATION" of the handler and what follows it. *)
Definition credential_validation (ip normalizedEmail password : string)
    (userAgent : option string) (now : Z) : M Outcome :=
  w <- get ;;
  match user_by_email normalizedEmail (users w) with
  | None =>
      recordIpAttempt ip now ;;;
      _ <- recordLoginAttempt normalizedEmail ip userAgent false None now ;;
      ret (reject 401 (Some MsgInvalidCredentials) None None)
  | Some user =>
      ok <- bcrypt_compare_call password (u_passwordHash user) ;;
      if negb ok then
        recordIpAttempt ip now ;;;
        accountLocked <- recordLoginAttempt normalizedEmail ip userAgent
                           false (Some (u_id user)) now ;;
        if accountLocked then
          ret (reject 423
                 (Some (MsgAccountLockedNow (RATE_LIMIT.LOCKOUT_DURATION_MS / 60000)))
                 (Some "ACCOUNT_LOCKED")
                 (Some (RATE_LIMIT.LOCKOUT_DURATION_MS / 1000)))
        else ret (reject 401 (Some MsgInvalidCredentials) None None)
      else
      clearIpAttempts ip ;;;
      if negb (u_totpEnabled user) || negb (truthy_opt (u_totpSecret user)) then
        _ <- recordLoginAttempt normalizedEmail ip userAgent
               true (Some (u_id user)) now ;;
        touch_lastLogin (u_id user) now ;;;
        token <- jwt_sign_call (u_id user) now ;;
        ret (Sent {| status := 200;
                     body := SessionBody (public_of user);
                     set_cookie := Some token |})
      else
      purge_challenges (u_id user) now ;;;
      let expiresAt := now + CHALLENGE_WINDOW_MS in
      challenge <- create_challenge (u_id user) expiresAt now ;;
      ret (Sent {| status := 200;
                   body := ChallengeBody (c_id challenge)
                             (c_expiresAt challenge) (public_of user);
                   set_cookie := None |})
  end.

Definition login (req : Request) (now : Z) : M Outcome :=
  match LoginSchema_parse req with
  | None => ret Thrown
  | Some (email, password) =>
      let normalizedEmail := trim (toLowerCase email) in
      let ip := getClientIp req in
      let userAgent := h_user_agent req in
      early <- rate_limit_checks ip normalizedEmail now ;;
      match early with
      | Some response => ret response
      | None => credential_validation ip normalizedEmail password userAgent now
      end
  end.

(** *** routes/auth.ts: POST /login/totp *)

Definition VerifyTotpSchema_parse (req : Request) : option (string * string) :=
  match body_challengeId req, body_code req with
  | Some challengeId, Some code =>
      if is_uuid challengeId
         && (6 <=? String.length code)%nat && (String.length code <=? 8)%nat
         && truthy code && all_chars is_digit code
      then Some (challengeId, code) else None
  | _, _ => None
  end.

(** What [findUnique({ where: { id }, include: { user: true } })] resolves
    to: the row and its owner as they are in the tables at that moment. *)
Definition Found : Type := option (LoginChallenge * option User).

Definition find_challenge (id : string) : M Found :=
  w <- get ;;
  ret (match challenge_by_id id (challenges w) with
       | Some c => Some (c, user_by_id (c_userId c) (users w))
       | None => None
       end).

Definition set_usedAt (v : option Z) (c : LoginChallenge) : LoginChallenge :=
  {| c_id := c_id c; c_userId := c_userId c; c_createdAt := c_createdAt c;
     c_expiresAt := c_expiresAt c; c_usedAt := v |}.

(** [prisma.loginChallenge.update({ where: { id }, data: { usedAt: now } })]:
    the [where] names the id only. *)
Definition mark_used (id : string) (now : Z) : M unit :=
  modify (fun w => set_challenges
    (List.map (fun c => if String.eqb (c_id c) id
                        then set_usedAt (Some now) c else c) (challenges w)) w).

(** The handler from the line after the [findUnique] on: it decides on the
    row that was read, not on the table. *)
Definition verify_found (req : Request) (code : string) (now : Z)
    (found : Found) : M Outcome :=
  let ip := getClientIp req in
  let userAgent := h_user_agent req in
  match found with
  | None => ret (reject 404 (Some MsgChallengeNotFound) None None)
  | Some (challenge, owner) =>
    match c_usedAt challenge with
    | Some _ => ret (reject 410 (Some MsgChallengeUsed) None None)
    | None =>
      if c_expiresAt challenge <=? now then
        ret (reject 410 (Some MsgChallengeExpired) None None)
      else
      match owner with
      | None => ret Thrown
      | Some user =>
        if negb (u_totpEnabled user) || negb (truthy_opt (u_totpSecret user)) then
          ret (reject 403 (Some MsgTotpNotConfigured) None None)
        else
        verified <- authenticator_verify_call code
                      (or_else (u_totpSecret user) "") now ;;
        if negb verified then
          recordIpAttempt ip now ;;;
          _ <- recordLoginAttempt (u_email user) ip userAgent
                 false (Some (u_id user)) now ;;
          ret (reject 401 (Some MsgInvalidTotp) (Some "INVALID_TOTP") None)
        else
        mark_used (c_id challenge) now ;;;
        _ <- recordLoginAttempt (u_email user) ip userAgent
               true (Some (u_id user)) now ;;
        touch_lastLogin (u_id user) now ;;;
        clearIpAttempts ip ;;;
        token <- jwt_sign_call (u_id user) now ;;
        ret (Sent {| status := 200; body := UserBody (public_of user);
                     set_cookie := Some token |})
      end
    end
  end.

Definition login_totp (req : Request) (now : Z) : M Outcome :=
  match VerifyTotpSchema_parse req with
  | None => ret Thrown
  | Some (challengeId, code) =>
      found <- find_challenge challengeId ;;
      verify_found req code now found
  end.

(** *** Sequences of requests *)

Inductive Call :=
| PostLogin (req : Request)
| PostLoginTotp (req : Request)
| Sweep.

Definition serve (c : Call) (now : Z) : M (option Outcome) :=
  match c with
  | PostLogin req => o <- login req now ;; ret (Some o)
  | PostLoginTotp req => o <- login_totp req now ;; ret (Some o)
  | Sweep => cleanupLoginAttempts now ;;; ret None
  end.

(** Serves the calls one after the other, each at its instant. *)
Fixpoint serve_all (calls : list (Z * Call)) : M (list (option Outcome)) :=
  match calls with
  | [] => ret []
  | (now, c) :: rest =>
      o <- serve c now ;;
      os <- serve_all rest ;;
      ret (o :: os)
  end.

(** *** Two second-factor verifications in flight

    A handler gives up control at each [await].  Two calls of POST
    /login/totp can therefore both run their [findUnique] before either
    runs the rest; the rest of each then works on the row it read. *)
Definition login_totp_interleaved (reqA reqB : Request) (now : Z)
    : M (Outcome * Outcome) :=
  match VerifyTotpSchema_parse reqA, VerifyTotpSchema_parse reqB with
  | Some (idA, codeA), Some (idB, codeB) =>
      foundA <- find_challenge idA ;;
      foundB <- find_challenge idB ;;
      oA <- verify_found reqA codeA now foundA ;;
      oB <- verify_found reqB codeB now foundB ;;
      ret (oA, oB)
  | _, _ => ret (Thrown, Thrown)
  end.

End Backend.

(** ** Vocabulary of the statements *)

(** Which guard, if any, stops a login made from [ip] for [email] at [now]:
    the three checks of rateLimit.ts read in the order of the handler. *)
Inductive Verdict := ByIpGuard | ByLockoutGuard | ByEmailGuard | Passed.

Definition guards_verdict (ip email : string) (now : Z) (w : World) : Verdict :=
  if negb (allowed (checkIpRateLimit_pure ip now (loginAttempts w))) then ByIpGuard
  else if locked (checkAccountLockout_pure email now (users w)) then ByLockoutGuard
  else if negb (email_allowed (checkEmailRateLimit_pure email now (ledger w)))
  then ByEmailGuard
  else Passed.

Definition is_guard_event (e : Event) : bool :=
  match e with
  | EvCheckIpRateLimit _ | EvCheckAccountLockout _ | EvCheckEmailRateLimit _ => true
  | _ => false
  end.

(** The address a call is made from; the sweep is not a request. *)
Definition call_ip (c : Call) : option string :=
  match c with
  | PostLogin req | PostLoginTotp req => Some (getClientIp req)
  | Sweep => None
  end.

(** The responses of the failure paths that record an attempt: wrong
    e-mail or password, wrong password that locks the account, wrong code. *)
Definition failed_attempt (o : option Outcome) : bool :=
  match o with
  | Some (Sent r) =>
      match body r with
      | ErrorBody (Some MsgInvalidCredentials) _ _
      | ErrorBody (Some (MsgAccountLockedNow _)) _ _
      | ErrorBody (Some MsgInvalidTotp) _ _ => true
      | _ => false
      end
  | _ => false
  end.

Definition from_ip (ip : string) (c : Call) : bool :=
  match call_ip c with
  | Some i => String.eqb i ip
  | None => false
  end.

(** How many of the calls come from [ip]. *)
Definition attempts_from (ip : string) (calls : list (Z * Call)) : nat :=
  List.length (List.filter (fun tc => from_ip ip (snd tc)) calls).

(** A call paired with its outcome: if it comes from [ip], it failed. *)
Definition failed_when_from (ip : string) (co : (Z * Call) * option Outcome) : bool :=
  implb (from_ip ip (snd (fst co))) (failed_attempt (snd co)).

(** No window is running for [ip] at [now]: the tracker has no bucket for
    it, or one whose window has elapsed. *)
Definition window_closed (ip : string) (now : Z) (m : gmap string IpEntry) : bool :=
  match m !! ip_key ip with
  | None => true
  | Some data => RATE_LIMIT.IP_WINDOW_MS <? now - firstAttempt data
  end.

(** The table of challenges has a primary key, and its ids are uuids the
    database has drawn. *)
Definition well_keyed {lib : Libraries} (w : World) : Prop :=
  NoDup (List.map c_id (challenges w))
  /\ Forall (fun c => exists k, (k < drawn w)%nat /\ c_id c = uuid k) (challenges w).

(** The call is a second-factor verification of the challenge [id] and its
    response sets the session cookie. *)
Definition verified_with {lib : Libraries} (id : string)
    (co : Call * option Outcome) : bool :=
  match co with
  | (PostLoginTotp req, Some o) =>
      match VerifyTotpSchema_parse req, session_of o with
      | Some (id', _), Some _ => String.eqb id' id
      | _, _ => false
      end
  | _ => false
  end.

(** How many calls of a run consumed the challenge [id]. *)
Definition consumptions {lib : Libraries} (id : string)
    (calls : list (Z * Call)) (outs : list (option Outcome)) : nat :=
  List.length (List.filter (verified_with id) (List.combine (List.map snd calls) outs)).

(** The row POST /login inserts for the user [uid] at [now]. *)
Definition issued {lib : Libraries} (uid : string) (now : Z) (w : World)
    : LoginChallenge :=
  {| c_id := uuid (drawn w); c_userId := uid; c_createdAt := now;
     c_expiresAt := now + CHALLENGE_WINDOW_MS; c_usedAt := None |}.

(** What one call can do to the table of challenges: consume the row it
    verified; or, not being a successful verification, leave the table as
    it is or purge a user's stale rows and insert a new one. *)
Definition table_step {lib : Libraries} (now : Z) (call : Call)
    (o : option Outcome) (w w' : World) : Prop :=
  (exists req id code c,
     call = PostLoginTotp req
     /\ VerifyTotpSchema_parse req = Some (id, code)
     /\ challenge_by_id id (challenges w) = Some c
     /\ c_usedAt c = None
     /\ verified_with id (call, o) = true
     /\ challenges w'
        = List.map (fun x => if String.eqb (c_id x) id
                             then set_usedAt (Some now) x else x) (challenges w)
     /\ drawn w' = drawn w)
  \/ ((forall id, verified_with id (call, o) = false)
      /\ ((challenges w' = challenges w /\ drawn w' = drawn w)
          \/ exists uid,
               challenges w'
               = (List.filter (fun c => negb (stale_for uid now c)) (challenges w)
                  ++ [issued uid now w])%list
               /\ drawn w' = S (drawn w))).

(** The id [id] was drawn and is no longer usable: the table has no row
    under it, or a consumed one. *)
Definition retired {lib : Libraries} (id : string) (w : World) : Prop :=
  (exists k, (k < drawn w)%nat /\ uuid k = id)
  /\ forall c, challenge_by_id id (challenges w) = Some c -> c_usedAt c <> None.

(** The response of the wrong-password path when the failure locks the
    account. *)
Definition account_locked_now : Outcome :=
  reject 423 (Some (MsgAccountLockedNow 15)) (Some "ACCOUNT_LOCKED") (Some 900).

(** A credential the gate turns down: none, the empty string, or a token
    [jwt.verify] throws on. *)
Definition absent_or_invalid {lib : Libraries} (token : option string) (now : Z)
    : bool :=
  negb (truthy_opt token)
  || match jwt_verify (or_else token "") now with
     | None => true
     | Some _ => false
     end.

(** The ledger row [recordLoginAttempt] appends. *)
Definition attempt_row (email ip : string) (userAgent : option string)
    (success : bool) (userId : option string) (now : Z) : LoginAttempt :=
  {| a_email := email; a_ip := ip; a_userAgent := or_null userAgent;
     a_success := success; a_userId := or_null userId; a_createdAt := now |}.

(** ** Stand-ins for the libraries, and sample data

    The scenarios below are run with these toy libraries: a password
    matches the hash ["bcrypt:" ++ password]; a code is accepted when it is
    the stored secret; a token is ["jwt." ++ subject]; the database's first
    uuid is the nil-like ["00000000-0000-4000-8000-000000000000"] and the
    [n]-th has [n] ones appended. *)

Fixpoint has_char (c : ascii) (s : string) : bool :=
  match s with
  | EmptyString => false
  | String d r => Ascii.eqb c d || has_char c r
  end.

(** The string starts, or ends, with a white-space code unit. *)
Definition starts_with_ws (s : string) : bool :=
  match s with
  | EmptyString => false
  | String c _ => is_ws c
  end.

Fixpoint ends_with_ws (s : string) : bool :=
  match s with
  | EmptyString => false
  | String c EmptyString => is_ws c
  | String _ r => ends_with_ws r
  end.

(** The part of a cookie header is not a cookie called [name]: trimmed, it
    is neither [name] nor [name=...]. *)
Definition other_cookie (name part : string) : Prop :=
  trim part <> name /\ forall v, trim part <> name ++ String "=" v.

(** The NO-BREAK SPACE U+00A0 and the TAB. *)
Definition nbsp : ascii := "160"%char.
Definition tab : ascii := "009"%char.

(** [n] ones: the way the toy database tells its uuids apart. *)
Fixpoint tally (n : nat) : string :=
  match n with
  | O => EmptyString
  | S n' => String "1" (tally n')
  end.

Definition toy : Libraries := {|
  is_email := has_char "@";
  is_uuid := fun s => (36 <=? String.length s)%nat;
  bcrypt_compare := fun password hash => String.eqb ("bcrypt:" ++ password) hash;
  authenticator_verify := fun token secret _ => String.eqb token secret;
  jwt_sign := fun subject _ => "jwt." ++ subject;
  jwt_verify := fun token _ =>
    if startsWith "jwt." token then Some (Some (slice 4 token)) else None;
  uuid := fun n => "00000000-0000-4000-8000-000000000000" ++ tally n;
  decodeURIComponent := fun v => Some v
|}.

(** An account without a second factor, and one with TOTP enabled. *)
Definition alice : User := {|
  u_id := "u1"; u_email := "a@x.com"; u_name := "Alice";
  u_passwordHash := "bcrypt:P@ssw0rd1"; u_totpEnabled := false;
  u_totpSecret := None; u_lockedUntil := None; u_lastLoginAt := None |}.

Definition bob : User := {|
  u_id := "u2"; u_email := "b@x.com"; u_name := "Bob";
  u_passwordHash := "bcrypt:hunter22"; u_totpEnabled := true;
  u_totpSecret := Some "123456"; u_lockedUntil := None; u_lastLoginAt := None |}.

(** The server after start-up, with the two accounts signed up. *)
Definition world0 : World := {|
  loginAttempts := ∅; users := [alice; bob]; ledger := [];
  challenges := []; drawn := 0; trace := [] |}.

(** A POST /login from a socket address. *)
Definition login_req (ip email password : string) : Request := {|
  h_x_forwarded_for := None; h_user_agent := Some "curl";
  h_authorization := None; h_cookie := None; remoteAddress := Some ip;
  body_email := Some email; body_password := Some password;
  body_challengeId := None; body_code := None |}.

(** A POST /login/totp from a socket address. *)
Definition totp_req (ip challengeId code : string) : Request := {|
  h_x_forwarded_for := None; h_user_agent := Some "curl";
  h_authorization := None; h_cookie := None; remoteAddress := Some ip;
  body_email := None; body_password := None;
  body_challengeId := Some challengeId; body_code := Some code |}.

(** A request to a protected route, with its credentials. *)
Definition gate_req (authorization cookie : option string) : Request := {|
  h_x_forwarded_for := None; h_user_agent := None;
  h_authorization := authorization; h_cookie := cookie;
  remoteAddress := Some "10.0.0.1";
  body_email := None; body_password := None;
  body_challengeId := None; body_code := None |}.

(** [n] calls of [c], the first at [start], one every [step] milliseconds. *)
Fixpoint spaced (n : nat) (start step : Z) (c : Call) : list (Z * Call) :=
  match n with
  | O => []
  | S n' => (start, c) :: spaced n' (start + step) step c
  end.

(** Logins for Alice's account from an address: one with a wrong
    password, one with hers. *)
Definition bad_login (ip : string) : Call :=
  PostLogin (login_req ip "a@x.com" "wrong").
Definition good_login (ip : string) : Call :=
  PostLogin (login_req ip "a@x.com" "P@ssw0rd1").

(** The response of the credential block to a wrong e-mail or password. *)
Definition invalid_credentials : Outcome :=
  reject 401 (Some MsgInvalidCredentials) None None.

(** The first factor of Bob's login, and a second factor with a code. *)
Definition bob_login (ip : string) : Call :=
  PostLogin (login_req ip "b@x.com" "hunter22").
Definition bob_code (ip code : string) : Call :=
  PostLoginTotp (totp_req ip "00000000-0000-4000-8000-000000000000" code).

(** Ten wrong passwords for Alice's account from one address: five within
    five seconds, and five more once the address's window has elapsed. *)
Definition ten_failures : list (Z * Call) :=
  (spaced 5 0 1000 (bad_login "1.2.3.4")
   ++ spaced 5 61000 1000 (bad_login "1.2.3.4"))%list.

(** Nine wrong passwords for an e-mail, 61 seconds apart, from one address. *)
Definition nine_failures (email : string) : list (Z * Call) :=
  spaced 9 0 61000 (PostLogin (login_req "1.2.3.4" email "wrong")).

(** The world after Bob's first factor at 0 ms: one pending challenge. *)
Definition bob_pending : World :=
  snd (login (lib := toy) (login_req "5.5.5.5" "b@x.com" "hunter22") 0 world0).

(** The world after ten wrong codes for that challenge, one per second:
    Bob's account is locked and the bucket of the address counts ten. *)
Definition bob_locked : World :=
  snd (serve_all (lib := toy)
         ((0, bob_login "5.5.5.5") :: spaced 10 1000 1000 (bob_code "5.5.5.5" "000000"))
         world0).

(** Bob's first factor, then his code twice. *)
Definition bob_run : list (Z * Call) :=
  [(0, bob_login "5.5.5.5"); (10000, bob_code "5.5.5.5" "123456");
   (20000, bob_code "5.5.5.5" "123456")].

(** Bob's first factor and his code, then his first factor again and the
    same challenge and code once more. *)
Definition bob_replay : list (Z * Call) :=
  [(0, bob_login "5.5.5.5"); (10000, bob_code "5.5.5.5" "123456");
   (20000, bob_login "5.5.5.5"); (30000, bob_code "5.5.5.5" "123456")].

(** More than an hour after [ten_failures], and just after a failed login
    from another address: Alice's account still carries its lockout expiry
    (long past), and the tracker has a bucket for each of the two addresses. *)
Definition alice_later : World :=
  snd (serve_all (lib := toy)
         (ten_failures
          ++ [(3699000, PostLogin (login_req "9.9.9.9" "nobody@x.com" "wrong"))])%list
         world0).

(** What follows a first failure from 1.2.3.4 at 0 ms: four more failures
    from that address, a successful login from another one and a sweep. *)
Definition busy_minute : list (Z * Call) :=
  [ (1000, bad_login "1.2.3.4"); (1500, good_login "9.9.9.9"); (2000, Sweep);
    (2000, bad_login "1.2.3.4"); (3000, bad_login "1.2.3.4");
    (4000, bad_login "1.2.3.4") ].

Definition uuid0 : string := "00000000-0000-4000-8000-000000000000".

(** ** More of rateLimit.ts *)

(** The Express middleware [loginRateLimitMiddleware]: the IP check alone,
    answered as POST /login answers it, or [next()]. *)
Definition loginRateLimitMiddleware (req : Request) (now : Z) : M Gate :=
  let ip := getClientIp req in
  ipCheck <- checkIpRateLimit ip now ;;
  if negb (allowed ipCheck) then
    ret (Stop {| status := 429;
                 body := ErrorBody (Some (MsgIpRateLimit (remainingSeconds ipCheck)))
                           (Some "IP_RATE_LIMIT") (remainingSeconds ipCheck);
                 set_cookie := None |})
  else ret (Proceed None).

(** What a request can do to the two tables of accounts and attempts: leave
    them alone, or append one row to the ledger, made at [t] from [ip],
    and with it leave the accounts alone, lock those of the row's e-mail, or
    unlock them and stamp a last login. *)
Definition db_step (t : Z) (ip : string) (w w' : World) : Prop :=
  (users w' = users w /\ ledger w' = ledger w)
  \/ exists row : LoginAttempt,
       ledger w' = (ledger w ++ [row])%list
       /\ a_createdAt row = t /\ a_ip row = ip
       /\ (users w' = users w
           \/ users w' = lock_accounts (a_email row)
                           (t + RATE_LIMIT.LOCKOUT_DURATION_MS) (users w)
           \/ exists id,
                users w'
                = List.map (fun x => if String.eqb (u_id x) id
                                     then set_lastLoginAt (Some t) x else x)
                    (unlock_accounts (a_email row) (users w))).

(** What identifies an account and lets it log in: everything but the
    lockout expiry and the time of the last login. *)
Definition credentials_of (u : User)
    : string * string * string * string * bool * option string :=
  (u_id u, u_email u, u_name u, u_passwordHash u, u_totpEnabled u, u_totpSecret u).

(** The world with another tracker, trace aside. *)
Definition same_database (w w' : World) : Prop :=
  users w' = users w /\ ledger w' = ledger w
  /\ challenges w' = challenges w /\ drawn w' = drawn w.


(** A second-factor request for the challenge [id] whose code the
    authenticator refuses for [secret], made before [expiry]. *)
Definition wrong_try {lib : Libraries} (id secret : string) (expiry : Z)
    (tr : Z * Request) : bool :=
  match VerifyTotpSchema_parse (snd tr) with
  | Some (id', code) =>
      String.eqb id' id
      && negb (authenticator_verify code secret (fst tr))
      && (fst tr <? expiry)
  | None => false
  end.

(** The calls of a list of second-factor requests. *)
Definition as_totp_calls (tries : list (Z * Request)) : list (Z * Call) :=
  List.map (fun tr => (fst tr, PostLoginTotp (snd tr))) tries.


(** ** routes/auth.ts: the second factor and the password of an account *)

(** The calls of these routes into code that is not part of the repository,
    and the one environment variable they read. *)
Class AccountLibraries := {
  (** [bcrypt.hash(password, 12)], with the salt the library drew. *)
  bcrypt_hash : string -> string -> string;
  (** [authenticator.keyuri(account, issuer, secret)]. *)
  keyuri : string -> string -> string -> string;
  (** [env.TOTP_ISSUER]. *)
  TOTP_ISSUER : string
}.

(** The [error] strings of these routes. *)
Inductive AccountMessage :=
| MsgNotFound                 (* 'Not found' *)
| MsgTotpAlreadyEnabled       (* 'TOTP already enabled' *)
| MsgNoTotpSecret             (* 'No TOTP secret. Run setup first.' *)
| MsgInvalidTotpCode          (* 'Invalid TOTP code' *)
| MsgCurrentPasswordWrong     (* 'Mat khau hien tai khong dung' *)
| MsgNewPasswordSame          (* 'Mat khau moi phai khac mat khau hien tai' *)
| MsgTotpCodeNeeded           (* 'Vui long nhap ma TOTP de doi mat khau' *)
| MsgTotpCodeInvalid.         (* 'Ma TOTP khong hop le' *)

(** The JSON bodies of these routes. *)
Inductive AccountBody :=
| AccountError (error : AccountMessage)               (* { error } *)
| TotpStatusBody (totpEnabled hasSecret : bool)       (* { totpEnabled, hasSecret } *)
| TotpSetupBody (secretBase32 otpauthUri issuer account : string)
                                     (* { secretBase32, otpauthUri, issuer, account } *)
| TotpEnabledBody (totpEnabled : bool)                (* { totpEnabled } *)
| OkBody.                                             (* { ok: true } *)

Record AccountResponse := {
  r_status : Z;
  r_body : AccountBody;
  r_cookie : option string      (* the [eco_token] cookie, when set *)
}.

(** What a route behind [requireAuth] does with a request: the gate answers
    it, the handler answers it, or the handler passes an exception on with
    [next(err)]. *)
Inductive Routed :=
| Refused (r : Response)
| Answered (r : AccountResponse)
| Failed.

Definition account_error (st : Z) (m : AccountMessage) : Routed :=
  Answered {| r_status := st; r_body := AccountError m; r_cookie := None |}.

Definition account_ok (b : AccountBody) (cookie : option string) : Routed :=
  Answered {| r_status := 200; r_body := b; r_cookie := cookie |}.

(** The JSON body of POST /password. *)
Record PasswordForm := {
  currentPassword : option string;
  newPassword : option string;
  totpCode : option string
}.

Definition set_totpSecret (v : option string) (u : User) : User :=
  {| u_id := u_id u; u_email := u_email u; u_name := u_name u;
     u_passwordHash := u_passwordHash u; u_totpEnabled := u_totpEnabled u;
     u_totpSecret := v; u_lockedUntil := u_lockedUntil u;
     u_lastLoginAt := u_lastLoginAt u |}.

Definition set_totpEnabled (v : bool) (u : User) : User :=
  {| u_id := u_id u; u_email := u_email u; u_name := u_name u;
     u_passwordHash := u_passwordHash u; u_totpEnabled := v;
     u_totpSecret := u_totpSecret u; u_lockedUntil := u_lockedUntil u;
     u_lastLoginAt := u_lastLoginAt u |}.

Definition set_passwordHash (v : string) (u : User) : User :=
  {| u_id := u_id u; u_email := u_email u; u_name := u_name u;
     u_passwordHash := v; u_totpEnabled := u_totpEnabled u;
     u_totpSecret := u_totpSecret u; u_lockedUntil := u_lockedUntil u;
     u_lastLoginAt := u_lastLoginAt u |}.

(** The rows of the table after an update of the rows under [id]. *)
Definition updated_rows (id : string) (data : User -> User) (us : list User)
    : list User :=
  List.map (fun u => if String.eqb (u_id u) id then data u else u) us.

(** [prisma.user.update({ where: { id }, data })]: [false] when it rejects
    because no row has the id. *)
Definition update_user (id : string) (data : User -> User) : M bool :=
  w <- get ;;
  match user_by_id id (users w) with
  | None => ret false
  | Some _ =>
      modify (fun w => set_users (updated_rows id data (users w)) w) ;;;
      ret true
  end.

(** The [code] of the schemas: six to eight characters, all digits. *)
Definition is_totp_code (code : string) : bool :=
  (6 <=? String.length code)%nat && (String.length code <=? 8)%nat
  && truthy code && all_chars is_digit code.

Definition EnableTotpSchema_parse (req : Request) : option string :=
  match body_code req with
  | Some code => if is_totp_code code then Some code else None
  | None => None
  end.

(** [ChangePasswordSchema.parse]: the two passwords and the optional code,
    [None] when it throws.  The bounds are on the number of code units. *)
Definition ChangePasswordSchema_parse (form : PasswordForm)
    : option (string * string * option string) :=
  match currentPassword form, newPassword form with
  | Some current, Some new =>
      if (1 <=? String.length current)%nat && (String.length current <=? 200)%nat
         && (8 <=? String.length new)%nat && (String.length new <=? 200)%nat
         && match totpCode form with
            | Some code => is_totp_code code
            | None => true
            end
      then Some (current, new, totpCode form) else None
  | _, _ => None
  end.

Section AccountRoutes.

Context {lib : Libraries} {acc : AccountLibraries}.

(** A handler mounted behind [requireAuth]: it runs when the gate calls
    [next()], and reads [req.user!.id]. *)
Definition behind_requireAuth (req : Request) (now : Z)
    (handler : string -> M Routed) : M Routed :=
  match requireAuth req now with
  | Stop r => ret (Refused r)
  | Proceed (Some userId) => handler userId
  | Proceed None => ret Failed
  end.

(** GET /totp *)
Definition totp_status (req : Request) (now : Z) : M Routed :=
  behind_requireAuth req now (fun userId =>
    w <- get ;;
    match user_by_id userId (users w) with
    | None => ret (account_error 404 MsgNotFound)
    | Some user =>
        ret (account_ok (TotpStatusBody (u_totpEnabled user)
                           (truthy_opt (u_totpSecret user))) None)
    end).

(** POST /totp/setup, with the secret [authenticator.generateSecret()]
    returned. *)
Definition totp_setup (req : Request) (now : Z) (generated : string) : M Routed :=
  behind_requireAuth req now (fun userId =>
    w <- get ;;
    match user_by_id userId (users w) with
    | None => ret (account_error 404 MsgNotFound)
    | Some user =>
        if u_totpEnabled user then ret (account_error 409 MsgTotpAlreadyEnabled)
        else
        let secretBase32 := generated in
        let issuer := TOTP_ISSUER in
        let otpauthUri := keyuri (u_email user) issuer secretBase32 in
        updated <- update_user userId
                     (fun u => set_totpEnabled false
                                 (set_totpSecret (Some secretBase32) u)) ;;
        if negb updated then ret Failed
        else ret (account_ok (TotpSetupBody secretBase32 otpauthUri issuer
                                (u_email user)) None)
    end).

(** POST /totp/enable *)
Definition totp_enable (req : Request) (now : Z) : M Routed :=
  behind_requireAuth req now (fun userId =>
    match EnableTotpSchema_parse req with
    | None => ret Failed
    | Some code =>
        w <- get ;;
        match user_by_id userId (users w) with
        | None => ret (account_error 404 MsgNotFound)
        | Some user =>
            if negb (truthy_opt (u_totpSecret user))
            then ret (account_error 400 MsgNoTotpSecret)
            else
            ok <- authenticator_verify_call code (or_else (u_totpSecret user) "") now ;;
            if negb ok then ret (account_error 401 MsgInvalidTotpCode)
            else
            updated <- update_user userId (set_totpEnabled true) ;;
            if negb updated then ret Failed
            else ret (account_ok (TotpEnabledBody true) None)
        end
    end).

(** POST /totp/disable *)
Definition totp_disable (req : Request) (now : Z) : M Routed :=
  behind_requireAuth req now (fun userId =>
    updated <- update_user userId (set_totpEnabled false) ;;
    if negb updated then ret Failed
    else ret (account_ok (TotpEnabledBody false) None)).

(** POST /password, with the body of the request and the salt
    [bcrypt.hash] drew. *)
Definition change_password (req : Request) (form : PasswordForm) (now : Z)
    (salt : string) : M Routed :=
  behind_requireAuth req now (fun userId =>
    match ChangePasswordSchema_parse form with
    | None => ret Failed
    | Some (current, new, code) =>
        w <- get ;;
        match user_by_id userId (users w) with
        | None => ret (account_error 404 MsgNotFound)
        | Some user =>
            currentOk <- bcrypt_compare_call current (u_passwordHash user) ;;
            if negb currentOk then ret (account_error 401 MsgCurrentPasswordWrong)
            else
            sameAsOld <- bcrypt_compare_call new (u_passwordHash user) ;;
            if sameAsOld then ret (account_error 400 MsgNewPasswordSame)
            else
            (* the second factor, when the account has one *)
            early <- (if u_totpEnabled user && truthy_opt (u_totpSecret user) then
                        if negb (truthy_opt code)
                        then ret (Some (account_error 400 MsgTotpCodeNeeded))
                        else
                        verified <- authenticator_verify_call (or_else code "")
                                      (or_else (u_totpSecret user) "") now ;;
                        if negb verified
                        then ret (Some (account_error 401 MsgTotpCodeInvalid))
                        else ret None
                      else ret None) ;;
            match early with
            | Some response => ret response
            | None =>
                let passwordHash := bcrypt_hash new salt in
                updated <- update_user userId (set_passwordHash passwordHash) ;;
                if negb updated then ret Failed
                else
                token <- jwt_sign_call userId now ;;
                ret (account_ok OkBody (Some token))
            end
        end
    end).

End AccountRoutes.

(** The route answered with status 200. *)
Definition answered_ok (o : Routed) : bool :=
  match o with
  | Answered r => r_status r =? 200
  | _ => false
  end.

(** Stand-ins for the libraries of these routes: the hash of a password is
    ["bcrypt:" ++ password] whatever the salt. *)
Definition toy_account : AccountLibraries := {|
  bcrypt_hash := fun password _ => "bcrypt:" ++ password;
  keyuri := fun account issuer secret =>
    "otpauth://totp/" ++ issuer ++ ":" ++ account ++ "?secret=" ++ secret;
  TOTP_ISSUER := "Eco-Byproduct VN"
|}.

(** A request to one of these routes, with a bearer token and a code. *)
Definition account_req (token : string) (code : option string) : Request := {|
  h_x_forwarded_for := None; h_user_agent := Some "curl";
  h_authorization := Some ("Bearer " ++ token); h_cookie := None;
  remoteAddress := Some "10.0.0.1";
  body_email := None; body_password := None;
  body_challengeId := None; body_code := code |}.


(** The five routes as calls, each with what the libraries drew for it. *)
Inductive AccountCall :=
| GetTotp
| PostTotpSetup (generated : string)
| PostTotpEnable
| PostTotpDisable
| PostPassword (form : PasswordForm) (salt : string).

Definition serve_account {lib : Libraries} {acc : AccountLibraries}
    (c : AccountCall) (req : Request) (now : Z) : M Routed :=
  match c with
  | GetTotp => totp_status req now
  | PostTotpSetup generated => totp_setup req now generated
  | PostTotpEnable => totp_enable req now
  | PostTotpDisable => totp_disable req now
  | PostPassword form salt => change_password req form now salt
  end.

(** What one of these routes can do to the world: nothing but to the
    accounts, and to them nothing or an update of the rows under the id the
    gate read from the token. *)
Definition account_step {lib : Libraries} (req : Request) (now : Z)
    (w w' : World) : Prop :=
  loginAttempts w' = loginAttempts w /\ ledger w' = ledger w
  /\ challenges w' = challenges w /\ drawn w' = drawn w
  /\ (users w' = users w
      \/ exists userId data,
           requireAuth req now = Proceed (Some userId)
           /\ users w' = updated_rows userId data (users w)).

(** Alice's session, as a bearer token of the toy libraries. *)
Definition alice_req (code : option string) : Request :=
  account_req "jwt.u1" code.

(** Bob's session. *)
Definition bob_req (code : option string) : Request :=
  account_req "jwt.u2" code.

(** A body of POST /password. *)
Definition password_form (current new : string) (code : option string)
    : PasswordForm :=
  {| currentPassword := Some current; newPassword := Some new; totpCode := code |}.


(** The world after five wrong passwords from 1.2.3.4, one per second from
    0 ms: the bucket of the address is full. *)
Definition after_five_failures : World :=
  snd (serve_all (lib := toy) (spaced 5 0 1000 (bad_login "1.2.3.4")) world0).

(** The row of Bob's pending challenge in [bob_pending]. *)
Definition bob_challenge : LoginChallenge :=
  {| c_id := uuid0; c_userId := "u2"; c_createdAt := 0;
     c_expiresAt := 120000; c_usedAt := None |}.

(** While Bob's challenge is pending: a wrong code, a new first factor of
    his, a sweep and another wrong code. *)
Definition bob_retries : list (Z * Call) :=
  [ (1000, bob_code "5.5.5.5" "000000"); (5000, bob_login "5.5.5.5");
    (6000, Sweep); (7000, bob_code "5.5.5.5" "111111") ].

(** Three wrong codes for Bob's challenge, one per second. *)
Definition bob_wrong_codes : list (Z * Request) :=
  [ (1000, totp_req "5.5.5.5" uuid0 "000000");
    (2000, totp_req "5.5.5.5" uuid0 "111111");
    (3000, totp_req "5.5.5.5" uuid0 "222222") ].


(** * Properties *)

(** ** The monad and the world *)

Section Basics.

Context {lib : Libraries}.

Lemma rate_limit_checks_eq ip email now w :
  rate_limit_checks ip email now w =
  match guards_verdict ip email now w with
  | ByIpGuard =>
      let s := remainingSeconds (checkIpRateLimit_pure ip now (loginAttempts w)) in
      (Some (reject 429 (Some (MsgIpRateLimit s)) (Some "IP_RATE_LIMIT") s),
       add_event (EvCheckIpRateLimit ip) w)
  | ByLockoutGuard =>
      let c := checkAccountLockout_pure email now (users w) in
      (Some (reject 423 (message c) (Some "ACCOUNT_LOCKED")
               (Some (match remainingMinutes c with Some m => m | None => 0 end * 60))),
       add_event (EvCheckAccountLockout email)
         (add_event (EvCheckIpRateLimit ip) w))
  | ByEmailGuard =>
      (Some (reject 429 (email_message (checkEmailRateLimit_pure email now (ledger w)))
               (Some "EMAIL_RATE_LIMIT") None),
       add_event (EvCheckEmailRateLimit email)
         (add_event (EvCheckAccountLockout email)
            (add_event (EvCheckIpRateLimit ip) w)))
  | Passed =>
      (None,
       add_event (EvCheckEmailRateLimit email)
         (add_event (EvCheckAccountLockout email)
            (add_event (EvCheckIpRateLimit ip) w)))
  end.
Proof.
  unfold rate_limit_checks, guards_verdict, checkIpRateLimit, checkAccountLockout,
    checkEmailRateLimit, bind, ret, get, emit, modify; cbn.
  destruct (allowed _); cbn; [|reflexivity].
  destruct (locked _); cbn; [reflexivity|].
  destruct (email_allowed _); reflexivity.
Qed.

(** [recordLoginAttempt] as a function of the world. *)
Lemma recordLoginAttempt_failure email ip ua uid now w :
  recordLoginAttempt email ip ua false uid now w =
  let l := (ledger w ++ [attempt_row email ip ua false uid now])%list in
  if RATE_LIMIT.LOCKOUT_THRESHOLD
       <=? failed_since email (now - RATE_LIMIT.EMAIL_WINDOW_MS) l
  then (true, set_users
                (lock_accounts email (now + RATE_LIMIT.LOCKOUT_DURATION_MS) (users w))
                (set_ledger l w))
  else (false, set_ledger l w).
Proof.
  unfold recordLoginAttempt, bind, ret, get, modify; cbn.
  destruct (_ <=? _); reflexivity.
Qed.

Lemma recordLoginAttempt_success email ip ua uid now w :
  recordLoginAttempt email ip ua true uid now w =
  (false, set_users (unlock_accounts email (users w))
            (set_ledger (ledger w ++ [attempt_row email ip ua true uid now]) w)).
Proof. reflexivity. Qed.

#[local] Arguments recordLoginAttempt : simpl never.

(** The events of the credential block: none, the comparison, or the
    comparison and the signature of the session token. *)
Lemma credential_validation_trace ip email password ua now w :
  exists rest,
    trace (snd (credential_validation ip email password ua now w))
      = (trace w ++ rest)%list
    /\ forallb (fun e => negb (is_guard_event e)) rest = true.
Proof.
  unfold credential_validation, bind, get, ret.
  destruct (user_by_email email (users w)) as [user|].
  - unfold bcrypt_compare_call, bind, emit, modify, ret; cbn.
    destruct (bcrypt_compare password (u_passwordHash user)); cbn.
    + destruct (negb (u_totpEnabled user) || negb (truthy_opt (u_totpSecret user))); cbn.
      * exists [EvBcryptCompare password (u_passwordHash user); EvJwtSign (u_id user)].
        rewrite recordLoginAttempt_success. cbn.
        split; [|reflexivity]. now rewrite <- app_assoc.
      * exists [EvBcryptCompare password (u_passwordHash user)]. now split.
    + rewrite recordLoginAttempt_failure. cbn.
      exists [EvBcryptCompare password (u_passwordHash user)].
      destruct (_ <=? _); cbn; now split.
  - cbn. rewrite recordLoginAttempt_failure. cbn.
    exists []. rewrite app_nil_r. destruct (_ <=? _); cbn; now split.
Qed.

(** Reading a verdict back into the three checks. *)
Lemma guards_verdict_inv ip em now w :
  match guards_verdict ip em now w with
  | ByIpGuard => allowed (checkIpRateLimit_pure ip now (loginAttempts w)) = false
  | ByLockoutGuard =>
      allowed (checkIpRateLimit_pure ip now (loginAttempts w)) = true
      /\ locked (checkAccountLockout_pure em now (users w)) = true
  | ByEmailGuard =>
      allowed (checkIpRateLimit_pure ip now (loginAttempts w)) = true
      /\ locked (checkAccountLockout_pure em now (users w)) = false
      /\ email_allowed (checkEmailRateLimit_pure em now (ledger w)) = false
  | Passed =>
      allowed (checkIpRateLimit_pure ip now (loginAttempts w)) = true
      /\ locked (checkAccountLockout_pure em now (users w)) = false
      /\ email_allowed (checkEmailRateLimit_pure em now (ledger w)) = true
  end.
Proof.
  unfold guards_verdict.
  destruct (allowed _); cbn; [|reflexivity].
  destruct (locked _); cbn; [tauto|].
  destruct (email_allowed _); cbn; tauto.
Qed.

(** The lockout check answers "locked" exactly for an account whose
    [lockedUntil] is set and later than [now]. *)
Lemma locked_inv em now us :
  locked (checkAccountLockout_pure em now us) = true ->
  exists u l,
    user_by_email em us = Some u /\ u_lockedUntil u = Some l /\ now < l
    /\ checkAccountLockout_pure em now us
       = {| locked := true;
            remainingMinutes := Some (ceil_div (l - now) 60000);
            message := Some (MsgAccountTempLocked (ceil_div (l - now) 60000)) |}.
Proof.
  unfold checkAccountLockout_pure.
  destruct (user_by_email em us) as [u|]; [|discriminate].
  destruct (u_lockedUntil u) as [l|] eqn:Hl; [|discriminate].
  destruct (now <? l) eqn:E; [|discriminate].
  intros _. exists u, l. apply Z.ltb_lt in E.
  split; [reflexivity|]. split; [exact Hl|]. split; [exact E|reflexivity].
Qed.

Lemma locked_intro em now us u l :
  user_by_email em us = Some u -> u_lockedUntil u = Some l -> now < l ->
  checkAccountLockout_pure em now us
  = {| locked := true;
       remainingMinutes := Some (ceil_div (l - now) 60000);
       message := Some (MsgAccountTempLocked (ceil_div (l - now) 60000)) |}.
Proof.
  intros Hu Hl Hn. unfold checkAccountLockout_pure. rewrite Hu, Hl.
  apply Z.ltb_lt in Hn. now rewrite Hn.
Qed.

End Basics.

(** ** The order of the guards *)

Section GuardOrder.

Context {lib : Libraries}.

Lemma login_eq req now w email password :
  LoginSchema_parse req = Some (email, password) ->
  login req now w =
  let ip := getClientIp req in
  let em := trim (toLowerCase email) in
  match rate_limit_checks ip em now w with
  | (Some response, w') => (response, w')
  | (None, w') => credential_validation ip em password (h_user_agent req) now w'
  end.
Proof.
  intros Hp. unfold login. rewrite Hp. unfold bind. cbn zeta.
  destruct (rate_limit_checks (getClientIp req) (trim (toLowerCase email)) now w)
    as [[r|] w']; reflexivity.
Qed.

Lemma login_totp_eq req now w id code :
  VerifyTotpSchema_parse req = Some (id, code) ->
  login_totp req now w
  = verify_found req code now
      (match challenge_by_id id (challenges w) with
       | Some c => Some (c, user_by_id (c_userId c) (users w))
       | None => None
       end) w.
Proof. intros Hp. unfold login_totp. rewrite Hp. reflexivity. Qed.

Lemma login_totp_unparsed req now w :
  VerifyTotpSchema_parse req = None -> login_totp req now w = (Thrown, w).
Proof. intros Hp. unfold login_totp. now rewrite Hp. Qed.

Lemma login_unparsed req now w :
  LoginSchema_parse req = None -> login req now w = (Thrown, w).
Proof. intros Hp. unfold login. now rewrite Hp. Qed.

(** C1. A login request that fails validation touches nothing.  For every
    other login request the handler evaluates the IP guard, then the
    lockout guard, then the e-mail guard; the first one that objects sends
    its rejection (429 IP_RATE_LIMIT, 423 ACCOUNT_LOCKED, 429
    EMAIL_RATE_LIMIT) and the later guards are not evaluated; a comparison
    of the password with the stored hash occurs in the trace only behind
    the three guard events, all of which let the request through. *)
Theorem login_guards_in_order (req : Request) (now : Z) (w : World) :
  exists es : list Event,
    trace (snd (login req now w)) = (trace w ++ es)%list
    /\ match LoginSchema_parse req with
       | None => es = [] /\ fst (login req now w) = Thrown
       | Some (email, password) =>
           let ip := getClientIp req in
           let em := trim (toLowerCase email) in
           match guards_verdict ip em now w with
           | ByIpGuard =>
               let s := remainingSeconds
                          (checkIpRateLimit_pure ip now (loginAttempts w)) in
               es = [EvCheckIpRateLimit ip]
               /\ fst (login req now w)
                  = reject 429 (Some (MsgIpRateLimit s)) (Some "IP_RATE_LIMIT") s
           | ByLockoutGuard =>
               let c := checkAccountLockout_pure em now (users w) in
               es = [EvCheckIpRateLimit ip; EvCheckAccountLockout em]
               /\ fst (login req now w)
                  = reject 423 (message c) (Some "ACCOUNT_LOCKED")
                      (Some (match remainingMinutes c with
                             | Some m => m
                             | None => 0
                             end * 60))
           | ByEmailGuard =>
               es = [EvCheckIpRateLimit ip; EvCheckAccountLockout em;
                     EvCheckEmailRateLimit em]
               /\ fst (login req now w)
                  = reject 429 (Some MsgEmailRateLimit) (Some "EMAIL_RATE_LIMIT") None
           | Passed =>
               exists rest,
                 es = ([EvCheckIpRateLimit ip; EvCheckAccountLockout em;
                        EvCheckEmailRateLimit em] ++ rest)%list
                 /\ forallb (fun e => negb (is_guard_event e)) rest = true
           end
       end
    /\ (forall pre p h post,
          es = (pre ++ EvBcryptCompare p h :: post)%list ->
          exists email password pre',
            LoginSchema_parse req = Some (email, password)
            /\ guards_verdict (getClientIp req) (trim (toLowerCase email)) now w
               = Passed
            /\ pre = ([EvCheckIpRateLimit (getClientIp req);
                       EvCheckAccountLockout (trim (toLowerCase email));
                       EvCheckEmailRateLimit (trim (toLowerCase email))]
                      ++ pre')%list).
Proof.
  destruct (LoginSchema_parse req) as [[email password]|] eqn:Hp.
  2:{ rewrite (login_unparsed _ _ _ Hp). exists []. cbn.
      rewrite app_nil_r. repeat split.
      intros pre p h post E. now destruct pre. }
  rewrite (login_eq _ _ _ _ _ Hp). cbn zeta.
  rewrite rate_limit_checks_eq.
  set (ip := getClientIp req). set (em := trim (toLowerCase email)).
  destruct (guards_verdict ip em now w) eqn:Hv; cbn zeta.
  - exists [EvCheckIpRateLimit ip]. cbn. repeat split.
    intros pre p h post E.
    destruct pre as [|? [|? ?]]; discriminate.
  - exists [EvCheckIpRateLimit ip; EvCheckAccountLockout em]. cbn.
    rewrite <- app_assoc. repeat split.
    intros pre p h post E.
    destruct pre as [|? [|? [|? ?]]]; discriminate.
  - exists [EvCheckIpRateLimit ip; EvCheckAccountLockout em;
            EvCheckEmailRateLimit em]. cbn.
    rewrite <- !app_assoc. repeat split.
    + unfold guards_verdict in Hv.
      destruct (negb (allowed _)); [discriminate|].
      destruct (locked _); [discriminate|].
      unfold checkEmailRateLimit_pure in *.
      destruct (_ <=? _); [reflexivity|discriminate].
    + intros pre p h post E.
      destruct pre as [|? [|? [|? [|? ?]]]]; discriminate.
  - destruct (credential_validation_trace ip em password (h_user_agent req) now
                (add_event (EvCheckEmailRateLimit em)
                   (add_event (EvCheckAccountLockout em)
                      (add_event (EvCheckIpRateLimit ip) w))))
      as (rest & Ht & Hg).
    exists ([EvCheckIpRateLimit ip; EvCheckAccountLockout em;
             EvCheckEmailRateLimit em] ++ rest)%list.
    split; [|split].
    + rewrite Ht. cbn. now rewrite <- !app_assoc.
    + now exists rest.
    + intros pre p h post E.
      exists email, password.
      destruct pre as [|e1 [|e2 [|e3 pre']]]; try discriminate.
      exists pre'. cbn in E. injection E as E1 E2 E3 _. subst e1 e2 e3.
      now repeat split.
Qed.

End GuardOrder.

(** Alice's login on the fresh server: the three guards, the comparison,
    the signature of the token. *)
Example login_trace_of_a_success :
  trace (snd (login (lib := toy) (login_req "1.2.3.4" "a@x.com" "P@ssw0rd1") 0 world0))
  = [ EvCheckIpRateLimit "1.2.3.4"; EvCheckAccountLockout "a@x.com";
      EvCheckEmailRateLimit "a@x.com"; EvBcryptCompare "P@ssw0rd1" "bcrypt:P@ssw0rd1";
      EvJwtSign "u1" ].
Proof. vm_compute. reflexivity. Qed.

(** ** The IP guard *)

Section IpGuard.

Context {lib : Libraries}.

#[local] Arguments recordLoginAttempt : simpl never.

Lemma ip_key_inj a b : ip_key a = ip_key b -> a = b.
Proof. unfold ip_key. intros H. now injection H. Qed.

Lemma ceil_div_pos a b : 0 < b -> 0 < a -> 0 < ceil_div a b.
Proof.
  intros Hb Ha. unfold ceil_div.
  assert ((- a) / b < 0) by (apply Z.div_lt_upper_bound; lia).
  lia.
Qed.

(** A guard's early response is none of the failure responses. *)
Lemma early_response_not_failed ip em now w r w' :
  rate_limit_checks ip em now w = (Some r, w') ->
  failed_attempt (Some r) = false /\ loginAttempts w' = loginAttempts w
  /\ session_of r = None.
Proof.
  rewrite rate_limit_checks_eq.
  destruct (guards_verdict ip em now w) eqn:Hv; cbn zeta; intros E;
    [| | |discriminate]; injection E as <- <-; cbn.
  - auto.
  - pose proof (guards_verdict_inv ip em now w) as Hi. rewrite Hv in Hi.
    destruct Hi as (_ & Hl). apply locked_inv in Hl as (u & l & _ & _ & _ & ->).
    cbn. auto.
  - unfold checkEmailRateLimit_pure.
    destruct (_ <=? _); cbn; auto.
Qed.

Lemma guards_passed_frame ip em now w w' :
  rate_limit_checks ip em now w = (None, w') ->
  loginAttempts w' = loginAttempts w /\ users w' = users w
  /\ ledger w' = ledger w /\ challenges w' = challenges w
  /\ guards_verdict ip em now w = Passed.
Proof.
  rewrite rate_limit_checks_eq.
  destruct (guards_verdict ip em now w); cbn zeta; intros E;
    try discriminate.
  injection E as <-. cbn. tauto.
Qed.

(** What the credential block does to the IP tracker: it records the
    attempt on its failure paths and clears the bucket otherwise. *)
Lemma credential_validation_tracker ip em password ua now w :
  let r := credential_validation ip em password ua now w in
  loginAttempts (snd r) =
    if failed_attempt (Some (fst r))
    then recordIpAttempt_pure ip now (loginAttempts w)
    else delete (ip_key ip) (loginAttempts w).
Proof.
  unfold credential_validation, bind, get, ret.
  destruct (user_by_email em (users w)) as [user|].
  - unfold bcrypt_compare_call, bind, emit, modify, ret; cbn.
    destruct (bcrypt_compare password (u_passwordHash user)); cbn.
    + destruct (negb (u_totpEnabled user) || negb (truthy_opt (u_totpSecret user)));
        cbn; [rewrite recordLoginAttempt_success|]; reflexivity.
    + rewrite recordLoginAttempt_failure. cbn.
      destruct (_ <=? _); reflexivity.
  - cbn. rewrite recordLoginAttempt_failure. cbn.
    destruct (_ <=? _); reflexivity.
Qed.

(** The same for the second-factor handler, which leaves the tracker alone
    when it stops at a challenge error. *)
Lemma verify_found_tracker req code now found w :
  let r := verify_found req code now found w in
  failed_attempt (Some (fst r)) = true ->
  loginAttempts (snd r) = recordIpAttempt_pure (getClientIp req) now (loginAttempts w).
Proof.
  unfold verify_found, bind, ret.
  destruct found as [[c owner]|]; [|discriminate].
  destruct (c_usedAt c); [discriminate|].
  destruct (c_expiresAt c <=? now); [discriminate|].
  destruct owner as [user|]; [|discriminate].
  destruct (negb (u_totpEnabled user) || negb (truthy_opt (u_totpSecret user)));
    [discriminate|].
  unfold authenticator_verify_call, bind, emit, modify, ret; cbn.
  destruct (authenticator_verify _ _ _); cbn.
  - rewrite recordLoginAttempt_success. discriminate.
  - rewrite recordLoginAttempt_failure. cbn. destruct (_ <=? _); reflexivity.
Qed.

(** Every failed attempt made from an address is recorded in its bucket. *)
Lemma failed_attempt_recorded c ip now w :
  call_ip c = Some ip ->
  failed_attempt (fst (serve c now w)) = true ->
  loginAttempts (snd (serve c now w)) = recordIpAttempt_pure ip now (loginAttempts w).
Proof.
  destruct c as [req|req|]; cbn; [| |discriminate];
    intros [= <-]; unfold bind, ret.
  - destruct (LoginSchema_parse req) as [[email password]|] eqn:Hp.
    2:{ rewrite (login_unparsed _ _ _ Hp). discriminate. }
    rewrite (login_eq _ _ _ _ _ Hp). cbn zeta.
    destruct (rate_limit_checks _ _ _ _) as [[r|] w1] eqn:Hg.
    + apply early_response_not_failed in Hg as (Hf & _). cbn [fst snd]. congruence.
    + apply guards_passed_frame in Hg as (Hl & _).
      pose proof (credential_validation_tracker (getClientIp req)
                    (trim (toLowerCase email)) password (h_user_agent req) now w1) as Ht.
      cbn zeta in Ht.
      destruct (credential_validation _ _ _ _ _ _) as [o w2]; cbn [fst snd] in *.
      intros Hf. rewrite Hf in Ht. congruence.
  - unfold login_totp.
    destruct (VerifyTotpSchema_parse req) as [[id code]|]; [|discriminate].
    unfold bind, find_challenge, get, ret. cbn.
    pose proof (verify_found_tracker req code now
      (match challenge_by_id id (challenges w) with
       | Some c => Some (c, user_by_id (c_userId c) (users w))
       | None => None
       end) w) as Ht.
    cbn zeta in Ht.
    destruct (verify_found _ _ _ _ _) as [o w2]; cbn [fst snd] in *. exact Ht.
Qed.

Lemma record_opens_window ip now m :
  window_closed ip now m = true ->
  recordIpAttempt_pure ip now m !! ip_key ip
  = Some {| count := 1; firstAttempt := now |}.
Proof.
  unfold window_closed, recordIpAttempt_pure.
  destruct (m !! ip_key ip) as [d|].
  - intros ->. apply lookup_insert_eq.
  - intros _. apply lookup_insert_eq.
Qed.

Lemma record_in_window ip now m k t1 :
  m !! ip_key ip = Some {| count := k; firstAttempt := t1 |} ->
  now - t1 <= RATE_LIMIT.IP_WINDOW_MS ->
  recordIpAttempt_pure ip now m !! ip_key ip
  = Some {| count := k + 1; firstAttempt := t1 |}.
Proof.
  intros Hm Hn. unfold recordIpAttempt_pure. rewrite Hm. cbn.
  destruct (RATE_LIMIT.IP_WINDOW_MS <? now - t1) eqn:E.
  - apply Z.ltb_lt in E. lia.
  - apply lookup_insert_eq.
Qed.

(** What the second-factor handler can do to the tracker. *)
Lemma verify_found_tracker_cases req code now found w :
  let m' := loginAttempts (snd (verify_found req code now found w)) in
  m' = loginAttempts w
  \/ m' = recordIpAttempt_pure (getClientIp req) now (loginAttempts w)
  \/ m' = delete (ip_key (getClientIp req)) (loginAttempts w).
Proof.
  unfold verify_found, bind, ret.
  destruct found as [[c owner]|]; [|now left].
  destruct (c_usedAt c); [now left|].
  destruct (c_expiresAt c <=? now); [now left|].
  destruct owner as [user|]; [|now left].
  destruct (negb (u_totpEnabled user) || negb (truthy_opt (u_totpSecret user)));
    [now left|].
  unfold authenticator_verify_call, bind, emit, modify, ret; cbn.
  destruct (authenticator_verify _ _ _); cbn.
  - rewrite recordLoginAttempt_success. cbn. now right; right.
  - rewrite recordLoginAttempt_failure. cbn zeta.
    destruct (RATE_LIMIT.LOCKOUT_THRESHOLD <=? _); cbn; now right; left.
Qed.

(** A request touches the tracker at the bucket of its own address only. *)
Lemma serve_tracker_cases c ip' now w :
  call_ip c = Some ip' ->
  let m' := loginAttempts (snd (serve c now w)) in
  m' = loginAttempts w
  \/ m' = recordIpAttempt_pure ip' now (loginAttempts w)
  \/ m' = delete (ip_key ip') (loginAttempts w).
Proof.
  destruct c as [req|req|]; cbn; [| |discriminate];
    intros [= <-]; unfold bind, ret.
  - destruct (LoginSchema_parse req) as [[email password]|] eqn:Hp.
    2:{ rewrite (login_unparsed _ _ _ Hp). now left. }
    rewrite (login_eq _ _ _ _ _ Hp). cbn zeta.
    destruct (rate_limit_checks _ _ _ _) as [[r|] w1] eqn:Hg.
    + apply early_response_not_failed in Hg as (_ & Hl & _). now left.
    + apply guards_passed_frame in Hg as (Hl & _).
      pose proof (credential_validation_tracker (getClientIp req)
                    (trim (toLowerCase email)) password (h_user_agent req) now w1) as Ht.
      cbn zeta in Ht.
      destruct (credential_validation _ _ _ _ _ _) as [o w2]; cbn [fst snd] in *.
      rewrite Hl in Ht. destruct (failed_attempt (Some o)); auto.
  - destruct (VerifyTotpSchema_parse req) as [[id code]|] eqn:Hp.
    2:{ rewrite (login_totp_unparsed _ _ _ Hp). now left. }
    rewrite (login_totp_eq _ _ _ _ _ Hp).
    match goal with
    | |- context [verify_found ?a ?b ?c ?d ?e] =>
        pose proof (verify_found_tracker_cases a b c d e) as Ht;
        destruct (verify_found a b c d e) as [o w2]
    end.
    exact Ht.
Qed.

Lemma record_other_address ip ip' now m :
  ip' <> ip ->
  recordIpAttempt_pure ip' now m !! ip_key ip = m !! ip_key ip.
Proof.
  intros Hne. unfold recordIpAttempt_pure.
  assert (ip_key ip' <> ip_key ip) by (intros E; now apply ip_key_inj in E).
  destruct (m !! ip_key ip') as [d|].
  - destruct (_ <? _); now apply lookup_insert_ne.
  - now apply lookup_insert_ne.
Qed.

(** Requests from other addresses and the sweep leave a bucket alone while
    it is less than an hour old. *)
Lemma bucket_untouched c ip now w d :
  from_ip ip c = false ->
  loginAttempts w !! ip_key ip = Some d ->
  now - firstAttempt d <= RATE_LIMIT.EMAIL_WINDOW_MS ->
  loginAttempts (snd (serve c now w)) !! ip_key ip = Some d.
Proof.
  intros Hf Hb Ht. unfold from_ip in Hf.
  destruct (call_ip c) as [ip'|] eqn:Hc.
  - apply String.eqb_neq in Hf.
    destruct (serve_tracker_cases c ip' now w Hc) as [E|[E|E]]; rewrite E.
    + exact Hb.
    + now rewrite record_other_address.
    + rewrite lookup_delete_ne; [exact Hb|].
      intros E'. now apply ip_key_inj in E'.
  - destruct c; try discriminate. cbn.
    apply map_lookup_filter_Some. split; [exact Hb|]. cbn.
    destruct (_ <? _) eqn:E; [|reflexivity].
    apply Z.ltb_lt in E.
    unfold RATE_LIMIT.IP_WINDOW_MS, RATE_LIMIT.EMAIL_WINDOW_MS in *. lia.
Qed.

(** While the window of [ip] runs, its bucket counts the attempts made from
    it, when all of them fail. *)
Lemma failures_accumulate ip t1 calls :
  forall w k,
    loginAttempts w !! ip_key ip = Some {| count := k; firstAttempt := t1 |} ->
    forallb (fun tc => fst tc - t1 <=? RATE_LIMIT.IP_WINDOW_MS) calls = true ->
    forallb (failed_when_from ip) (List.combine calls (fst (serve_all calls w))) = true ->
    loginAttempts (snd (serve_all calls w)) !! ip_key ip
    = Some {| count := k + Z.of_nat (attempts_from ip calls); firstAttempt := t1 |}.
Proof.
  induction calls as [|[t c] calls IH]; intros w k Hb Hc Hf.
  - cbn. rewrite Z.add_0_r. exact Hb.
  - cbn [forallb fst snd] in Hc.
    apply andb_prop in Hc as (Ht & Hc). apply Z.leb_le in Ht.
    cbn [serve_all] in *. unfold bind in *.
    pose proof (failed_attempt_recorded c ip t w) as Hrec.
    pose proof (bucket_untouched c ip t w {| count := k; firstAttempt := t1 |}) as Hskip.
    destruct (serve c t w) as [o w1]. cbn [fst snd] in *.
    specialize (IH w1).
    destruct (serve_all calls w1) as [os w2]. cbn [fst snd ret] in *.
    cbn [List.combine forallb] in Hf. apply andb_prop in Hf as (Hf1 & Hf).
    unfold failed_when_from in Hf1. cbn [fst snd] in Hf1.
    unfold attempts_from. cbn [List.filter snd].
    destruct (from_ip ip c) eqn:Hip.
    + cbn in Hf1. unfold from_ip in Hip.
      destruct (call_ip c) as [i|] eqn:Hi; [|discriminate].
      apply String.eqb_eq in Hip. subst i.
      rewrite (IH (k + 1)); auto.
      * f_equal. f_equal. cbn [List.length]. unfold attempts_from. lia.
      * rewrite (Hrec eq_refl Hf1). now apply record_in_window.
    + rewrite (IH k); auto.
      apply (Hskip eq_refl Hb). cbn.
      unfold RATE_LIMIT.IP_WINDOW_MS, RATE_LIMIT.EMAIL_WINDOW_MS in *. lia.
Qed.

(** C2, as the code has it.  Take an address for which no window is
    running when an attempt from it fails at [t1], and a run of requests
    that follows, all of them no later than 60 s after [t1], in which every
    attempt from that address fails and there are at least four more of
    them; requests from other addresses and the sweep may come in between.
    Then every login from that address made less than 60 s after [t1] is
    stopped by the IP guard: 429, IP_RATE_LIMIT, a strictly positive
    [retryAfter]; whatever password it carries, nothing but the IP check is
    evaluated. *)
Theorem ip_guard_after_five_failures (ip : string) (w : World) (t1 : Z)
    (c1 : Call) (rest : list (Z * Call)) (req : Request) (email password : string)
    (t6 : Z) :
  window_closed ip t1 (loginAttempts w) = true ->
  from_ip ip c1 = true ->
  forallb (fun tc => fst tc - t1 <=? RATE_LIMIT.IP_WINDOW_MS) rest = true ->
  (4 <= attempts_from ip rest)%nat ->
  forallb (failed_when_from ip)
    (List.combine ((t1, c1) :: rest) (fst (serve_all ((t1, c1) :: rest) w))) = true ->
  getClientIp req = ip ->
  LoginSchema_parse req = Some (email, password) ->
  t6 - t1 < RATE_LIMIT.IP_WINDOW_MS ->
  let w5 := snd (serve_all ((t1, c1) :: rest) w) in
  exists s : Z,
    0 < s
    /\ login req t6 w5
       = (reject 429 (Some (MsgIpRateLimit (Some s))) (Some "IP_RATE_LIMIT") (Some s),
          add_event (EvCheckIpRateLimit ip) w5).
Proof.
  intros Hclosed Hc1 Hrest Hlen Hfail Hip Hparse Ht6 w5.
  assert (Hbucket : exists k, 5 <= k /\
            loginAttempts w5 !! ip_key ip = Some {| count := k; firstAttempt := t1 |}).
  { subst w5. pose proof Hc1 as Hc1'. unfold from_ip in Hc1.
    destruct (call_ip c1) as [i|] eqn:Hi; [|discriminate].
    apply String.eqb_eq in Hc1. subst i.
    cbn [serve_all] in *. unfold bind in *.
    pose proof (failed_attempt_recorded c1 ip t1 w Hi) as Hrec.
    destruct (serve c1 t1 w) as [o w1]. cbn [fst snd] in *.
    pose proof (failures_accumulate ip t1 rest w1 1) as Hacc.
    destruct (serve_all rest w1) as [os w2]. cbn [fst snd ret] in *.
    cbn [List.combine forallb] in Hfail. apply andb_prop in Hfail as (Hf1 & Hf).
    unfold failed_when_from in Hf1. cbn [fst snd] in Hf1. rewrite Hc1' in Hf1.
    cbn in Hf1.
    exists (1 + Z.of_nat (attempts_from ip rest)). split; [lia|].
    apply Hacc; auto.
    rewrite (Hrec Hf1). now apply record_opens_window. }
  destruct Hbucket as (k & Hk & Hb).
  exists (ceil_div (RATE_LIMIT.IP_WINDOW_MS - (t6 - t1)) 1000).
  split.
  - apply ceil_div_pos; lia.
  - rewrite (login_eq _ _ _ _ _ Hparse). cbn zeta.
    rewrite rate_limit_checks_eq. rewrite Hip.
    unfold guards_verdict, checkIpRateLimit_pure. rewrite Hb. cbn.
    destruct (RATE_LIMIT.IP_WINDOW_MS <? t6 - t1) eqn:E1.
    { apply Z.ltb_lt in E1. lia. }
    destruct (RATE_LIMIT.IP_MAX_ATTEMPTS <=? k) eqn:E2.
    2:{ apply Z.leb_gt in E2. unfold RATE_LIMIT.IP_MAX_ATTEMPTS in E2. lia. }
    reflexivity.
Qed.

End IpGuard.

(** The scenario of the specification, with other traffic in between: five
    wrong passwords from one address within five seconds, then the right
    password from that address within the minute. *)
Lemma ip_guard_after_five_failures_witness :
  exists s : Z,
    0 < s
    /\ login (lib := toy) (login_req "1.2.3.4" "a@x.com" "P@ssw0rd1") 59999
         (snd (serve_all (lib := toy) ((0, bad_login "1.2.3.4") :: busy_minute) world0))
       = (reject 429 (Some (MsgIpRateLimit (Some s))) (Some "IP_RATE_LIMIT") (Some s),
          add_event (EvCheckIpRateLimit "1.2.3.4")
            (snd (serve_all (lib := toy) ((0, bad_login "1.2.3.4") :: busy_minute) world0))).
Proof.
  apply (ip_guard_after_five_failures (lib := toy) "1.2.3.4" world0 0
           (bad_login "1.2.3.4") busy_minute
           (login_req "1.2.3.4" "a@x.com" "P@ssw0rd1") "a@x.com" "P@ssw0rd1" 59999);
    vm_compute; reflexivity.
Defined.

(** C2 as stated fails: the window of the tracker is anchored at the first
    failure of a bucket and does not slide.  One failure at 0 s opens a
    bucket; failures at 50, 51 and 52 s are counted in it; it has elapsed at
    61 s, so the failures at 61 and 62 s start a new bucket with count 2.
    At 63 s the address has failed five times within the last 13 seconds,
    and its next login, with the right password, is let through and gets a
    session. *)
Lemma ip_window_is_not_sliding :
  fst (serve_all (lib := toy)
         [ (0, bad_login "1.2.3.4");
           (50000, bad_login "1.2.3.4"); (51000, bad_login "1.2.3.4");
           (52000, bad_login "1.2.3.4"); (61000, bad_login "1.2.3.4");
           (62000, bad_login "1.2.3.4");
           (63000, good_login "1.2.3.4") ] world0)
  = [ Some invalid_credentials;
      Some invalid_credentials; Some invalid_credentials;
      Some invalid_credentials; Some invalid_credentials;
      Some invalid_credentials;
      Some (Sent {| status := 200; body := SessionBody (public_of alice);
                    set_cookie := Some "jwt.u1" |}) ].
Proof. vm_compute. reflexivity. Qed.

(** At the last millisecond of the window the guard still rejects, and the
    cooldown it announces is zero seconds. *)
Example ip_guard_at_window_end :
  fst (login (lib := toy) (login_req "1.2.3.4" "a@x.com" "P@ssw0rd1") 60000
         (snd (serve_all (lib := toy) (spaced 5 0 1000 (bad_login "1.2.3.4")) world0)))
  = reject 429 (Some (MsgIpRateLimit (Some 0))) (Some "IP_RATE_LIMIT") (Some 0).
Proof. vm_compute. reflexivity. Qed.

(** ** The lockout *)

Section Lockout.

Context {lib : Libraries}.

#[local] Arguments recordLoginAttempt : simpl never.

Lemma user_by_email_lock em t us :
  user_by_email em (lock_accounts em t us)
  = option_map (set_lockedUntil (Some t)) (user_by_email em us).
Proof.
  unfold user_by_email, lock_accounts.
  induction us as [|u us IH]; [reflexivity|].
  cbn. destruct (String.eqb (u_email u) em) eqn:E; cbn; rewrite E; [reflexivity|].
  exact IH.
Qed.

Lemma failed_since_app em since l1 l2 :
  failed_since em since (l1 ++ l2)
  = failed_since em since l1 + failed_since em since l2.
Proof.
  unfold failed_since. rewrite List.filter_app, List.length_app. lia.
Qed.

Lemma failed_since_failure em ip ua uid now :
  failed_since em (now - RATE_LIMIT.EMAIL_WINDOW_MS)
    [attempt_row em ip ua false uid now] = 1.
Proof.
  unfold failed_since. cbn. rewrite String.eqb_refl. cbn.
  assert ((now - RATE_LIMIT.EMAIL_WINDOW_MS <=? now) = true) as ->.
  { apply Z.leb_le. unfold RATE_LIMIT.EMAIL_WINDOW_MS. lia. }
  reflexivity.
Qed.

(** The wrong-password path of the credential block. *)
Lemma credential_validation_wrong_password ip em password ua now w u :
  user_by_email em (users w) = Some u ->
  bcrypt_compare password (u_passwordHash u) = false ->
  credential_validation ip em password ua now w =
  let l := (ledger w ++ [attempt_row em ip ua false (Some (u_id u)) now])%list in
  let w1 := set_ledger l
              (set_loginAttempts (recordIpAttempt_pure ip now (loginAttempts w))
                 (add_event (EvBcryptCompare password (u_passwordHash u)) w)) in
  if RATE_LIMIT.LOCKOUT_THRESHOLD
       <=? failed_since em (now - RATE_LIMIT.EMAIL_WINDOW_MS) l
  then (reject 423
          (Some (MsgAccountLockedNow (RATE_LIMIT.LOCKOUT_DURATION_MS / 60000)))
          (Some "ACCOUNT_LOCKED") (Some (RATE_LIMIT.LOCKOUT_DURATION_MS / 1000)),
        set_users (lock_accounts em (now + RATE_LIMIT.LOCKOUT_DURATION_MS) (users w)) w1)
  else (reject 401 (Some MsgInvalidCredentials) None None, w1).
Proof.
  intros Hu Hc. unfold credential_validation, bind, get, ret.
  rewrite Hu. unfold bcrypt_compare_call, bind, emit, modify, ret; cbn.
  rewrite Hc. cbn. rewrite recordLoginAttempt_failure. cbn.
  destruct (_ <=? _); reflexivity.
Qed.

(** The path of an e-mail that no account has. *)
Lemma credential_validation_unknown ip em password ua now w :
  user_by_email em (users w) = None ->
  fst (credential_validation ip em password ua now w)
  = reject 401 (Some MsgInvalidCredentials) None None.
Proof.
  intros Hu. unfold credential_validation, bind, get, ret.
  rewrite Hu. cbn. rewrite recordLoginAttempt_failure. cbn.
  destruct (_ <=? _); reflexivity.
Qed.

(** C3, as the code has it.  (1) When a login with a wrong password for an
    existing account passes the guards and is the tenth failure for that
    e-mail within the last hour, the account's [lockedUntil] becomes
    [now] + 15 minutes and the response is 423 ACCOUNT_LOCKED.  (2) While
    an account's [lockedUntil] is later than [now], every login for its
    e-mail is rejected before the password is compared: by the lockout
    guard, with 423 ACCOUNT_LOCKED and the remaining minutes rounded up,
    when the IP guard lets the request through, and by the IP guard, with
    429 IP_RATE_LIMIT, when it does not. *)
Theorem lockout_set_and_enforced (req : Request) (now : Z) (w : World)
    (email password : string) (u : User) :
  LoginSchema_parse req = Some (email, password) ->
  let ip := getClientIp req in
  let em := trim (toLowerCase email) in
  user_by_email em (users w) = Some u ->
  (guards_verdict ip em now w = Passed ->
   bcrypt_compare password (u_passwordHash u) = false ->
   failed_since em (now - RATE_LIMIT.EMAIL_WINDOW_MS) (ledger w)
     = RATE_LIMIT.LOCKOUT_THRESHOLD - 1 ->
   let r := login req now w in
   failed_since em (now - RATE_LIMIT.EMAIL_WINDOW_MS) (ledger (snd r))
     = RATE_LIMIT.LOCKOUT_THRESHOLD
   /\ user_by_email em (users (snd r))
      = Some (set_lockedUntil (Some (now + 15 * 60 * 1000)) u)
   /\ fst r = reject 423 (Some (MsgAccountLockedNow 15))
                (Some "ACCOUNT_LOCKED") (Some 900))
  /\ (forall l : Z,
        u_lockedUntil u = Some l -> now < l ->
        let minutes := ceil_div (l - now) 60000 in
        1 <= minutes
        /\ login req now w
           = if allowed (checkIpRateLimit_pure ip now (loginAttempts w))
             then (reject 423 (Some (MsgAccountTempLocked minutes))
                     (Some "ACCOUNT_LOCKED") (Some (minutes * 60)),
                   add_event (EvCheckAccountLockout em)
                     (add_event (EvCheckIpRateLimit ip) w))
             else (let s := remainingSeconds
                              (checkIpRateLimit_pure ip now (loginAttempts w)) in
                   reject 429 (Some (MsgIpRateLimit s)) (Some "IP_RATE_LIMIT") s,
                   add_event (EvCheckIpRateLimit ip) w)).
Proof.
  intros Hp ip em Hu. split.
  - intros Hv Hc Hn r. subst r.
    rewrite (login_eq _ _ _ _ _ Hp). cbn zeta. fold ip em.
    rewrite rate_limit_checks_eq, Hv.
    rewrite (credential_validation_wrong_password _ _ _ _ _ _ u); [|exact Hu|exact Hc].
    cbn zeta. cbn [ledger users add_event].
    rewrite failed_since_app, failed_since_failure, Hn.
    change (RATE_LIMIT.LOCKOUT_THRESHOLD <=? RATE_LIMIT.LOCKOUT_THRESHOLD - 1 + 1)
      with true. cbn [fst snd].
    split; [|split].
    + cbn. rewrite failed_since_app, failed_since_failure, Hn. reflexivity.
    + cbn [users set_users]. rewrite user_by_email_lock, Hu. reflexivity.
    + reflexivity.
  - intros l Hl Hn minutes. split.
    + subst minutes. unfold ceil_div.
      assert ((- (l - now)) / 60000 < 0) by (apply Z.div_lt_upper_bound; lia).
      lia.
    + rewrite (login_eq _ _ _ _ _ Hp). cbn zeta. fold ip em.
      rewrite rate_limit_checks_eq. unfold guards_verdict.
      rewrite (locked_intro em now (users w) u l Hu Hl Hn). cbn.
      destruct (allowed _); reflexivity.
Qed.

End Lockout.

(** The tenth wrong password in an hour locks Alice's account; while it is
    locked a login with her password from another address is turned away
    with the fifteen minutes that remain. *)
Lemma lockout_set_and_enforced_witness :
  (let r := login (lib := toy) (login_req "1.2.3.4" "a@x.com" "wrong") 549000
              (snd (serve_all (lib := toy) (nine_failures "a@x.com") world0)) in
   failed_since "a@x.com" (549000 - RATE_LIMIT.EMAIL_WINDOW_MS) (ledger (snd r))
     = RATE_LIMIT.LOCKOUT_THRESHOLD
   /\ user_by_email "a@x.com" (users (snd r))
      = Some (set_lockedUntil (Some (549000 + 15 * 60 * 1000)) alice)
   /\ fst r = reject 423 (Some (MsgAccountLockedNow 15))
                (Some "ACCOUNT_LOCKED") (Some 900))
  /\ fst (login (lib := toy) (login_req "9.9.9.9" "a@x.com" "P@ssw0rd1") 66000
            (snd (serve_all (lib := toy) ten_failures world0)))
     = reject 423 (Some (MsgAccountTempLocked 15)) (Some "ACCOUNT_LOCKED") (Some 900).
Proof.
  split.
  - apply (proj1 (lockout_set_and_enforced (lib := toy)
             (login_req "1.2.3.4" "a@x.com" "wrong") 549000
             (snd (serve_all (lib := toy) (nine_failures "a@x.com") world0))
             "a@x.com" "wrong" alice eq_refl eq_refl));
      vm_compute; reflexivity.
  - pose proof (proj2 (lockout_set_and_enforced (lib := toy)
             (login_req "9.9.9.9" "a@x.com" "P@ssw0rd1") 66000
             (snd (serve_all (lib := toy) ten_failures world0))
             "a@x.com" "P@ssw0rd1"
             (set_lockedUntil (Some 965000) alice) eq_refl eq_refl)
           965000 eq_refl eq_refl) as H.
    cbv zeta in H. destruct H as [_ H]. rewrite H. vm_compute. reflexivity.
Defined.

(** C3 as stated fails: a login for a locked account is not always answered
    with the lockout.  After [ten_failures] Alice's account is locked until
    965 000 ms and the bucket of the address that made the last five failures
    is full; at 66 000 ms a login from that address, with the right
    password, is stopped by the IP guard, which comes first: 429
    IP_RATE_LIMIT with the 55 seconds of the address's cooldown, not the
    remaining minutes of the lockout. *)
Lemma locked_account_behind_ip_guard :
  option_map u_lockedUntil
    (user_by_email "a@x.com"
       (users (snd (serve_all (lib := toy) ten_failures world0))))
  = Some (Some 965000)
  /\ fst (login (lib := toy) (login_req "1.2.3.4" "a@x.com" "P@ssw0rd1") 66000
            (snd (serve_all (lib := toy) ten_failures world0)))
     = reject 429 (Some (MsgIpRateLimit (Some 55))) (Some "IP_RATE_LIMIT") (Some 55).
Proof. split; vm_compute; reflexivity. Qed.

(** The second-factor path records its failures too, but does not report
    the lockout they cause: the tenth wrong code for Bob's challenge locks
    his account and is answered like the nine before it. *)
Example tenth_wrong_code_locks_silently :
  List.last (fst (serve_all (lib := toy)
                    ((0, bob_login "5.5.5.5")
                     :: spaced 10 1000 1000 (bob_code "5.5.5.5" "000000")) world0)) None
  = Some (reject 401 (Some MsgInvalidTotp) (Some "INVALID_TOTP") None)
  /\ option_map u_lockedUntil (user_by_email "b@x.com" (users bob_locked))
     = Some (Some 910000).
Proof. split; vm_compute; reflexivity. Qed.

(** ** The success paths of POST /login *)

Section FirstFactor.

Context {lib : Libraries}.

#[local] Arguments recordLoginAttempt : simpl never.

(** A correct password for an account with TOTP enabled: a challenge. *)
Lemma credential_validation_second_factor ip em password ua now w u :
  user_by_email em (users w) = Some u ->
  bcrypt_compare password (u_passwordHash u) = true ->
  u_totpEnabled u = true -> truthy_opt (u_totpSecret u) = true ->
  let c := {| c_id := uuid (drawn w); c_userId := u_id u; c_createdAt := now;
              c_expiresAt := now + CHALLENGE_WINDOW_MS; c_usedAt := None |} in
  let r := credential_validation ip em password ua now w in
  fst r = Sent {| status := 200;
                  body := ChallengeBody (c_id c) (c_expiresAt c) (public_of u);
                  set_cookie := None |}
  /\ challenges (snd r)
     = (List.filter (fun c => negb (stale_for (u_id u) now c)) (challenges w) ++ [c])%list
  /\ trace (snd r) = (trace w ++ [EvBcryptCompare password (u_passwordHash u)])%list
  /\ loginAttempts (snd r) = delete (ip_key ip) (loginAttempts w)
  /\ users (snd r) = users w /\ ledger (snd r) = ledger w.
Proof.
  intros Hu Hc He Hs c r. subst r c.
  unfold credential_validation, bind, get, ret.
  rewrite Hu. unfold bcrypt_compare_call, bind, emit, modify, ret; cbn.
  rewrite Hc, He, Hs. cbn. tauto.
Qed.

(** A correct password for an account without a second factor: a session. *)
Lemma credential_validation_session ip em password ua now w u :
  user_by_email em (users w) = Some u ->
  bcrypt_compare password (u_passwordHash u) = true ->
  negb (u_totpEnabled u) || negb (truthy_opt (u_totpSecret u)) = true ->
  let r := credential_validation ip em password ua now w in
  fst r = Sent {| status := 200; body := SessionBody (public_of u);
                  set_cookie := Some (jwt_sign (u_id u) now) |}
  /\ users (snd r)
     = List.map (fun x => if String.eqb (u_id x) (u_id u)
                          then set_lastLoginAt (Some now) x else x)
         (unlock_accounts em (users w))
  /\ ledger (snd r)
     = (ledger w ++ [attempt_row em ip ua true (Some (u_id u)) now])%list
  /\ loginAttempts (snd r) = delete (ip_key ip) (loginAttempts w)
  /\ challenges (snd r) = challenges w
  /\ trace (snd r) = (trace w ++ [EvBcryptCompare password (u_passwordHash u);
                                  EvJwtSign (u_id u)])%list.
Proof.
  intros Hu Hc Ht r. subst r.
  unfold credential_validation, bind, get, ret.
  rewrite Hu. unfold bcrypt_compare_call, bind, emit, modify, ret; cbn.
  rewrite Hc. cbn. rewrite Ht. rewrite recordLoginAttempt_success. cbn.
  rewrite <- app_assoc. tauto.
Qed.

(** C4, as the code has it.  For an account with TOTP enabled and a stored
    secret, no login sets the session cookie, whatever the password and the
    state of the guards.  A login that passes the guards with the correct
    password creates a challenge, created at [now] and expiring 120 s after
    its creation, and answers with the challenge's id and expiry and
    without a token: the cookie is not set and no token is signed.  A login
    that a guard turns away creates no challenge, whatever the password. *)
Theorem totp_login_yields_challenge (req : Request) (now : Z) (w : World)
    (email password : string) (u : User) :
  LoginSchema_parse req = Some (email, password) ->
  let ip := getClientIp req in
  let em := trim (toLowerCase email) in
  user_by_email em (users w) = Some u ->
  u_totpEnabled u = true ->
  truthy_opt (u_totpSecret u) = true ->
  let r := login req now w in
  session_of (fst r) = None
  /\ (guards_verdict ip em now w = Passed ->
      bcrypt_compare password (u_passwordHash u) = true ->
      exists c : LoginChallenge,
        c_userId c = u_id u /\ c_usedAt c = None
        /\ c_createdAt c = now
        /\ c_expiresAt c = c_createdAt c + 120 * 1000
        /\ challenges (snd r)
           = (List.filter (fun c => negb (stale_for (u_id u) now c)) (challenges w)
              ++ [c])%list
        /\ fst r = Sent {| status := 200;
                           body := ChallengeBody (c_id c) (c_expiresAt c) (public_of u);
                           set_cookie := None |}
        /\ trace (snd r)
           = (trace w ++ [EvCheckIpRateLimit ip; EvCheckAccountLockout em;
                          EvCheckEmailRateLimit em;
                          EvBcryptCompare password (u_passwordHash u)])%list)
  /\ (guards_verdict ip em now w <> Passed ->
      challenges (snd r) = challenges w /\ drawn (snd r) = drawn w).
Proof.
  intros Hp ip em Hu He Hs r. subst r.
  rewrite (login_eq _ _ _ _ _ Hp). cbn zeta. fold ip em.
  destruct (rate_limit_checks ip em now w) as [[early|] w1] eqn:Hg.
  - split; [|split].
    + now apply early_response_not_failed in Hg.
    + intros Hv. rewrite rate_limit_checks_eq, Hv in Hg. discriminate.
    + intros _. rewrite rate_limit_checks_eq in Hg.
      destruct (guards_verdict ip em now w); cbn zeta in Hg;
        injection Hg as _ <-; split; reflexivity.
  - pose proof Hg as Hg'. rewrite rate_limit_checks_eq in Hg'.
    apply guards_passed_frame in Hg as (Hl & Husers & Hledger & Hch & Hv).
    rewrite Hv in Hg'. injection Hg' as <-.
    destruct (bcrypt_compare password (u_passwordHash u)) eqn:Hc.
    + edestruct (credential_validation_second_factor ip em password
                   (h_user_agent req) now
                   (add_event (EvCheckEmailRateLimit em)
                      (add_event (EvCheckAccountLockout em)
                         (add_event (EvCheckIpRateLimit ip) w))) u)
        as (Hf & Hcs & Htr & _); eauto.
      split; [|split]; [| |intros Hn; contradiction].
      * rewrite Hf. reflexivity.
      * intros _ _.
        exists {| c_id := uuid (drawn w); c_userId := u_id u; c_createdAt := now;
                  c_expiresAt := now + CHALLENGE_WINDOW_MS; c_usedAt := None |}.
        split; [reflexivity|]. split; [reflexivity|]. split; [reflexivity|].
        split; [reflexivity|]. split; [exact Hcs|]. split; [exact Hf|].
        rewrite Htr. cbn. now rewrite <- !app_assoc.
    + split; [|split; [discriminate|intros Hn; contradiction]].
      rewrite (credential_validation_wrong_password _ _ _ _ _ _ u); auto.
      cbn zeta. destruct (_ <=? _); reflexivity.
Qed.

End FirstFactor.

(** Bob, who has TOTP enabled, logs in with his password: a challenge that
    expires two minutes later, and no cookie. *)
Lemma totp_login_yields_challenge_witness :
  session_of (fst (login (lib := toy) (login_req "5.5.5.5" "b@x.com" "hunter22") 0 world0))
  = None
  /\ exists c : LoginChallenge,
       c_expiresAt c = c_createdAt c + 120 * 1000
       /\ fst (login (lib := toy) (login_req "5.5.5.5" "b@x.com" "hunter22") 0 world0)
          = Sent {| status := 200;
                    body := ChallengeBody (c_id c) (c_expiresAt c) (public_of bob);
                    set_cookie := None |}.
Proof.
  destruct (totp_login_yields_challenge (lib := toy)
              (login_req "5.5.5.5" "b@x.com" "hunter22") 0 world0
              "b@x.com" "hunter22" bob eq_refl eq_refl eq_refl eq_refl)
    as (Hs & Hc & _).
  split; [exact Hs|].
  destruct (Hc eq_refl eq_refl) as (c & _ & _ & _ & He & _ & Hf & _).
  exists c. split; [exact He|exact Hf].
Defined.

(** C4 as stated fails: a login with the correct password for an account
    with TOTP enabled does not always create a challenge.  In [bob_locked]
    Bob's account, with its second factor and its secret, is locked until
    910 000 ms; at 20 000 ms a login with his password from an address
    that never failed is turned away by the lockout guard with 423
    ACCOUNT_LOCKED: the response carries no challenge and the table of
    challenges is as it was. *)
Lemma correct_password_without_challenge :
  option_map (fun u => (u_totpEnabled u, u_totpSecret u, u_lockedUntil u,
                        bcrypt_compare (Libraries := toy) "hunter22"
                          (u_passwordHash u)))
    (user_by_email "b@x.com" (users bob_locked))
  = Some (true, Some "123456", Some 910000, true)
  /\ fst (login (lib := toy) (login_req "9.9.9.9" "b@x.com" "hunter22") 20000
            bob_locked)
     = reject 423 (Some (MsgAccountTempLocked 15)) (Some "ACCOUNT_LOCKED") (Some 900)
  /\ challenges (snd (login (lib := toy) (login_req "9.9.9.9" "b@x.com" "hunter22")
                        20000 bob_locked))
     = challenges bob_locked.
Proof. repeat split; vm_compute; reflexivity. Qed.

(** ** The second factor *)

Section SecondFactor.

Context {lib : Libraries}.

#[local] Arguments recordLoginAttempt : simpl never.

Lemma challenge_by_id_sound id cs c :
  challenge_by_id id cs = Some c -> c_id c = id /\ In c cs.
Proof.
  unfold challenge_by_id. intros H.
  apply List.find_some in H as [Hin He]. apply String.eqb_eq in He. auto.
Qed.

(** Marking a challenge used changes the row found under its id, and no
    row found under another id. *)
Lemma challenge_by_id_mark id id' now cs :
  challenge_by_id id'
    (List.map (fun c => if String.eqb (c_id c) id
                        then set_usedAt (Some now) c else c) cs)
  = if String.eqb id' id
    then option_map (set_usedAt (Some now)) (challenge_by_id id' cs)
    else challenge_by_id id' cs.
Proof.
  unfold challenge_by_id.
  induction cs as [|c cs IH]; cbn.
  - destruct (String.eqb id' id); reflexivity.
  - destruct (String.eqb (c_id c) id) eqn:E1; cbn.
    + apply String.eqb_eq in E1. rewrite E1.
      destruct (String.eqb id id') eqn:E2.
      * apply String.eqb_eq in E2. subst id'. rewrite String.eqb_refl. reflexivity.
      * rewrite IH. reflexivity.
    + destruct (String.eqb (c_id c) id') eqn:E2; [|exact IH].
      apply String.eqb_eq in E2. subst id'. rewrite E1. reflexivity.
Qed.

(** The three ways the handler ends before looking at the code. *)
Lemma verify_found_consumed req code now w c owner t :
  c_usedAt c = Some t ->
  verify_found req code now (Some (c, owner)) w
  = (reject 410 (Some MsgChallengeUsed) None None, w).
Proof. intros H. unfold verify_found. rewrite H. reflexivity. Qed.

Lemma verify_found_expired req code now w c owner :
  c_usedAt c = None -> c_expiresAt c <= now ->
  verify_found req code now (Some (c, owner)) w
  = (reject 410 (Some MsgChallengeExpired) None None, w).
Proof.
  intros H He. unfold verify_found. rewrite H.
  apply Z.leb_le in He. rewrite He. reflexivity.
Qed.

(** The path of a correct code. *)
Lemma verify_found_verified req code now w c u secret :
  c_usedAt c = None -> now < c_expiresAt c ->
  u_totpEnabled u = true -> u_totpSecret u = Some secret -> truthy secret = true ->
  authenticator_verify code secret now = true ->
  let r := verify_found req code now (Some (c, Some u)) w in
  fst r = Sent {| status := 200; body := UserBody (public_of u);
                  set_cookie := Some (jwt_sign (u_id u) now) |}
  /\ challenges (snd r)
     = List.map (fun x => if String.eqb (c_id x) (c_id c)
                          then set_usedAt (Some now) x else x) (challenges w)
  /\ users (snd r)
     = List.map (fun x => if String.eqb (u_id x) (u_id u)
                          then set_lastLoginAt (Some now) x else x)
         (unlock_accounts (u_email u) (users w))
  /\ ledger (snd r)
     = (ledger w ++ [attempt_row (u_email u) (getClientIp req) (h_user_agent req)
                       true (Some (u_id u)) now])%list
  /\ loginAttempts (snd r) = delete (ip_key (getClientIp req)) (loginAttempts w)
  /\ drawn (snd r) = drawn w
  /\ trace (snd r) = (trace w ++ [EvTotpVerify code secret; EvJwtSign (u_id u)])%list.
Proof.
  intros Hu He Hen Hs Ht Hv r. subst r.
  unfold verify_found. rewrite Hu.
  apply Z.leb_gt in He. rewrite He, Hen, Hs. cbn [truthy_opt negb orb or_else].
  rewrite Ht. cbn [negb orb].
  unfold authenticator_verify_call, jwt_sign_call, bind, emit, modify, ret,
    mark_used, touch_lastLogin, clearIpAttempts; cbn.
  rewrite Hv. cbn. rewrite recordLoginAttempt_success. cbn.
  rewrite <- app_assoc. tauto.
Qed.

(** A session comes out of the handler on that path only. *)
Lemma verify_found_session_inv req code now found w :
  session_of (fst (verify_found req code now found w)) <> None ->
  exists c u secret,
    found = Some (c, Some u)
    /\ c_usedAt c = None /\ now < c_expiresAt c
    /\ u_totpEnabled u = true /\ u_totpSecret u = Some secret
    /\ truthy secret = true /\ authenticator_verify code secret now = true.
Proof.
  unfold verify_found, bind, ret.
  destruct found as [[c owner]|]; [|now cbn].
  destruct (c_usedAt c) eqn:Hu; [now cbn|].
  destruct (c_expiresAt c <=? now) eqn:He; [now cbn|].
  destruct owner as [u|]; [|now cbn].
  destruct (u_totpEnabled u) eqn:Hen; [|now cbn].
  destruct (u_totpSecret u) as [secret|] eqn:Hs; [|now cbn].
  cbn [truthy_opt negb orb or_else].
  destruct (truthy secret) eqn:Ht; [|now cbn].
  cbn [negb].
  unfold authenticator_verify_call, bind, emit, modify, ret; cbn.
  destruct (authenticator_verify code secret now) eqn:Hv.
  - intros _. exists c, u, secret. apply Z.leb_gt in He. tauto.
  - cbn. rewrite recordLoginAttempt_failure. cbn zeta.
    destruct (RATE_LIMIT.LOCKOUT_THRESHOLD <=? _); cbn; congruence.
Qed.



End SecondFactor.

(** ** A challenge is used once *)

Section SingleUse.

Context {lib : Libraries}.

#[local] Arguments recordLoginAttempt : simpl never.

Lemma credential_validation_table ip em password ua now w :
  let w' := snd (credential_validation ip em password ua now w) in
  (challenges w' = challenges w /\ drawn w' = drawn w)
  \/ exists uid,
       challenges w'
       = (List.filter (fun c => negb (stale_for uid now c)) (challenges w)
          ++ [issued uid now w])%list
       /\ drawn w' = S (drawn w).
Proof.
  unfold credential_validation, bind, get, ret.
  destruct (user_by_email em (users w)) as [user|].
  - unfold bcrypt_compare_call, bind, emit, modify, ret; cbn.
    destruct (bcrypt_compare password (u_passwordHash user)); cbn.
    + destruct (negb (u_totpEnabled user) || negb (truthy_opt (u_totpSecret user)));
        cbn.
      * rewrite recordLoginAttempt_success. cbn. now left.
      * right. exists (u_id user). now split.
    + rewrite recordLoginAttempt_failure. cbn.
      destruct (RATE_LIMIT.LOCKOUT_THRESHOLD <=? _); cbn; now left.
  - cbn. rewrite recordLoginAttempt_failure. cbn.
    destruct (RATE_LIMIT.LOCKOUT_THRESHOLD <=? _); cbn; now left.
Qed.

Lemma verify_found_no_session req code now found w :
  session_of (fst (verify_found req code now found w)) = None ->
  challenges (snd (verify_found req code now found w)) = challenges w
  /\ drawn (snd (verify_found req code now found w)) = drawn w.
Proof.
  unfold verify_found, bind, ret.
  destruct found as [[c owner]|]; [|now cbn].
  destruct (c_usedAt c); [now cbn|].
  destruct (c_expiresAt c <=? now); [now cbn|].
  destruct owner as [u|]; [|now cbn].
  destruct (negb (u_totpEnabled u) || negb (truthy_opt (u_totpSecret u)));
    [now cbn|].
  unfold authenticator_verify_call, bind, emit, modify, ret; cbn.
  destruct (authenticator_verify _ _ _); cbn.
  - rewrite recordLoginAttempt_success. cbn. discriminate.
  - rewrite recordLoginAttempt_failure. cbn zeta.
    destruct (RATE_LIMIT.LOCKOUT_THRESHOLD <=? _); now cbn.
Qed.

Lemma serve_table_step call now w :
  table_step now call (fst (serve call now w)) w (snd (serve call now w)).
Proof.
  destruct call as [req|req|]; cbn [serve]; unfold bind, ret.
  - (* POST /login *)
    right. split.
    { intros id. destruct (login req now w). reflexivity. }
    destruct (LoginSchema_parse req) as [[email password]|] eqn:Hp.
    2:{ rewrite (login_unparsed _ _ _ Hp). cbn. now left. }
    rewrite (login_eq _ _ _ _ _ Hp). cbn zeta.
    rewrite rate_limit_checks_eq.
    destruct (guards_verdict _ _ _ _); cbn zeta; try (cbn; now left).
    match goal with
    | |- context [credential_validation ?a ?b ?c ?d ?e ?f] =>
        pose proof (credential_validation_table a b c d e f) as Ht;
        destruct (credential_validation a b c d e f) as [o w2]
    end.
    cbn in *. exact Ht.
  - (* POST /login/totp *)
    destruct (VerifyTotpSchema_parse req) as [[id code]|] eqn:Hp.
    2:{ right. unfold login_totp. rewrite Hp. cbn. rewrite Hp. split; [auto|now left]. }
    rewrite (login_totp_eq _ _ _ _ _ Hp).
    match goal with
    | |- context [verify_found ?a ?b ?c ?d ?e] =>
        pose proof (verify_found_session_inv a b c d e) as Hinv;
        pose proof (verify_found_no_session a b c d e) as Hno;
        destruct (session_of (fst (verify_found a b c d e))) as [tok|] eqn:Hs
    end.
    + destruct Hinv as (c & u & secret & Hf & Hu & He & Hen & Hsec & Ht & Hv);
        [discriminate|].
      destruct (challenge_by_id id (challenges w)) as [c'|] eqn:Hc; [|discriminate].
      injection Hf as -> Ho.
      left. exists req, id, code, c.
      rewrite Ho in *.
      destruct (verify_found_verified req code now w c u secret Hu He Hen Hsec Ht Hv)
        as (Hfst & Hcs & _ & _ & _ & Hd & _).
      destruct (challenge_by_id_sound _ _ _ Hc) as [Hid _].
      destruct (verify_found _ _ _ _ _) as [o w2]. cbn [fst snd] in *.
      repeat split; auto.
      * cbn. rewrite Hp, Hs. apply String.eqb_refl.
      * now rewrite Hcs, Hid.
    + right. destruct (verify_found _ _ _ _ _) as [o w2]. cbn [fst snd] in *.
      split; [|left; now apply Hno].
      intros id'. cbn. rewrite Hp, Hs. reflexivity.
  - (* the sweep *)
    right. cbn. split; [auto|now left].
Qed.

Lemma challenge_by_id_unique l c :
  NoDup (List.map c_id l) -> In c l -> challenge_by_id (c_id c) l = Some c.
Proof.
  unfold challenge_by_id.
  induction l as [|x l IH]; cbn; [tauto|].
  intros Hnd [->|Hin].
  - now rewrite String.eqb_refl.
  - apply NoDup_cons in Hnd as [Hnot Hnd'].
    destruct (String.eqb (c_id x) (c_id c)) eqn:E; [|auto].
    apply String.eqb_eq in E. exfalso. apply Hnot. rewrite E.
    apply list_elem_of_In. apply List.in_map. exact Hin.
Qed.

Lemma challenge_by_id_filter p id l c :
  NoDup (List.map c_id l) ->
  challenge_by_id id (List.filter p l) = Some c ->
  challenge_by_id id l = Some c.
Proof.
  intros Hnd H. apply challenge_by_id_sound in H as [<- Hin].
  apply List.filter_In in Hin as [Hin _]. now apply challenge_by_id_unique.
Qed.

Lemma challenge_by_id_snoc id l x :
  c_id x <> id -> challenge_by_id id (l ++ [x]) = challenge_by_id id l.
Proof.
  intros Hne. unfold challenge_by_id.
  induction l as [|y l IH]; cbn.
  - destruct (String.eqb (c_id x) id) eqn:E; [|reflexivity].
    apply String.eqb_eq in E. contradiction.
  - destruct (String.eqb (c_id y) id); [reflexivity|exact IH].
Qed.

Lemma NoDup_filter_ids p (l : list LoginChallenge) :
  NoDup (List.map c_id l) -> NoDup (List.map c_id (List.filter p l)).
Proof.
  induction l as [|x l IH]; cbn; [auto|].
  intros Hnd. apply NoDup_cons in Hnd as [Hnot Hnd'].
  destruct (p x); cbn; [|auto].
  apply NoDup_cons. split; [|auto].
  intros Hin. apply Hnot.
  apply list_elem_of_In in Hin. apply List.in_map_iff in Hin as (y & Hy & Hin).
  apply List.filter_In in Hin as [Hin _].
  apply list_elem_of_In. rewrite <- Hy. now apply List.in_map.
Qed.

Lemma map_id_mark id now (l : list LoginChallenge) :
  List.map c_id (List.map (fun x => if String.eqb (c_id x) id
                                    then set_usedAt (Some now) x else x) l)
  = List.map c_id l.
Proof.
  rewrite List.map_map. apply List.map_ext.
  intros x. destruct (String.eqb (c_id x) id); reflexivity.
Qed.

(** From here on the database never draws the same uuid twice. *)
Hypothesis uuid_inj : forall a b : nat, uuid a = uuid b -> a = b.

Lemma well_keyed_step now call o w w' :
  well_keyed w -> table_step now call o w w' -> well_keyed w'.
Proof.
  intros [Hnd Hall] [(req & id & code & c & _ & _ & _ & _ & _ & Hcs & Hd)
                    | (_ & [[Hcs Hd] | (uid & Hcs & Hd)])];
    unfold well_keyed; rewrite Hcs, Hd.
  - rewrite map_id_mark. split; [exact Hnd|].
    apply List.Forall_map. eapply List.Forall_impl; [|exact Hall].
    intros x Hx. destruct (String.eqb (c_id x) id); exact Hx.
  - now split.
  - split.
    + rewrite List.map_app. cbn. apply NoDup_app. split; [|split].
      * now apply NoDup_filter_ids.
      * intros x Hx Hx'. apply list_elem_of_In in Hx.
        apply List.in_map_iff in Hx as (y & Hy & Hin).
        apply List.filter_In in Hin as [Hin _].
        rewrite List.Forall_forall in Hall. destruct (Hall y Hin) as (k & Hk & Hyk).
        apply list_elem_of_singleton in Hx'.
        rewrite <- Hy, Hyk in Hx'. apply uuid_inj in Hx'. lia.
      * apply NoDup_singleton.
    + apply List.Forall_app. split.
      * rewrite List.Forall_forall in *. intros x Hx.
        apply List.filter_In in Hx as [Hx _].
        destruct (Hall x Hx) as (k & Hk & Hxk). exists k. split; [lia|exact Hxk].
      * constructor; [|constructor]. exists (drawn w). split; [lia|reflexivity].
Qed.

Lemma retired_step id now call o w w' :
  well_keyed w -> retired id w -> table_step now call o w w' -> retired id w'.
Proof.
  intros [Hnd Hall] [(k & Hk & Hid) Hused]
         [(req & id0 & code & c & _ & _ & _ & _ & _ & Hcs & Hd)
         | (_ & [[Hcs Hd] | (uid & Hcs & Hd)])];
    unfold retired; rewrite Hcs, Hd.
  - split; [now exists k|].
    intros x. rewrite challenge_by_id_mark.
    destruct (String.eqb id id0).
    + destruct (challenge_by_id id (challenges w)); cbn; [|discriminate].
      intros [= <-]. cbn. discriminate.
    + apply Hused.
  - split; [now exists k|exact Hused].
  - split; [exists k; split; [lia|exact Hid]|].
    intros x. rewrite challenge_by_id_snoc.
    + intros Hx. apply challenge_by_id_filter in Hx; [|exact Hnd]. now apply Hused.
    + cbn. rewrite <- Hid. intros E. apply uuid_inj in E. lia.
Qed.

Lemma retired_blocks id now call o w w' :
  retired id w -> table_step now call o w w' -> verified_with id (call, o) = false.
Proof.
  intros [_ Hused] [(req & id0 & code & c & -> & Hp & Hc & Hu & Hv & _) | (Hno & _)];
    [|apply Hno].
  destruct (String.eqb id0 id) eqn:E.
  - apply String.eqb_eq in E. subst id0. now apply Hused in Hc.
  - cbn. destruct o as [o|]; [|reflexivity]. rewrite Hp.
    destruct (session_of o); [exact E|reflexivity].
Qed.

Lemma consumption_retires id now call o w w' :
  well_keyed w -> table_step now call o w w' ->
  verified_with id (call, o) = true -> retired id w'.
Proof.
  intros [Hnd Hall] [(req & id0 & code & c & -> & Hp & Hc & Hu & _ & Hcs & Hd)
                    | (Hno & _)] Hv;
    [|rewrite Hno in Hv; discriminate].
  assert (id0 = id) as ->.
  { cbn in Hv. destruct o as [o|]; [|discriminate]. rewrite Hp in Hv.
    destruct (session_of o); [|discriminate]. now apply String.eqb_eq. }
  destruct (challenge_by_id_sound _ _ _ Hc) as [Hid Hin].
  rewrite List.Forall_forall in Hall. destruct (Hall c Hin) as (k & Hk & Hck).
  unfold retired. rewrite Hcs, Hd. split.
  - exists k. split; [exact Hk|congruence].
  - intros x. rewrite challenge_by_id_mark, String.eqb_refl, Hc. cbn.
    intros [= <-]. cbn. discriminate.
Qed.

(** In a run of calls no challenge is consumed twice. *)
Lemma run_consumes_once id calls :
  forall w, well_keyed w ->
    (retired id w -> consumptions id calls (fst (serve_all calls w)) = O)
    /\ (consumptions id calls (fst (serve_all calls w)) <= 1)%nat.
Proof.
  induction calls as [|[now call] calls IH]; intros w Hw.
  - cbn. split; [reflexivity|lia].
  - cbn [serve_all]. unfold bind.
    pose proof (serve_table_step call now w) as Hstep.
    destruct (serve call now w) as [o w1]. cbn [fst snd] in Hstep.
    pose proof (well_keyed_step _ _ _ _ _ Hw Hstep) as Hw1.
    destruct (IH w1 Hw1) as [IH0 IH1].
    destruct (serve_all calls w1) as [os w2]. cbn [fst snd ret] in *.
    unfold consumptions in *. cbn [List.map snd List.combine List.filter].
    split.
    + intros Hr. rewrite (retired_blocks _ _ _ _ _ _ Hr Hstep).
      apply IH0. exact (retired_step id now call o w w1 Hw Hr Hstep).
    + destruct (verified_with id (call, o)) eqn:Hv; [|exact IH1].
      cbn [List.length]. rewrite IH0; [lia|].
      exact (consumption_retires id now call o w w1 Hw Hstep Hv).
Qed.

(** A retired id stays retired through any run of calls. *)
Lemma retired_run id calls :
  forall w, well_keyed w -> retired id w ->
    well_keyed (snd (serve_all calls w)) /\ retired id (snd (serve_all calls w)).
Proof.
  induction calls as [|[now call] calls IH]; intros w Hw Hr; [now split|].
  cbn [serve_all]. unfold bind.
  pose proof (serve_table_step call now w) as Hstep.
  destruct (serve call now w) as [o w1]. cbn [fst snd] in Hstep.
  pose proof (well_keyed_step _ _ _ _ _ Hw Hstep) as Hw1.
  pose proof (retired_step id now call o w w1 Hw Hr Hstep) as Hr1.
  destruct (IH w1 Hw1 Hr1) as [H1 H2].
  destruct (serve_all calls w1) as [os w2]. cbn [fst snd ret] in *. now split.
Qed.

(** A verification under a retired id is refused and changes nothing. *)
Lemma retired_refused id req now code w :
  VerifyTotpSchema_parse req = Some (id, code) -> retired id w ->
  login_totp req now w = (reject 410 (Some MsgChallengeUsed) None None, w)
  \/ login_totp req now w = (reject 404 (Some MsgChallengeNotFound) None None, w).
Proof.
  intros Hp [_ Hused]. rewrite (login_totp_eq _ _ _ _ _ Hp).
  destruct (challenge_by_id id (challenges w)) as [c|] eqn:Hc.
  - left. destruct (c_usedAt c) as [t|] eqn:Hu; [|now destruct (Hused c eq_refl)].
    now apply (verify_found_consumed _ _ _ _ _ _ t).
  - right. reflexivity.
Qed.

End SingleUse.

Section Consumption.

Context {lib : Libraries}.

(** C5, as the code has it, for requests served one after the other.  A
    verification against a consumed or expired challenge answers 410 and
    changes nothing, before the code is looked at: "already used" when the
    challenge is consumed, "expired" otherwise.  Right after a verification
    that issued a session, every verification with the same challenge id,
    at any instant and with any code, answers "already used" and issues no
    session.  When the database never draws the same uuid twice and the
    table has a primary key, no run of calls consumes the same challenge
    more than once; and after a verification that issued a session and any
    run of calls, a verification with the same challenge id is refused and
    changes nothing, with 410 "already used" while the row is there and
    with 404 "not found" once a later login of the owner has deleted it. *)
Theorem challenge_is_single_use :
  (forall (req : Request) (now : Z) (w : World) (id code : string)
          (c : LoginChallenge),
     VerifyTotpSchema_parse req = Some (id, code) ->
     challenge_by_id id (challenges w) = Some c ->
     c_usedAt c <> None \/ c_expiresAt c <= now ->
     login_totp req now w
     = (reject 410
          (Some (match c_usedAt c with
                 | Some _ => MsgChallengeUsed
                 | None => MsgChallengeExpired
                 end)) None None, w))
  /\ (forall (req req' : Request) (now now' : Z) (w : World)
             (id code code' : string),
        VerifyTotpSchema_parse req = Some (id, code) ->
        VerifyTotpSchema_parse req' = Some (id, code') ->
        session_of (fst (login_totp req now w)) <> None ->
        login_totp req' now' (snd (login_totp req now w))
        = (reject 410 (Some MsgChallengeUsed) None None,
           snd (login_totp req now w)))
  /\ ((forall a b : nat, uuid a = uuid b -> a = b) ->
      forall (w : World) (calls : list (Z * Call)) (id : string),
        well_keyed w ->
        (consumptions id calls (fst (serve_all calls w)) <= 1)%nat)
  /\ ((forall a b : nat, uuid a = uuid b -> a = b) ->
      forall (req req' : Request) (now now' : Z) (w : World)
             (id code code' : string) (calls : list (Z * Call)),
        well_keyed w ->
        VerifyTotpSchema_parse req = Some (id, code) ->
        VerifyTotpSchema_parse req' = Some (id, code') ->
        session_of (fst (login_totp req now w)) <> None ->
        let w' := snd (serve_all calls (snd (login_totp req now w))) in
        login_totp req' now' w'
        = (reject 410 (Some MsgChallengeUsed) None None, w')
        \/ login_totp req' now' w'
           = (reject 404 (Some MsgChallengeNotFound) None None, w')).
Proof.
  split; [|split; [|split]].
  - intros req now w id code c Hp Hc Hor.
    rewrite (login_totp_eq _ _ _ _ _ Hp), Hc.
    destruct (c_usedAt c) as [t|] eqn:Hu.
    + now apply (verify_found_consumed _ _ _ _ _ _ t).
    + destruct Hor as [Hor|Hor]; [congruence|].
      now apply verify_found_expired.
  - intros req req' now now' w id code code' Hp Hp' Hs.
    rewrite (login_totp_eq _ _ _ _ _ Hp) in *.
    apply verify_found_session_inv in Hs
      as (c & u & secret & Hf & Hu & He & Hen & Hsec & Ht & Hv).
    destruct (challenge_by_id id (challenges w)) as [c'|] eqn:Hc; [|discriminate].
    injection Hf as -> Ho. rewrite Ho.
    destruct (verify_found_verified req code now w c u secret Hu He Hen Hsec Ht Hv)
      as (_ & Hcs & _).
    rewrite (login_totp_eq _ _ _ _ _ Hp'), Hcs, challenge_by_id_mark.
    destruct (challenge_by_id_sound _ _ _ Hc) as [Hid _].
    rewrite Hid, String.eqb_refl, Hc. cbn [option_map].
    now apply (verify_found_consumed _ _ _ _ _ _ now).
  - intros Hinj w calls id Hw.
    now apply (run_consumes_once Hinj).
  - intros Hinj req req' now now' w id code code' calls Hw Hp Hp' Hs w'.
    pose proof (serve_table_step (PostLoginTotp req) now w) as Hstep.
    cbn [serve] in Hstep. unfold bind, ret in Hstep.
    assert (Hv : verified_with id (PostLoginTotp req, Some (fst (login_totp req now w)))
                 = true).
    { cbn. rewrite Hp. destruct (session_of _); [apply String.eqb_refl|congruence]. }
    subst w'. destruct (login_totp req now w) as [o w1]. cbn [fst snd] in *.
    pose proof (well_keyed_step Hinj _ _ _ _ _ Hw Hstep) as Hw1.
    pose proof (consumption_retires id _ _ _ _ _ Hw Hstep Hv) as Hr1.
    destruct (retired_run Hinj id calls w1 Hw1 Hr1) as [_ Hr].
    exact (retired_refused id req' now' code' _ Hp' Hr).
Qed.

(** C6, on the code.  The handler reads the challenge and later writes
    [usedAt] under the id alone.  When two verifications of one unconsumed,
    unexpired challenge have both read it before either goes on, both find
    it unconsumed, and with correct codes both set the session cookie: the
    challenge is consumed twice. *)
Theorem concurrent_verifications_both_succeed (reqA reqB : Request) (now : Z)
    (w : World) (id codeA codeB secret : string) (c : LoginChallenge) (u : User) :
  VerifyTotpSchema_parse reqA = Some (id, codeA) ->
  VerifyTotpSchema_parse reqB = Some (id, codeB) ->
  challenge_by_id id (challenges w) = Some c ->
  c_usedAt c = None -> now < c_expiresAt c ->
  user_by_id (c_userId c) (users w) = Some u ->
  u_totpEnabled u = true ->
  u_totpSecret u = Some secret -> truthy secret = true ->
  authenticator_verify codeA secret now = true ->
  authenticator_verify codeB secret now = true ->
  fst (login_totp_interleaved reqA reqB now w)
  = (Sent {| status := 200; body := UserBody (public_of u);
             set_cookie := Some (jwt_sign (u_id u) now) |},
     Sent {| status := 200; body := UserBody (public_of u);
             set_cookie := Some (jwt_sign (u_id u) now) |}).
Proof.
  intros HpA HpB Hc Hu He Ho Hen Hs Ht HvA HvB.
  unfold login_totp_interleaved. rewrite HpA, HpB.
  unfold find_challenge. unfold bind, get, ret. cbv beta iota zeta.
  rewrite Hc, Ho.
  destruct (verify_found_verified reqA codeA now w c u secret Hu He Hen Hs Ht HvA)
    as (HfA & _).
  destruct (verify_found reqA codeA now (Some (c, Some u)) w) as [oA wA].
  destruct (verify_found_verified reqB codeB now wA c u secret Hu He Hen Hs Ht HvB)
    as (HfB & _).
  destruct (verify_found reqB codeB now (Some (c, Some u)) wA) as [oB wB].
  cbn in *. congruence.
Qed.

End Consumption.

Lemma toy_uuid_inj (a b : nat) : uuid (Libraries := toy) a = uuid (Libraries := toy) b -> a = b.
Proof.
  cbn. intros H. apply (String.app_inj _) in H.
  revert b H. induction a as [|a IH]; intros [|b] H; try discriminate; [reflexivity|].
  cbn in H. injection H as H. f_equal. now apply IH.
Qed.

Lemma world0_well_keyed : well_keyed (lib := toy) world0.
Proof. split; cbn; constructor. Qed.

(** Bob's challenge: verified once at 10 s, refused at 20 s with the same
    correct code; refused at its expiry when it was never verified;
    consumed once in the run of the three calls; and refused at 30 s, after
    his verification at 10 s and a new first factor at 20 s. *)
Lemma challenge_is_single_use_witness :
  login_totp (lib := toy) (totp_req "5.5.5.5" uuid0 "123456") 120000 bob_pending
  = (reject 410 (Some MsgChallengeExpired) None None, bob_pending)
  /\ login_totp (lib := toy) (totp_req "5.5.5.5" uuid0 "123456") 20000
       (snd (login_totp (lib := toy) (totp_req "5.5.5.5" uuid0 "123456") 10000 bob_pending))
     = (reject 410 (Some MsgChallengeUsed) None None,
        snd (login_totp (lib := toy) (totp_req "5.5.5.5" uuid0 "123456") 10000 bob_pending))
  /\ (consumptions (lib := toy) uuid0 bob_run
        (fst (serve_all (lib := toy) bob_run world0)) <= 1)%nat
  /\ (let w' := snd (serve_all (lib := toy) [(20000, bob_login "5.5.5.5")]
                     (snd (login_totp (lib := toy)
                             (totp_req "5.5.5.5" uuid0 "123456") 10000 bob_pending))) in
      login_totp (lib := toy) (totp_req "5.5.5.5" uuid0 "123456") 30000 w'
      = (reject 410 (Some MsgChallengeUsed) None None, w')
      \/ login_totp (lib := toy) (totp_req "5.5.5.5" uuid0 "123456") 30000 w'
         = (reject 404 (Some MsgChallengeNotFound) None None, w')).
Proof.
  destruct (challenge_is_single_use (lib := toy)) as (Ha & Hb & Hc & Hd).
  split; [|split; [|split]].
  - apply (Ha (totp_req "5.5.5.5" uuid0 "123456") 120000 bob_pending uuid0 "123456"
              {| c_id := uuid0; c_userId := "u2"; c_createdAt := 0;
                 c_expiresAt := 120000; c_usedAt := None |});
      [reflexivity|reflexivity|right; cbn; lia].
  - apply (Hb _ _ _ _ _ uuid0 "123456" "123456"); [reflexivity|reflexivity|].
    vm_compute. discriminate.
  - apply (Hc toy_uuid_inj). exact world0_well_keyed.
  - apply (Hd toy_uuid_inj (totp_req "5.5.5.5" uuid0 "123456")
             (totp_req "5.5.5.5" uuid0 "123456") 10000 30000 bob_pending
             uuid0 "123456" "123456" [(20000, bob_login "5.5.5.5")]);
      [|reflexivity|reflexivity|vm_compute; discriminate].
    split.
    + change (List.map c_id (challenges bob_pending)) with [uuid0].
      apply NoDup_singleton.
    + change (challenges bob_pending) with [bob_challenge].
      change (drawn bob_pending) with 1%nat.
      constructor; [|constructor]. exists 0%nat. split; [lia|reflexivity].
Defined.

(** C5 as stated fails: a second verification with the id of a consumed
    challenge is not always answered "already used".  Bob logs in, verifies
    his challenge at 10 s and gets the session, and logs in again at 20 s:
    that login deletes his consumed challenge and creates a new one.  The
    first challenge, verified again at 30 s with the correct code, is
    answered 404 "Challenge not found"; it issues no session. *)
Lemma replayed_challenge_is_not_found :
  fst (serve_all (lib := toy) bob_replay world0)
  = [ Some (Sent {| status := 200;
                    body := ChallengeBody uuid0 120000 (public_of bob);
                    set_cookie := None |});
      Some (Sent {| status := 200; body := UserBody (public_of bob);
                    set_cookie := Some "jwt.u2" |});
      Some (Sent {| status := 200;
                    body := ChallengeBody (uuid0 ++ "1") 140000 (public_of bob);
                    set_cookie := None |});
      Some (reject 404 (Some MsgChallengeNotFound) None None) ]
  /\ List.map c_id (challenges (snd (serve_all (lib := toy) bob_replay world0)))
     = [uuid0 ++ "1"].
Proof. split; vm_compute; reflexivity. Qed.

(** Two verifications of Bob's pending challenge in flight at 10 s, from two
    addresses: both are answered 200 with a session cookie. *)
Lemma concurrent_verifications_both_succeed_witness :
  fst (login_totp_interleaved (lib := toy)
         (totp_req "5.5.5.5" uuid0 "123456") (totp_req "6.6.6.6" uuid0 "123456")
         10000 bob_pending)
  = (Sent {| status := 200; body := UserBody (public_of bob);
             set_cookie := Some "jwt.u2" |},
     Sent {| status := 200; body := UserBody (public_of bob);
             set_cookie := Some "jwt.u2" |}).
Proof.
  apply (concurrent_verifications_both_succeed (lib := toy)
           (totp_req "5.5.5.5" uuid0 "123456") (totp_req "6.6.6.6" uuid0 "123456")
           10000 bob_pending uuid0 "123456" "123456" "123456"
           {| c_id := uuid0; c_userId := "u2"; c_createdAt := 0;
              c_expiresAt := 120000; c_usedAt := None |} bob);
    reflexivity.
Defined.


(** ** What a successful login clears *)

Section Success.

Context {lib : Libraries}.

#[local] Arguments recordLoginAttempt : simpl never.

Lemma user_by_email_sound em us u :
  user_by_email em us = Some u -> u_email u = em /\ In u us.
Proof.
  unfold user_by_email. intros H.
  apply List.find_some in H as [Hin He]. apply String.eqb_eq in He. auto.
Qed.

Lemma user_by_id_sound id us u :
  user_by_id id us = Some u -> u_id u = id /\ In u us.
Proof.
  unfold user_by_id. intros H.
  apply List.find_some in H as [Hin He]. apply String.eqb_eq in He. auto.
Qed.

(** After the two updates of a successful login no account with that
    e-mail is locked. *)
Lemma unlocked_after_success em id now us x :
  In x (List.map (fun y => if String.eqb (u_id y) id
                           then set_lastLoginAt (Some now) y else y)
          (unlock_accounts em us)) ->
  u_email x = em -> u_lockedUntil x = None.
Proof.
  intros Hin He.
  apply List.in_map_iff in Hin as (y & Hy & Hin).
  unfold unlock_accounts in Hin.
  apply List.in_map_iff in Hin as (z & Hz & _).
  assert (u_email y = em /\ u_lockedUntil x = u_lockedUntil y) as [Hey ->].
  { destruct (String.eqb (u_id y) id); subst x; cbn; auto. }
  destruct (String.eqb (u_email z) em) eqn:E.
  - destruct (u_lockedUntil z) eqn:El; subst y; cbn; auto.
  - subst y. apply String.eqb_neq in E. contradiction.
Qed.

(** A success row does not count as a failure. *)
Lemma failed_since_success e since l em ip ua uid now :
  failed_since e since (l ++ [attempt_row em ip ua true uid now])
  = failed_since e since l.
Proof.
  rewrite failed_since_app. unfold failed_since at 2. cbn.
  rewrite andb_false_r. cbn. lia.
Qed.

Lemma credential_validation_session_inv ip em password ua now w :
  session_of (fst (credential_validation ip em password ua now w)) <> None ->
  exists u,
    user_by_email em (users w) = Some u
    /\ bcrypt_compare password (u_passwordHash u) = true
    /\ negb (u_totpEnabled u) || negb (truthy_opt (u_totpSecret u)) = true.
Proof.
  unfold credential_validation, bind, get, ret.
  destruct (user_by_email em (users w)) as [u|].
  - unfold bcrypt_compare_call, bind, emit, modify, ret; cbn.
    destruct (bcrypt_compare password (u_passwordHash u)) eqn:Hc; cbn.
    + destruct (negb (u_totpEnabled u) || negb (truthy_opt (u_totpSecret u))) eqn:Ht;
        cbn; [|congruence].
      intros _. now exists u.
    + rewrite recordLoginAttempt_failure. cbn zeta.
      destruct (RATE_LIMIT.LOCKOUT_THRESHOLD <=? _); cbn; congruence.
  - cbn. rewrite recordLoginAttempt_failure. cbn zeta.
    destruct (RATE_LIMIT.LOCKOUT_THRESHOLD <=? _); cbn; congruence.
Qed.

(** C7, as the code has it.  A call that issues a session, at either
    handler, deletes the bucket of the caller's address and no other
    bucket, leaves no account with the user's e-mail locked, and appends
    one row, a success, to the ledger: the rows that were there are
    unchanged, and so is every count of failed attempts. *)
Theorem successful_login_clears (call : Call) (now : Z) (w : World) :
  let r := serve call now w in
  (exists o, fst r = Some o /\ session_of o <> None) ->
  exists (ip : string) (u : User) (ua : option string),
    call_ip call = Some ip
    /\ In u (users w)
    /\ (exists o, fst r = Some o /\ session_of o = Some (jwt_sign (u_id u) now))
    /\ loginAttempts (snd r) = delete (ip_key ip) (loginAttempts w)
    /\ loginAttempts (snd r) !! ip_key ip = None
    /\ (forall ip', ip' <> ip ->
          loginAttempts (snd r) !! ip_key ip' = loginAttempts w !! ip_key ip')
    /\ (forall x, In x (users (snd r)) -> u_email x = u_email u ->
          u_lockedUntil x = None)
    /\ ledger (snd r)
       = (ledger w ++ [attempt_row (u_email u) ip ua true (Some (u_id u)) now])%list
    /\ (forall e since,
          failed_since e since (ledger (snd r)) = failed_since e since (ledger w)).
Proof.
  intros r (o & Ho & Hs). subst r.
  destruct call as [req|req|]; cbn [serve] in *; unfold bind, ret in *;
    [| |discriminate].
  - (* POST /login *)
    destruct (LoginSchema_parse req) as [[email password]|] eqn:Hp.
    2:{ rewrite (login_unparsed _ _ _ Hp) in Ho. cbn in Ho.
        injection Ho as <-. now cbn in Hs. }
    rewrite (login_eq _ _ _ _ _ Hp) in *. cbn zeta in *.
    set (ip := getClientIp req) in *. set (em := trim (toLowerCase email)) in *.
    destruct (rate_limit_checks ip em now w) as [[early|] w1] eqn:Hg.
    { apply early_response_not_failed in Hg as (_ & _ & Hn).
      cbn in Ho. injection Ho as <-. congruence. }
    apply guards_passed_frame in Hg as (Hl & Hus & Hle & _).
    assert (Hs' : session_of
              (fst (credential_validation ip em password (h_user_agent req) now w1))
            <> None).
    { destruct (credential_validation _ _ _ _ _ _). cbn in *.
      injection Ho as <-. exact Hs. }
    apply credential_validation_session_inv in Hs' as (u & Hu & Hc & Ht).
    destruct (credential_validation_session ip em password (h_user_agent req)
                now w1 u Hu Hc Ht) as (Hf & Hus' & Hle' & Hl' & _).
    destruct (user_by_email_sound _ _ _ Hu) as [He Hin].
    destruct (credential_validation _ _ _ _ _ _) as [o' w2]. cbn [fst snd] in *.
    exists ip, u, (h_user_agent req).
    split; [reflexivity|]. split; [congruence|].
    split; [exists o'; split; [reflexivity|]; rewrite Hf; reflexivity|].
    split; [congruence|].
    split; [rewrite Hl', Hl; apply lookup_delete_eq|].
    split.
    { intros ip' Hne. rewrite Hl', Hl. apply lookup_delete_ne.
      intros E. apply ip_key_inj in E. congruence. }
    split.
    { intros x Hx Hex. rewrite Hus' in Hx.
      apply (unlocked_after_success em (u_id u) now (users w1) x Hx). congruence. }
    split; [rewrite Hle', Hle, He; reflexivity|].
    intros e since. rewrite Hle', Hle. apply failed_since_success.
  - (* POST /login/totp *)
    destruct (VerifyTotpSchema_parse req) as [[id code]|] eqn:Hp.
    2:{ unfold login_totp in Ho. rewrite Hp in Ho. cbn in Ho.
        injection Ho as <-. now cbn in Hs. }
    rewrite (login_totp_eq _ _ _ _ _ Hp) in *.
    assert (Hs' : session_of
              (fst (verify_found req code now
                      (match challenge_by_id id (challenges w) with
                       | Some c => Some (c, user_by_id (c_userId c) (users w))
                       | None => None
                       end) w)) <> None).
    { destruct (verify_found _ _ _ _ _). cbn in *. injection Ho as <-. exact Hs. }
    apply verify_found_session_inv in Hs'
      as (c & u & secret & Hf & Hu & He & Hen & Hsec & Ht & Hv).
    rewrite Hf in *.
    destruct (challenge_by_id id (challenges w)) as [c'|]; [|discriminate].
    injection Hf as -> Hown.
    destruct (user_by_id_sound _ _ _ Hown) as [_ Hin].
    destruct (verify_found_verified req code now w c u secret Hu He Hen Hsec Ht Hv)
      as (Hfst & _ & Hus' & Hle' & Hl' & _).
    destruct (verify_found _ _ _ _ _) as [o' w2]. cbn [fst snd] in *.
    exists (getClientIp req), u, (h_user_agent req).
    split; [reflexivity|]. split; [exact Hin|].
    split; [exists o'; split; [reflexivity|]; rewrite Hfst; reflexivity|].
    split; [exact Hl'|].
    split; [rewrite Hl'; apply lookup_delete_eq|].
    split.
    { intros ip' Hne. rewrite Hl'. apply lookup_delete_ne.
      intros E. apply ip_key_inj in E. congruence. }
    split.
    { intros x Hx Hex. rewrite Hus' in Hx.
      now apply (unlocked_after_success (u_email u) (u_id u) now (users w) x Hx). }
    split; [exact Hle'|].
    intros e since. rewrite Hle'. apply failed_since_success.
Qed.

End Success.

(** Alice logs in at 3 700 s from the address of her ten failures: its bucket
    goes, the bucket of the other address stays, her lockout expiry is
    emptied and the ledger grows by the success row. *)
Lemma successful_login_clears_witness :
  (option_map u_lockedUntil (user_by_email "a@x.com" (users alice_later))
   = Some (Some 965000)
   /\ option_map count (loginAttempts alice_later !! ip_key "1.2.3.4") = Some 5
   /\ option_map count (loginAttempts alice_later !! ip_key "9.9.9.9") = Some 1)
  /\ exists (ip : string) (u : User) (ua : option string),
       call_ip (good_login "1.2.3.4") = Some ip
       /\ In u (users alice_later)
       /\ (exists o,
             fst (serve (lib := toy) (good_login "1.2.3.4") 3700000 alice_later) = Some o
             /\ session_of o = Some (jwt_sign (Libraries := toy) (u_id u) 3700000))
       /\ loginAttempts (snd (serve (lib := toy) (good_login "1.2.3.4") 3700000 alice_later))
          = delete (ip_key ip) (loginAttempts alice_later)
       /\ loginAttempts (snd (serve (lib := toy) (good_login "1.2.3.4") 3700000 alice_later))
            !! ip_key ip = None
       /\ (forall ip', ip' <> ip ->
             loginAttempts (snd (serve (lib := toy) (good_login "1.2.3.4") 3700000 alice_later))
               !! ip_key ip'
             = loginAttempts alice_later !! ip_key ip')
       /\ (forall x,
             In x (users (snd (serve (lib := toy) (good_login "1.2.3.4") 3700000 alice_later))) ->
             u_email x = u_email u -> u_lockedUntil x = None)
       /\ ledger (snd (serve (lib := toy) (good_login "1.2.3.4") 3700000 alice_later))
          = (ledger alice_later
             ++ [attempt_row (u_email u) ip ua true (Some (u_id u)) 3700000])%list
       /\ (forall e since,
             failed_since e since
               (ledger (snd (serve (lib := toy) (good_login "1.2.3.4") 3700000 alice_later)))
             = failed_since e since (ledger alice_later)).
Proof.
  split.
  - repeat split; vm_compute; reflexivity.
  - apply (successful_login_clears (lib := toy) (good_login "1.2.3.4") 3700000 alice_later).
    eexists. split; [vm_compute; reflexivity|]. cbn. discriminate.
Defined.

(** C7 as stated fails on the ledger: a successful login appends to it.
    Alice's first login on the fresh server gets a session, and the ledger,
    empty before, holds the row of that success afterwards. *)
Lemma successful_login_appends_to_ledger :
  ledger world0 = []
  /\ fst (login (lib := toy) (login_req "1.2.3.4" "a@x.com" "P@ssw0rd1") 0 world0)
     = Sent {| status := 200; body := SessionBody (public_of alice);
               set_cookie := Some "jwt.u1" |}
  /\ ledger (snd (login (lib := toy) (login_req "1.2.3.4" "a@x.com" "P@ssw0rd1") 0 world0))
     = [ {| a_email := "a@x.com"; a_ip := "1.2.3.4"; a_userAgent := Some "curl";
            a_success := true; a_userId := Some "u1"; a_createdAt := 0 |} ].
Proof. repeat split; vm_compute; reflexivity. Qed.

(** ** The response to a failed credential check *)

Section Enumeration.

Context {lib : Libraries}.

(** C8, as the code has it.  Of the logins that reach the credential
    check: one for an e-mail that no account has is answered 401 "Invalid
    credentials"; one with a wrong password for an existing account is
    answered the same, unless it is the tenth failure for that e-mail
    within the hour, when the answer is 423 ACCOUNT_LOCKED. *)
Theorem failed_credentials_response (req : Request) (now : Z) (w : World)
    (email password : string) :
  LoginSchema_parse req = Some (email, password) ->
  let ip := getClientIp req in
  let em := trim (toLowerCase email) in
  guards_verdict ip em now w = Passed ->
  match user_by_email em (users w) with
  | None => fst (login req now w) = invalid_credentials
  | Some u =>
      bcrypt_compare password (u_passwordHash u) = false ->
      fst (login req now w)
      = if failed_since em (now - RATE_LIMIT.EMAIL_WINDOW_MS) (ledger w) =? 9
        then account_locked_now
        else invalid_credentials
  end.
Proof.
  intros Hp ip em Hv.
  rewrite (login_eq _ _ _ _ _ Hp). cbn zeta. fold ip em.
  rewrite rate_limit_checks_eq, Hv.
  destruct (user_by_email em (users w)) as [u|] eqn:Hu.
  - intros Hc.
    rewrite (credential_validation_wrong_password _ _ _ _ _ _ u); auto.
    cbn zeta. cbn [ledger add_event].
    rewrite failed_since_app, failed_since_failure.
    pose proof (guards_verdict_inv ip em now w) as Hi. rewrite Hv in Hi.
    destruct Hi as (_ & _ & Hi). unfold checkEmailRateLimit_pure in Hi.
    destruct (RATE_LIMIT.EMAIL_MAX_ATTEMPTS <=? _) eqn:E1; [discriminate|].
    apply Z.leb_gt in E1. unfold RATE_LIMIT.EMAIL_MAX_ATTEMPTS in E1.
    destruct (_ =? 9) eqn:E2.
    + apply Z.eqb_eq in E2. rewrite E2. reflexivity.
    + apply Z.eqb_neq in E2.
      destruct (RATE_LIMIT.LOCKOUT_THRESHOLD <=? _) eqn:E3; [|reflexivity].
      apply Z.leb_le in E3. unfold RATE_LIMIT.LOCKOUT_THRESHOLD in E3. lia.
  - now apply credential_validation_unknown.
Qed.

End Enumeration.

(** A first wrong password for Alice's account and a login for an e-mail
    without an account, on the fresh server: the same 401. *)
Lemma failed_credentials_response_witness :
  fst (login (lib := toy) (login_req "1.2.3.4" "a@x.com" "wrong") 0 world0)
  = invalid_credentials
  /\ fst (login (lib := toy) (login_req "1.2.3.4" "nobody@x.com" "wrong") 0 world0)
     = invalid_credentials.
Proof.
  split.
  - apply (failed_credentials_response (lib := toy)
             (login_req "1.2.3.4" "a@x.com" "wrong") 0 world0 "a@x.com" "wrong"
             eq_refl eq_refl eq_refl).
  - apply (failed_credentials_response (lib := toy)
             (login_req "1.2.3.4" "nobody@x.com" "wrong") 0 world0 "nobody@x.com" "wrong"
             eq_refl eq_refl).
Defined.

(** C8 as stated fails: the two responses differ on the tenth failure.  Nine
    wrong logins have been made for Alice's e-mail, and nine for an e-mail
    without an account; the tenth for each passes the guards and fails the
    credential check; Alice's is answered 423 ACCOUNT_LOCKED, the other 401
    "Invalid credentials". *)
Lemma tenth_failure_tells_accounts_apart :
  fst (login (lib := toy) (login_req "1.2.3.4" "a@x.com" "wrong") 549000
         (snd (serve_all (lib := toy) (nine_failures "a@x.com") world0)))
  = account_locked_now
  /\ fst (login (lib := toy) (login_req "1.2.3.4" "nobody@x.com" "wrong") 549000
            (snd (serve_all (lib := toy) (nine_failures "nobody@x.com") world0)))
     = invalid_credentials.
Proof. split; vm_compute; reflexivity. Qed.

(** ** Strings and headers *)

Section Strings.

Context {lib : Libraries}.

Lemma split_nonempty sep s : split sep s <> [].
Proof.
  destruct s as [|c r]; cbn; [discriminate|].
  destruct (Ascii.eqb c sep); [discriminate|].
  destruct (split sep r); discriminate.
Qed.

Lemma split_app sep a b :
  split sep (a ++ String sep b) = (split sep a ++ split sep b)%list.
Proof.
  induction a as [|c a IH]; simpl.
  - now rewrite Ascii.eqb_refl.
  - destruct (Ascii.eqb c sep); [now rewrite IH|].
    rewrite IH. destruct (split sep a) as [|h t] eqn:E; [|reflexivity].
    now apply split_nonempty in E.
Qed.

Lemma split_no_sep sep s : has_char sep s = false -> split sep s = [s].
Proof.
  induction s as [|c s IH]; cbn; [reflexivity|].
  rewrite (Ascii.eqb_sym c sep).
  destruct (Ascii.eqb sep c); cbn; [discriminate|].
  intros H. now rewrite (IH H).
Qed.

(** Splitting at a character and joining with it gives the string back. *)
Lemma join_split sep s : join (String sep EmptyString) (split sep s) = s.
Proof.
  induction s as [|c s IH]; cbn; [reflexivity|].
  destruct (Ascii.eqb c sep) eqn:E.
  - apply Ascii.eqb_eq in E. subst c.
    destruct (split sep s) as [|h t] eqn:Es; [now apply split_nonempty in Es|].
    cbn in *. now rewrite IH.
  - destruct (split sep s) as [|h t] eqn:Es; [now apply split_nonempty in Es|].
    destruct t as [|h' t']; cbn in *; now rewrite <- IH.
Qed.

Lemma or_else_truthy o d : truthy d = true -> truthy (or_else o d) = true.
Proof.
  intros Hd. unfold or_else. destruct o as [s|]; [|exact Hd].
  destruct (truthy s) eqn:E; [exact E|exact Hd].
Qed.

Lemma has_char_app c a b : has_char c (a ++ b) = has_char c a || has_char c b.
Proof.
  induction a as [|d a IH]; simpl; [reflexivity|].
  now rewrite IH, orb_assoc.
Qed.

Lemma ws_has_no_char c s :
  is_ws c = false -> all_chars is_ws s = true -> has_char c s = false.
Proof.
  intros Hc. induction s as [|d s IH]; cbn; [reflexivity|].
  intros H. apply andb_true_iff in H as [Hd Hs].
  destruct (Ascii.eqb c d) eqn:E; [|now apply IH].
  apply Ascii.eqb_eq in E. congruence.
Qed.

Lemma trimStart_ws s t : all_chars is_ws s = true -> trimStart (s ++ t) = trimStart t.
Proof.
  induction s as [|c s IH]; simpl; [reflexivity|].
  intros H. apply andb_true_iff in H as [Hc Hs]. rewrite Hc. now apply IH.
Qed.

Lemma trimStart_all_ws s : all_chars is_ws s = true -> trimStart s = EmptyString.
Proof.
  induction s as [|c s IH]; cbn; [reflexivity|].
  intros H. apply andb_true_iff in H as [Hc Hs]. rewrite Hc. now apply IH.
Qed.

Lemma trimStart_keeps s : starts_with_ws s = false -> trimStart s = s.
Proof.
  destruct s as [|c s]; cbn; [reflexivity|]. now intros ->.
Qed.

Lemma trimEnd_all_ws s : all_chars is_ws s = true -> trimEnd s = EmptyString.
Proof.
  induction s as [|c s IH]; cbn; [reflexivity|].
  intros H. apply andb_true_iff in H as [Hc Hs]. now rewrite (IH Hs), Hc.
Qed.

Lemma trimEnd_app s t :
  ends_with_ws s = false -> all_chars is_ws t = true -> trimEnd (s ++ t) = s.
Proof.
  intros Hs Ht. induction s as [|c s IH]; [now apply trimEnd_all_ws|].
  destruct s as [|d s].
  - change (trimEnd (String c EmptyString ++ t))
      with (match trimEnd t with
            | EmptyString => if is_ws c then EmptyString else String c EmptyString
            | r' => String c r'
            end).
    rewrite (trimEnd_all_ws _ Ht). cbn in Hs. now rewrite Hs.
  - change (trimEnd ((String c (String d s)) ++ t))
      with (match trimEnd (String d s ++ t) with
            | EmptyString => if is_ws c then EmptyString else String c EmptyString
            | r' => String c r'
            end).
    rewrite IH; [reflexivity|exact Hs].
Qed.

(** What [trim] does: white space around a core that neither starts nor
    ends with white space is dropped, and the core is kept. *)
Lemma trim_padded pre core post :
  all_chars is_ws pre = true -> all_chars is_ws post = true ->
  starts_with_ws core = false -> ends_with_ws core = false ->
  trim (pre ++ core ++ post) = core.
Proof.
  intros Hpre Hpost Hs He. unfold trim.
  rewrite (trimStart_ws _ _ Hpre).
  destruct core as [|c core].
  - change (EmptyString ++ post) with post.
    now rewrite (trimStart_all_ws _ Hpost).
  - rewrite trimStart_keeps; [now apply trimEnd_app|exact Hs].
Qed.

Lemma split_join sep parts :
  parts <> [] -> Forall (fun p => has_char sep p = false) parts ->
  split sep (join (String sep EmptyString) parts) = parts.
Proof.
  induction parts as [|p parts IH]; [congruence|].
  intros _ H. apply List.Forall_cons_iff in H as [Hp Hall].
  destruct parts as [|q parts]; [now apply split_no_sep|].
  change (join (String sep EmptyString) (p :: q :: parts))
    with (p ++ String sep (join (String sep EmptyString) (q :: parts))).
  rewrite split_app, (split_no_sep _ _ Hp), IH; [reflexivity|discriminate|exact Hall].
Qed.

(** The text before the first separator. *)
Lemma split_head sep s k rest :
  split sep s = k :: rest ->
  s = k \/ exists v, s = k ++ String sep v.
Proof.
  intros H. pose proof (join_split sep s) as Hj. rewrite H in Hj.
  destruct rest as [|r rest]; [left; now symmetry|].
  right. eexists. symmetry. exact Hj.
Qed.

Lemma cookie_in_parts_app l1 l2 name :
  cookie_in_parts (l1 ++ l2) name
  = match cookie_in_parts l1 name with
    | Some v => Some v
    | None => cookie_in_parts l2 name
    end.
Proof.
  induction l1 as [|part l1 IH]; cbn; [reflexivity|].
  destruct (split "=" (trim part)) as [|k rest]; [exact IH|].
  destruct (String.eqb k name); [reflexivity|exact IH].
Qed.

Lemma getCookieValue_parts h name :
  truthy h = true ->
  getCookieValue (Some h) name = cookie_in_parts (split ";" h) name.
Proof.
  intros Ht. unfold getCookieValue. cbn. now rewrite Ht.
Qed.

Lemma cookie_in_parts_skip before rest name :
  Forall (other_cookie name) before ->
  cookie_in_parts (before ++ rest) name = cookie_in_parts rest name.
Proof.
  induction 1 as [|p before [Hp1 Hp2] _ IH]; [reflexivity|].
  cbn [app cookie_in_parts].
  destruct (split "=" (trim p)) as [|k more] eqn:E; [exact IH|].
  destruct (String.eqb k name) eqn:Ek; [|exact IH].
  apply String.eqb_eq in Ek. subst k.
  destruct (split_head _ _ _ _ E) as [H|[v H]]; [contradiction|].
  now apply Hp2 in H.
Qed.

Lemma cookie_in_parts_hit part after name value :
  has_char "=" name = false ->
  trim part = name ++ String "=" value ->
  cookie_in_parts (part :: after) name = Some (decode_or_raw value).
Proof.
  intros Hn Ht. cbn [cookie_in_parts].
  rewrite Ht, split_app, (split_no_sep _ _ Hn). cbn [app].
  now rewrite String.eqb_refl, join_split.
Qed.

(** The cookie the gate reads from a header of parts joined by semicolons:
    the value of the first part that, trimmed, is [name=value]. *)
Lemma getCookieValue_first before part after name value :
  has_char "=" name = false ->
  Forall (fun p => has_char ";" p = false) (before ++ part :: after) ->
  Forall (other_cookie name) before ->
  trim part = name ++ String "=" value ->
  getCookieValue (Some (join ";" (before ++ part :: after))) name
  = Some (decode_or_raw value).
Proof.
  intros Hn Hsemi Hbefore Ht.
  assert (Hsplit : split ";" (join ";" (before ++ part :: after))
                   = (before ++ part :: after)%list).
  { apply split_join; [|exact Hsemi]. now destruct before. }
  destruct (join ";" (before ++ part :: after)) as [|c h] eqn:Ej.
  - exfalso. cbn in Hsplit.
    destruct before as [|b [|b' before]]; cbn in Hsplit; try discriminate.
    injection Hsplit as <-. cbn in Ht. destruct name; discriminate.
  - rewrite getCookieValue_parts by reflexivity.
    rewrite Hsplit, (cookie_in_parts_skip _ _ _ Hbefore).
    now apply cookie_in_parts_hit.
Qed.

Lemma getCookieValue_none parts name :
  Forall (fun p => has_char ";" p = false) parts ->
  Forall (other_cookie name) parts ->
  getCookieValue (Some (join ";" parts)) name = None.
Proof.
  intros Hsemi Hother.
  destruct (join ";" parts) as [|c h] eqn:Ej; [reflexivity|].
  rewrite getCookieValue_parts by reflexivity. rewrite <- Ej.
  destruct parts as [|p parts]; [discriminate|].
  rewrite split_join by (auto; discriminate).
  rewrite <- (app_nil_r (p :: parts)).
  now rewrite (cookie_in_parts_skip _ _ _ Hother).
Qed.

End Strings.

(** ** The Auth Gate *)

Section AuthGate.

Context {lib : Libraries}.

(** C9. The gate takes the credential from an authorization header that
    starts with "Bearer ", whatever the cookies.  Otherwise it takes it
    from the cookie header: from the first of the parts between semicolons
    that, trimmed, reads [eco_token=value], whose value it decodes, or
    keeps as it is when decoding throws; there is no credential when the
    header is missing or empty or no part is an [eco_token] cookie.  With
    an absent or invalid credential [requireAuth] answers 401 and does not
    call [next], and [optionalAuth] calls [next] without an identity.  With
    a token that verifies and names a subject both call [next] with that
    subject as the user id; [requireAuth] calls [next] in no other case,
    and [optionalAuth] always calls it. *)
Theorem auth_gate_contract (req : Request) (now : Z) :
  (forall header,
     h_authorization req = Some header -> startsWith "Bearer " header = true ->
     getTokenFromRequest req = Some (slice 7 header))
  /\ (match h_authorization req with
      | Some header => startsWith "Bearer " header = false
      | None => True
      end ->
      (truthy_opt (h_cookie req) = false -> getTokenFromRequest req = None)
      /\ (forall (before after : list string) (part value : string),
            h_cookie req = Some (join ";" (before ++ part :: after)%list) ->
            Forall (fun p => has_char ";" p = false) (before ++ part :: after)%list ->
            Forall (other_cookie AUTH_COOKIE) before ->
            trim part = AUTH_COOKIE ++ String "=" value ->
            getTokenFromRequest req
            = Some (match decodeURIComponent value with
                    | Some decoded => decoded
                    | None => value
                    end))
      /\ (forall parts : list string,
            h_cookie req = Some (join ";" parts) ->
            Forall (fun p => has_char ";" p = false) parts ->
            Forall (other_cookie AUTH_COOKIE) parts ->
            getTokenFromRequest req = None))
  /\ (absent_or_invalid (getTokenFromRequest req) now = true ->
      requireAuth req now = unauthorized /\ optionalAuth req now = Proceed None)
  /\ (forall token sub,
        getTokenFromRequest req = Some token -> truthy token = true ->
        jwt_verify token now = Some (Some sub) -> truthy sub = true ->
        requireAuth req now = Proceed (Some sub)
        /\ optionalAuth req now = Proceed (Some sub))
  /\ (forall user,
        requireAuth req now = Proceed user ->
        exists token sub,
          user = Some sub /\ getTokenFromRequest req = Some token
          /\ jwt_verify token now = Some (Some sub) /\ truthy sub = true)
  /\ (exists user, optionalAuth req now = Proceed user).
Proof.
  split; [|split; [|split; [|split; [|split]]]].
  - intros header Hh Hb. unfold getTokenFromRequest. now rewrite Hh, Hb.
  - intros Hnb.
    assert (Hg : getTokenFromRequest req = getCookieValue (h_cookie req) AUTH_COOKIE).
    { unfold getTokenFromRequest.
      destruct (h_authorization req) as [header|]; [|reflexivity].
      now rewrite Hnb. }
    rewrite Hg. split; [|split].
    + intros Hc. unfold getCookieValue. now rewrite Hc.
    + intros before after part value Hc Hsemi Hbefore Ht. rewrite Hc.
      now apply getCookieValue_first.
    + intros parts Hc Hsemi Hother. rewrite Hc. now apply getCookieValue_none.
  - unfold absent_or_invalid, requireAuth, optionalAuth.
    destruct (truthy_opt (getTokenFromRequest req)); cbn; [|auto].
    destruct (jwt_verify _ now); [discriminate|auto].
  - intros token sub Ht Htr Hv Hs. unfold requireAuth, optionalAuth.
    rewrite Ht. cbn. rewrite Htr. cbn. rewrite Hv. cbn. now rewrite Hs.
  - intros user. unfold requireAuth.
    destruct (getTokenFromRequest req) as [token|]; cbn; [|discriminate].
    destruct (truthy token) eqn:Htr; cbn; [|discriminate].
    destruct (jwt_verify token now) as [[sub|]|] eqn:Hv; cbn; try discriminate.
    destruct (truthy sub) eqn:Hs; cbn; [|discriminate].
    intros [= <-]. now exists token, sub.
  - unfold optionalAuth.
    destruct (negb (truthy_opt (getTokenFromRequest req))); [now eexists|].
    destruct (jwt_verify _ now) as [sub|]; [|now eexists].
    destruct (truthy_opt sub); now eexists.
Qed.

End AuthGate.

(** A request that carries a valid token in the header and another in the
    cookie is Alice's, by the header.  A request without the header whose
    cookie header is [a=1;], a no-break space, [eco_token=jwt.u1;
    eco_token=jwt.u2] is Alice's too, by the first of the two cookies.  A
    request whose only credential is a bad cookie is turned down by
    [requireAuth] and goes on unauthenticated through [optionalAuth]. *)
Lemma auth_gate_contract_witness :
  (requireAuth (lib := toy)
     (gate_req (Some "Bearer jwt.u1") (Some "a=1; eco_token=jwt.u2")) 0
   = Proceed (Some "u1")
   /\ optionalAuth (lib := toy)
        (gate_req (Some "Bearer jwt.u1") (Some "a=1; eco_token=jwt.u2")) 0
      = Proceed (Some "u1"))
  /\ (requireAuth (lib := toy)
        (gate_req None
           (Some ("a=1;" ++ String nbsp "eco_token=jwt.u1; eco_token=jwt.u2"))) 0
      = Proceed (Some "u1")
      /\ optionalAuth (lib := toy)
           (gate_req None
              (Some ("a=1;" ++ String nbsp "eco_token=jwt.u1; eco_token=jwt.u2"))) 0
         = Proceed (Some "u1"))
  /\ (requireAuth (lib := toy) (gate_req None (Some "a=1; eco_token=forged")) 0
      = unauthorized
      /\ optionalAuth (lib := toy) (gate_req None (Some "a=1; eco_token=forged")) 0
         = Proceed None).
Proof.
  split; [|split].
  - apply (proj1 (proj2 (proj2 (proj2 (auth_gate_contract (lib := toy)
             (gate_req (Some "Bearer jwt.u1") (Some "a=1; eco_token=jwt.u2")) 0))))
             "jwt.u1" "u1"); reflexivity.
  - destruct (auth_gate_contract (lib := toy)
                (gate_req None
                   (Some ("a=1;" ++ String nbsp "eco_token=jwt.u1; eco_token=jwt.u2")))
                0) as (_ & Hcookie & _ & Hvalid & _).
    destruct (Hcookie I) as (_ & Hfirst & _).
    apply (Hvalid "jwt.u1" "u1"); [|reflexivity|reflexivity|reflexivity].
    apply (Hfirst ["a=1"] [" eco_token=jwt.u2"] (String nbsp "eco_token=jwt.u1")
             "jwt.u1"); [reflexivity| | |reflexivity].
    + repeat constructor.
    + constructor; [|constructor]. split; [|intros v]; intros H;
        vm_compute in H; discriminate.
  - apply (proj1 (proj2 (proj2 (auth_gate_contract (lib := toy)
             (gate_req None (Some "a=1; eco_token=forged")) 0)))).
    reflexivity.
Defined.

(** * More of the code *)

(** ** The retry hints of the guards *)

Section RetryHints.

Context {lib : Libraries}.

Lemma ceil_div_bounds a b :
  0 < b -> b * (ceil_div a b - 1) < a <= b * ceil_div a b.
Proof.
  intros Hb. unfold ceil_div.
  pose proof (Z.div_mod (- a) b ltac:(lia)) as Hd.
  pose proof (Z.mod_pos_bound (- a) b Hb) as Hm.
  nia.
Qed.

(** X1. When the IP check turns an address down, its bucket is full and its
    window still runs, and the cooldown it announces is the rest of the
    window rounded up to whole seconds: never negative, never less than what
    remains, less than a second more, and at most 60 when the clock has not
    gone back behind the first failure. *)
Theorem ip_cooldown_is_rest_of_window (ip : string) (now : Z)
    (m : gmap string IpEntry) :
  allowed (checkIpRateLimit_pure ip now m) = false ->
  exists (d : IpEntry) (s : Z),
    m !! ip_key ip = Some d
    /\ RATE_LIMIT.IP_MAX_ATTEMPTS <= count d
    /\ now - firstAttempt d <= RATE_LIMIT.IP_WINDOW_MS
    /\ remainingSeconds (checkIpRateLimit_pure ip now m) = Some s
    /\ 0 <= s
    /\ 1000 * (s - 1) < RATE_LIMIT.IP_WINDOW_MS - (now - firstAttempt d) <= 1000 * s
    /\ (firstAttempt d <= now -> s <= 60).
Proof.
  unfold checkIpRateLimit_pure.
  destruct (m !! ip_key ip) as [d|]; [|discriminate].
  destruct (RATE_LIMIT.IP_WINDOW_MS <? now - firstAttempt d) eqn:E1; [discriminate|].
  destruct (RATE_LIMIT.IP_MAX_ATTEMPTS <=? count d) eqn:E2; [|discriminate].
  intros _. apply Z.ltb_ge in E1. apply Z.leb_le in E2.
  exists d, (ceil_div (RATE_LIMIT.IP_WINDOW_MS - (now - firstAttempt d)) 1000).
  pose proof (ceil_div_bounds (RATE_LIMIT.IP_WINDOW_MS - (now - firstAttempt d)) 1000
                ltac:(lia)) as Hc.
  unfold RATE_LIMIT.IP_WINDOW_MS in *. cbn [remainingSeconds].
  repeat split; try reflexivity; try lia.
Qed.

(** X2. When the lockout check answers "locked", the minutes it announces are
    the rest of the lockout rounded up: at least one, never less than what
    remains, less than a minute more. *)
Theorem lockout_minutes_are_rest_of_lockout (em : string) (now : Z)
    (us : list User) :
  locked (checkAccountLockout_pure em now us) = true ->
  exists (u : User) (l minutes : Z),
    user_by_email em us = Some u
    /\ u_lockedUntil u = Some l
    /\ remainingMinutes (checkAccountLockout_pure em now us) = Some minutes
    /\ 1 <= minutes
    /\ 60000 * (minutes - 1) < l - now <= 60000 * minutes.
Proof.
  intros H. apply locked_inv in H as (u & l & Hu & Hl & Hn & ->).
  exists u, l, (ceil_div (l - now) 60000).
  pose proof (ceil_div_bounds (l - now) 60000 ltac:(lia)) as Hc.
  cbn [remainingMinutes]. repeat split; auto; lia.
Qed.

(** X3. A lockout ends by itself.  When a recorded failure locks the accounts
    with an e-mail at [t0], the lockout check answers "locked", with at most
    fifteen minutes, at every instant from [t0] up to fifteen minutes later,
    and "not locked" from then on. *)
Theorem lockout_lasts_fifteen_minutes (em ip : string) (ua uid : option string)
    (t0 : Z) (w : World) (u : User) :
  user_by_email em (users w) = Some u ->
  fst (recordLoginAttempt em ip ua false uid t0 w) = true ->
  let w' := snd (recordLoginAttempt em ip ua false uid t0 w) in
  forall now : Z,
    (t0 <= now < t0 + 15 * 60 * 1000 ->
     exists minutes,
       checkAccountLockout_pure em now (users w')
       = {| locked := true; remainingMinutes := Some minutes;
            message := Some (MsgAccountTempLocked minutes) |}
       /\ 1 <= minutes <= 15)
    /\ (t0 + 15 * 60 * 1000 <= now ->
        locked (checkAccountLockout_pure em now (users w')) = false).
Proof.
  intros Hu Hr w' now. subst w'.
  rewrite recordLoginAttempt_failure in *. cbn zeta in *.
  destruct (RATE_LIMIT.LOCKOUT_THRESHOLD <=? _); [|discriminate].
  cbn [fst snd users set_users].
  assert (Hu' : user_by_email em
            (lock_accounts em (t0 + RATE_LIMIT.LOCKOUT_DURATION_MS) (users w))
          = Some (set_lockedUntil (Some (t0 + RATE_LIMIT.LOCKOUT_DURATION_MS)) u)).
  { rewrite user_by_email_lock, Hu. reflexivity. }
  unfold RATE_LIMIT.LOCKOUT_DURATION_MS in *. split.
  - intros [Hlo Hhi].
    exists (ceil_div (t0 + 15 * 60 * 1000 - now) 60000). split.
    + apply (locked_intro em now _ _ _ Hu'); [reflexivity|lia].
    + pose proof (ceil_div_bounds (t0 + 15 * 60 * 1000 - now) 60000 ltac:(lia)). lia.
  - intros Hlate. unfold checkAccountLockout_pure. rewrite Hu'. cbn.
    destruct (now <? t0 + 15 * 60 * 1000) eqn:E; [|reflexivity].
    apply Z.ltb_lt in E. lia.
Qed.

End RetryHints.

(** ** What the handlers do to the tables *)

Section Tables.

Context {lib : Libraries}.

#[local] Arguments recordLoginAttempt : simpl never.

Lemma credential_validation_db ip em password ua now w :
  db_step now ip w (snd (credential_validation ip em password ua now w)).
Proof.
  unfold credential_validation, bind, get, ret.
  destruct (user_by_email em (users w)) as [user|].
  - unfold bcrypt_compare_call, bind, emit, modify, ret; cbn.
    destruct (bcrypt_compare password (u_passwordHash user)); cbn.
    + destruct (negb (u_totpEnabled user) || negb (truthy_opt (u_totpSecret user)));
        cbn.
      * rewrite recordLoginAttempt_success. cbn. right.
        exists (attempt_row em ip ua true (Some (u_id user)) now).
        repeat split. right; right. now exists (u_id user).
      * now left.
    + rewrite recordLoginAttempt_failure. cbn zeta.
      destruct (RATE_LIMIT.LOCKOUT_THRESHOLD <=? _); cbn; right;
        exists (attempt_row em ip ua false (Some (u_id user)) now);
        repeat split; auto.
  - cbn. rewrite recordLoginAttempt_failure. cbn zeta.
    destruct (RATE_LIMIT.LOCKOUT_THRESHOLD <=? _); cbn; right;
      exists (attempt_row em ip ua false None now); repeat split; auto.
Qed.

Lemma verify_found_db req code now found w :
  db_step now (getClientIp req) w (snd (verify_found req code now found w)).
Proof.
  unfold verify_found, bind, ret.
  destruct found as [[c owner]|]; [|now left].
  destruct (c_usedAt c); [now left|].
  destruct (c_expiresAt c <=? now); [now left|].
  destruct owner as [u|]; [|now left].
  destruct (negb (u_totpEnabled u) || negb (truthy_opt (u_totpSecret u)));
    [now left|].
  unfold authenticator_verify_call, bind, emit, modify, ret; cbn.
  destruct (authenticator_verify _ _ _); cbn.
  - rewrite recordLoginAttempt_success. cbn. right.
    exists (attempt_row (u_email u) (getClientIp req) (h_user_agent req) true
              (Some (u_id u)) now).
    repeat split. right; right. now exists (u_id u).
  - rewrite recordLoginAttempt_failure. cbn zeta.
    destruct (RATE_LIMIT.LOCKOUT_THRESHOLD <=? _); cbn; right;
      exists (attempt_row (u_email u) (getClientIp req) (h_user_agent req) false
                (Some (u_id u)) now);
      repeat split; auto.
Qed.

Lemma serve_db_step c ip now w :
  call_ip c = Some ip -> db_step now ip w (snd (serve c now w)).
Proof.
  destruct c as [req|req|]; cbn; [| |discriminate];
    intros [= <-]; unfold bind, ret.
  - destruct (LoginSchema_parse req) as [[email password]|] eqn:Hp.
    2:{ rewrite (login_unparsed _ _ _ Hp). now left. }
    rewrite (login_eq _ _ _ _ _ Hp). cbn zeta.
    rewrite rate_limit_checks_eq.
    destruct (guards_verdict _ _ _ _); cbn zeta; try (now left).
    match goal with
    | |- context [credential_validation ?a ?b ?c ?d ?e ?f] =>
        pose proof (credential_validation_db a b c d e f) as Ht;
        destruct (credential_validation a b c d e f) as [o w2]
    end.
    exact Ht.
  - destruct (VerifyTotpSchema_parse req) as [[id code]|] eqn:Hp.
    2:{ rewrite (login_totp_unparsed _ _ _ Hp). now left. }
    rewrite (login_totp_eq _ _ _ _ _ Hp).
    match goal with
    | |- context [verify_found ?a ?b ?c ?d ?e] =>
        pose proof (verify_found_db a b c d e) as Ht;
        destruct (verify_found a b c d e) as [o w2]
    end.
    exact Ht.
Qed.

Lemma sweep_database now w :
  same_database w (snd (cleanupLoginAttempts now w)).
Proof. repeat split. Qed.

(** X4. The ledger is append-only.  A run of calls leaves the rows that were
    there in place and in order, adds at most one row per call, and every
    row it adds carries the instant and the address of one of the calls. *)
Theorem ledger_is_append_only (calls : list (Z * Call)) (w : World) :
  exists rows : list LoginAttempt,
    ledger (snd (serve_all calls w)) = (ledger w ++ rows)%list
    /\ (List.length rows <= List.length calls)%nat
    /\ Forall (fun row =>
                 exists tc, In tc calls /\ a_createdAt row = fst tc
                            /\ call_ip (snd tc) = Some (a_ip row)) rows.
Proof.
  revert w. induction calls as [|[t c] calls IH]; intros w.
  - exists []. cbn. rewrite app_nil_r. repeat split; [lia|constructor].
  - cbn [serve_all]. unfold bind.
    assert (Hstep : ledger (snd (serve c t w)) = ledger w
            \/ exists row, ledger (snd (serve c t w)) = (ledger w ++ [row])%list
                           /\ a_createdAt row = t /\ call_ip c = Some (a_ip row)).
    { destruct (call_ip c) as [ip|] eqn:Hc.
      - destruct (serve_db_step c ip t w Hc) as [[_ Hl]|(row & Hl & Ht & Hi & _)].
        + now left.
        + right. exists row. subst ip. auto.
      - destruct c; try discriminate. now left. }
    destruct (serve c t w) as [o w1]. cbn [fst snd] in *.
    destruct (IH w1) as (rows & Hrows & Hlen & Hall).
    destruct (serve_all calls w1) as [os w2]. cbn [fst snd ret] in *.
    assert (Hall' : Forall (fun row =>
                 exists tc, In tc ((t, c) :: calls) /\ a_createdAt row = fst tc
                            /\ call_ip (snd tc) = Some (a_ip row)) rows).
    { eapply List.Forall_impl; [|exact Hall].
      intros row (tc & Hin & H1 & H2). exists tc. split; [now right|auto]. }
    destruct Hstep as [Hl|(row & Hl & Ht & Hi)].
    + exists rows. rewrite Hrows, Hl. repeat split; [cbn; lia|exact Hall'].
    + exists (row :: rows). rewrite Hrows, Hl, <- app_assoc.
      repeat split; [cbn; lia|].
      constructor; [|exact Hall'].
      exists (t, c). split; [now left|auto].
Qed.

Lemma credentials_lock em t us :
  List.map credentials_of (lock_accounts em t us) = List.map credentials_of us.
Proof.
  unfold lock_accounts. rewrite List.map_map. apply List.map_ext.
  intros u. destruct (String.eqb (u_email u) em); reflexivity.
Qed.

Lemma credentials_unlock_touch em id t us :
  List.map credentials_of
    (List.map (fun x => if String.eqb (u_id x) id
                        then set_lastLoginAt (Some t) x else x)
       (unlock_accounts em us))
  = List.map credentials_of us.
Proof.
  unfold unlock_accounts. rewrite !List.map_map. apply List.map_ext.
  intros u. destruct (String.eqb (u_email u) em).
  - destruct (u_lockedUntil u); cbn; destruct (String.eqb (u_id u) id); reflexivity.
  - destruct (String.eqb (u_id u) id); reflexivity.
Qed.

(** X5. The two login handlers and the sweep never create or delete an account
    and never change an account's id, e-mail, name, password hash, TOTP flag
    or TOTP secret: in any run of calls only lockout expiries and last-login
    times move. *)
Theorem logins_keep_credentials (calls : list (Z * Call)) (w : World) :
  List.map credentials_of (users (snd (serve_all calls w)))
  = List.map credentials_of (users w).
Proof.
  revert w. induction calls as [|[t c] calls IH]; intros w; [reflexivity|].
  cbn [serve_all]. unfold bind.
  assert (Hstep : List.map credentials_of (users (snd (serve c t w)))
                  = List.map credentials_of (users w)).
  { destruct (call_ip c) as [ip|] eqn:Hc.
    - destruct (serve_db_step c ip t w Hc)
        as [[-> _]|(row & _ & _ & _ & [->|[->|(id & ->)]])];
        auto using credentials_lock, credentials_unlock_touch.
    - destruct c; try discriminate. reflexivity. }
  destruct (serve c t w) as [o w1]. cbn [fst snd] in *.
  specialize (IH w1).
  destruct (serve_all calls w1) as [os w2]. cbn [fst snd ret] in *.
  congruence.
Qed.

(** X6. A login that a guard turns away, or whose body does not validate, is
    recorded nowhere: the tracker, the accounts, the ledger and the
    challenges are as before; only the guard calls were made. *)
Theorem rejected_login_leaves_no_record (req : Request) (now : Z) (w : World) :
  match LoginSchema_parse req with
  | Some (email, _) =>
      guards_verdict (getClientIp req) (trim (toLowerCase email)) now w <> Passed
  | None => True
  end ->
  let w' := snd (login req now w) in
  loginAttempts w' = loginAttempts w /\ same_database w w'
  /\ session_of (fst (login req now w)) = None.
Proof.
  destruct (LoginSchema_parse req) as [[email password]|] eqn:Hp.
  2:{ intros _. rewrite (login_unparsed _ _ _ Hp). cbn. repeat split. }
  intros Hv. rewrite (login_eq _ _ _ _ _ Hp). cbn zeta.
  rewrite rate_limit_checks_eq.
  destruct (guards_verdict _ _ _ _); cbn zeta; try (cbn; repeat split; fail).
  contradiction.
Qed.

End Tables.

(** ** The sweep and the middleware *)

Section Tracker.

Context {lib : Libraries}.

#[local] Arguments recordLoginAttempt : simpl never.

(** The response of the credential block is read off the accounts, the
    ledger and the uuid the database draws next. *)
Lemma credential_validation_outcome ip em password ua now w1 w2 :
  users w2 = users w1 -> ledger w2 = ledger w1 -> drawn w2 = drawn w1 ->
  fst (credential_validation ip em password ua now w2)
  = fst (credential_validation ip em password ua now w1).
Proof.
  intros Hu Hl Hd. unfold credential_validation, bind, get, ret. rewrite Hu.
  destruct (user_by_email em (users w1)) as [user|].
  - unfold bcrypt_compare_call, bind, emit, modify, ret; cbn.
    destruct (bcrypt_compare password (u_passwordHash user)); cbn.
    + destruct (negb (u_totpEnabled user) || negb (truthy_opt (u_totpSecret user)));
        cbn.
      * rewrite !recordLoginAttempt_success. reflexivity.
      * now rewrite Hd.
    + rewrite !recordLoginAttempt_failure. cbn. rewrite Hl.
      destruct (RATE_LIMIT.LOCKOUT_THRESHOLD <=? _); reflexivity.
  - cbn. rewrite !recordLoginAttempt_failure. cbn. rewrite Hl.
    destruct (RATE_LIMIT.LOCKOUT_THRESHOLD <=? _); reflexivity.
Qed.

(** The response of the second-factor handler is read off the row it found. *)
Lemma verify_found_outcome req code now found w1 w2 :
  fst (verify_found req code now found w2) = fst (verify_found req code now found w1).
Proof.
  unfold verify_found, bind, ret.
  destruct found as [[c owner]|]; [|reflexivity].
  destruct (c_usedAt c); [reflexivity|].
  destruct (c_expiresAt c <=? now); [reflexivity|].
  destruct owner as [u|]; [|reflexivity].
  destruct (negb (u_totpEnabled u) || negb (truthy_opt (u_totpSecret u)));
    [reflexivity|].
  unfold authenticator_verify_call, bind, emit, modify, ret; cbn.
  destruct (authenticator_verify _ _ _); cbn.
  - rewrite !recordLoginAttempt_success. reflexivity.
  - rewrite !recordLoginAttempt_failure. cbn zeta.
    do 2 destruct (RATE_LIMIT.LOCKOUT_THRESHOLD <=? _); reflexivity.
Qed.

(** A response depends on the tracker through the IP check of the caller's
    address only, and not on the trace. *)
Lemma serve_outcome c now w1 w2 :
  same_database w1 w2 ->
  (forall ip, call_ip c = Some ip ->
     checkIpRateLimit_pure ip now (loginAttempts w2)
     = checkIpRateLimit_pure ip now (loginAttempts w1)) ->
  fst (serve c now w2) = fst (serve c now w1).
Proof.
  intros (Hu & Hl & Hc & Hd) Hip.
  destruct c as [req|req|]; cbn [serve]; unfold bind, ret; [| |reflexivity].
  - specialize (Hip _ eq_refl).
    destruct (LoginSchema_parse req) as [[email password]|] eqn:Hp.
    2:{ now rewrite !(login_unparsed _ _ _ Hp). }
    rewrite !(login_eq _ _ _ _ _ Hp). cbn zeta.
    rewrite !rate_limit_checks_eq. unfold guards_verdict.
    rewrite Hip, Hu, Hl.
    destruct (negb (allowed _)); cbn zeta; [reflexivity|].
    destruct (locked _); [reflexivity|].
    destruct (negb (email_allowed _)); [reflexivity|].
    match goal with
    | |- context [credential_validation ?a ?b ?c ?d ?e (add_event ?e3 (add_event ?e2 (add_event ?e1 w2)))] =>
        pose proof (credential_validation_outcome a b c d e
                      (add_event e3 (add_event e2 (add_event e1 w1)))
                      (add_event e3 (add_event e2 (add_event e1 w2))) Hu Hl Hd) as Ho;
        destruct (credential_validation a b c d e
                    (add_event e3 (add_event e2 (add_event e1 w2)))) as [o2 x2];
        destruct (credential_validation a b c d e
                    (add_event e3 (add_event e2 (add_event e1 w1)))) as [o1 x1]
    end.
    cbn in *. congruence.
  - destruct (VerifyTotpSchema_parse req) as [[id code]|] eqn:Hp.
    2:{ now rewrite !(login_totp_unparsed _ _ _ Hp). }
    rewrite !(login_totp_eq _ _ _ _ _ Hp). rewrite Hc, Hu.
    match goal with
    | |- context [verify_found ?a ?b ?c ?d w2] =>
        pose proof (verify_found_outcome a b c d w1 w2) as Ho;
        destruct (verify_found a b c d w2) as [o2 x2];
        destruct (verify_found a b c d w1) as [o1 x1]
    end.
    cbn in *. congruence.
Qed.

Lemma sweep_lookup ts w k d :
  loginAttempts (snd (cleanupLoginAttempts ts w)) !! k = Some d
  <-> loginAttempts w !! k = Some d
      /\ ts - firstAttempt d <= RATE_LIMIT.EMAIL_WINDOW_MS.
Proof.
  cbn. rewrite map_lookup_filter_Some. cbn.
  change (Z.max RATE_LIMIT.IP_WINDOW_MS RATE_LIMIT.EMAIL_WINDOW_MS)
    with RATE_LIMIT.EMAIL_WINDOW_MS.
  destruct (RATE_LIMIT.EMAIL_WINDOW_MS <? ts - firstAttempt d) eqn:E; cbn.
  - apply Z.ltb_lt in E. split; [intros [_ H]; discriminate|intros [_ H]; lia].
  - apply Z.ltb_ge in E. tauto.
Qed.

Lemma sweep_keeps_ip_check ts now w ip :
  ts <= now ->
  checkIpRateLimit_pure ip now (loginAttempts (snd (cleanupLoginAttempts ts w)))
  = checkIpRateLimit_pure ip now (loginAttempts w).
Proof.
  intros Hle. unfold checkIpRateLimit_pure.
  destruct (loginAttempts (snd (cleanupLoginAttempts ts w)) !! ip_key ip)
    as [d|] eqn:Hs.
  - apply sweep_lookup in Hs as [-> _]. reflexivity.
  - destruct (loginAttempts w !! ip_key ip) as [d|] eqn:Hm; [|reflexivity].
    destruct (RATE_LIMIT.IP_WINDOW_MS <? now - firstAttempt d) eqn:E; [reflexivity|].
    apply Z.ltb_ge in E.
    assert (loginAttempts (snd (cleanupLoginAttempts ts w)) !! ip_key ip = Some d)
      as Hk; [|congruence].
    apply sweep_lookup. split; [exact Hm|].
    unfold RATE_LIMIT.IP_WINDOW_MS, RATE_LIMIT.EMAIL_WINDOW_MS in *. lia.
Qed.

(** X7. The sweep is invisible to clients.  It drops the buckets whose first
    failure is more than an hour old and keeps the others as they are; and
    a request served at or after the instant of a sweep is answered as it
    would have been without the sweep. *)
Theorem sweep_is_invisible (ts now : Z) (w : World) (c : Call) :
  ts <= now ->
  let w' := snd (cleanupLoginAttempts ts w) in
  (forall k d,
     loginAttempts w' !! k = Some d
     <-> loginAttempts w !! k = Some d
         /\ ts - firstAttempt d <= 60 * 60 * 1000)
  /\ same_database w w'
  /\ fst (serve c now w') = fst (serve c now w).
Proof.
  intros Hle w'. split; [|split].
  - intros k d. apply sweep_lookup.
  - apply sweep_database.
  - apply serve_outcome; [apply sweep_database|].
    intros ip _. now apply sweep_keeps_ip_check.
Qed.

(** X8. The middleware decides as the IP guard of POST /login does.  It makes
    the IP check and nothing else; when it answers, a login with a valid
    body from the same request is answered the same; when it calls [next],
    it sets no identity and the IP guard of the login lets the request
    through. *)
Theorem middleware_is_the_ip_guard (req : Request) (now : Z) (w : World)
    (email password : string) :
  LoginSchema_parse req = Some (email, password) ->
  snd (loginRateLimitMiddleware req now w)
  = add_event (EvCheckIpRateLimit (getClientIp req)) w
  /\ match fst (loginRateLimitMiddleware req now w) with
     | Stop r => fst (login req now w) = Sent r
     | Proceed user =>
         user = None
         /\ guards_verdict (getClientIp req) (trim (toLowerCase email)) now w
            <> ByIpGuard
     end.
Proof.
  intros Hp. unfold loginRateLimitMiddleware, checkIpRateLimit, bind, ret, get,
    emit, modify. cbn.
  rewrite (login_eq _ _ _ _ _ Hp). cbn zeta. rewrite rate_limit_checks_eq.
  unfold guards_verdict.
  destruct (allowed _); cbn; split; try reflexivity.
  split; [reflexivity|].
  destruct (locked _); [discriminate|].
  destruct (negb (email_allowed _)); discriminate.
Qed.

End Tracker.

(** ** Headers: the client address and the cookie *)

Section Headers.

Context {lib : Libraries}.

(** X9. The client address is never the empty string.  Without an
    x-forwarded-for header it is the socket's address, or "unknown" when
    that is missing or empty.  With the header it is the text before the
    first comma with the white space around it removed, the no-break space
    included, or "unknown" when nothing is left, whatever follows the comma
    and whatever the socket's address is. *)
Theorem client_ip_is_first_forwarded_entry (req : Request) :
  truthy (getClientIp req) = true
  /\ (h_x_forwarded_for req = None ->
      getClientIp req
      = match remoteAddress req with
        | Some address => if truthy address then address else "unknown"
        | None => "unknown"
        end)
  /\ forall pre core post more : string,
       all_chars is_ws pre = true -> all_chars is_ws post = true ->
       starts_with_ws core = false -> ends_with_ws core = false ->
       has_char "," core = false ->
       (h_x_forwarded_for req = Some (pre ++ core ++ post)
        \/ h_x_forwarded_for req = Some ((pre ++ core ++ post) ++ String "," more)) ->
       getClientIp req = if truthy core then core else "unknown".
Proof.
  split; [|split].
  - unfold getClientIp. destruct (h_x_forwarded_for req); now apply or_else_truthy.
  - intros H. unfold getClientIp. now rewrite H.
  - intros pre core post more Hpre Hpost Hs He Hc Hh.
    assert (Hcomma : has_char "," (pre ++ core ++ post) = false).
    { rewrite (has_char_app "," pre), (has_char_app "," core post), Hc.
      now rewrite (ws_has_no_char "," pre), (ws_has_no_char "," post). }
    assert (Hhead : forall h, h_x_forwarded_for req = Some h ->
              split "," h = [pre ++ core ++ post]
              \/ (exists rest, split "," h = (pre ++ core ++ post) :: rest) ->
              getClientIp req = if truthy core then core else "unknown").
    { intros h Hreq Hsplit. unfold getClientIp. rewrite Hreq.
      assert (head_or_empty (split "," h) = pre ++ core ++ post) as ->.
      { destruct Hsplit as [->|[rest ->]]; reflexivity. }
      now rewrite (trim_padded _ _ _ Hpre Hpost Hs He). }
    destruct Hh as [Hh|Hh]; apply (Hhead _ Hh).
    + left. now apply split_no_sep.
    + right. rewrite split_app, (split_no_sep _ _ Hcomma). now eexists.
Qed.

(** X10. The value of a cookie comes back as it was sent.  For a header
    made of the one pair [name=value] with white space around it, the
    no-break space included, where the pair is free of semicolons and the
    name of equals signs, the gate reads the value after the first equals
    sign, equals signs inside the value included, decoded when it decodes
    and raw when decoding throws. *)
Theorem cookie_value_round_trip (pre post name value : string) :
  all_chars is_ws pre = true -> all_chars is_ws post = true ->
  starts_with_ws (name ++ String "=" value) = false ->
  ends_with_ws (name ++ String "=" value) = false ->
  has_char ";" (name ++ String "=" value) = false ->
  has_char "=" name = false ->
  getCookieValue (Some (pre ++ (name ++ String "=" value) ++ post)) name
  = Some (match decodeURIComponent value with
          | Some decoded => decoded
          | None => value
          end).
Proof.
  intros Hpre Hpost Hs He Hsemi Heq.
  assert (Hpart : has_char ";" (pre ++ (name ++ String "=" value) ++ post) = false).
  { rewrite (has_char_app ";" pre),
      (has_char_app ";" (name ++ String "=" value) post), Hsemi.
    now rewrite (ws_has_no_char ";" pre), (ws_has_no_char ";" post). }
  apply (getCookieValue_first [] (pre ++ (name ++ String "=" value) ++ post) []
           name value Heq).
  - constructor; [exact Hpart|constructor].
  - constructor.
  - exact (trim_padded _ _ _ Hpre Hpost Hs He).
Qed.

(** X11. The first cookie of a name wins.  In a header of parts joined by
    semicolons, the cookie the gate reads under a name is the value of the
    first part that, trimmed, is [name=value], whatever the parts after it
    are: a cookie appended to a header cannot override one that is already
    there. *)
Theorem first_cookie_wins (before after : list string) (part name value : string) :
  has_char "=" name = false ->
  Forall (fun p => has_char ";" p = false) (before ++ part :: after)%list ->
  Forall (other_cookie name) before ->
  trim part = name ++ String "=" value ->
  getCookieValue (Some (join ";" (before ++ part :: after)%list)) name
  = Some (match decodeURIComponent value with
          | Some decoded => decoded
          | None => value
          end).
Proof.
  intros Hn Hsemi Hbefore Ht.
  exact (getCookieValue_first before part after name value Hn Hsemi Hbefore Ht).
Qed.

End Headers.

(** ** Access comes back, and challenges stay *)

Section Liveness.

Context {lib : Libraries}.

#[local] Arguments recordLoginAttempt : simpl never.

Lemma failed_since_old em since l :
  Forall (fun row => a_createdAt row < since) l -> failed_since em since l = 0.
Proof.
  unfold failed_since. induction 1 as [|row l Hrow _ IH]; [reflexivity|].
  cbn. assert ((since <=? a_createdAt row) = false) as -> by (apply Z.leb_gt; lia).
  rewrite andb_false_r. exact IH.
Qed.

(** X12. No account is shut out for good.  A login with the password bcrypt
    accepts is let through all three guards, and answered with a session,
    or with a challenge when TOTP is on, as soon as no window runs for the
    caller's address, the account's lockout expiry, if any, is not in the
    future, and every row of the ledger is more than an hour old. *)
Theorem access_comes_back (req : Request) (now : Z) (w : World)
    (email password : string) (u : User) :
  LoginSchema_parse req = Some (email, password) ->
  let ip := getClientIp req in
  let em := trim (toLowerCase email) in
  user_by_email em (users w) = Some u ->
  bcrypt_compare password (u_passwordHash u) = true ->
  window_closed ip now (loginAttempts w) = true ->
  (forall l, u_lockedUntil u = Some l -> l <= now) ->
  Forall (fun row => a_createdAt row < now - 60 * 60 * 1000) (ledger w) ->
  guards_verdict ip em now w = Passed
  /\ fst (login req now w)
     = if negb (u_totpEnabled u) || negb (truthy_opt (u_totpSecret u))
       then Sent {| status := 200; body := SessionBody (public_of u);
                    set_cookie := Some (jwt_sign (u_id u) now) |}
       else Sent {| status := 200;
                    body := ChallengeBody (uuid (drawn w)) (now + 120 * 1000)
                              (public_of u);
                    set_cookie := None |}.
Proof.
  intros Hp ip em Hu Hc Hwin Hlock Hold.
  assert (Hv : guards_verdict ip em now w = Passed).
  { unfold guards_verdict.
    assert (allowed (checkIpRateLimit_pure ip now (loginAttempts w)) = true) as ->.
    { unfold window_closed in Hwin. unfold checkIpRateLimit_pure.
      destruct (loginAttempts w !! ip_key ip) as [d|]; [|reflexivity].
      now rewrite Hwin. }
    assert (locked (checkAccountLockout_pure em now (users w)) = false) as ->.
    { unfold checkAccountLockout_pure. rewrite Hu.
      destruct (u_lockedUntil u) as [l|] eqn:El; [|reflexivity].
      specialize (Hlock l eq_refl).
      destruct (now <? l) eqn:E; [|reflexivity]. apply Z.ltb_lt in E. lia. }
    unfold checkEmailRateLimit_pure.
    rewrite (failed_since_old em (now - RATE_LIMIT.EMAIL_WINDOW_MS) (ledger w) Hold).
    reflexivity. }
  split; [exact Hv|].
  rewrite (login_eq _ _ _ _ _ Hp). cbn zeta. fold ip em.
  rewrite rate_limit_checks_eq, Hv.
  destruct (negb (u_totpEnabled u) || negb (truthy_opt (u_totpSecret u))) eqn:Ht.
  - now destruct (credential_validation_session ip em password (h_user_agent req) now
                    (add_event (EvCheckEmailRateLimit em)
                       (add_event (EvCheckAccountLockout em)
                          (add_event (EvCheckIpRateLimit ip) w))) u Hu Hc Ht)
      as (Hf & _).
  - apply orb_false_elim in Ht as [He Hs].
    apply negb_false_iff in He. apply negb_false_iff in Hs.
    now destruct (credential_validation_second_factor ip em password
                    (h_user_agent req) now
                    (add_event (EvCheckEmailRateLimit em)
                       (add_event (EvCheckAccountLockout em)
                          (add_event (EvCheckIpRateLimit ip) w))) u Hu Hc He Hs)
      as (Hf & _).
Qed.

Lemma challenge_by_id_kept (q : LoginChallenge -> bool) id l c :
  challenge_by_id id l = Some c -> q c = true ->
  challenge_by_id id (List.filter q l) = Some c.
Proof.
  unfold challenge_by_id. induction l as [|x l IH]; cbn; [discriminate|].
  destruct (String.eqb (c_id x) id) eqn:E.
  - intros [= ->] Hq. rewrite Hq. cbn. now rewrite E.
  - intros H Hq. destruct (q x); cbn; [rewrite E|]; auto.
Qed.

Lemma challenge_by_id_app id l l' c :
  challenge_by_id id l = Some c -> challenge_by_id id (l ++ l') = Some c.
Proof.
  unfold challenge_by_id. induction l as [|x l IH]; cbn; [discriminate|].
  destruct (String.eqb (c_id x) id); auto.
Qed.

Lemma pending_survives_step call t w id c :
  challenge_by_id id (challenges w) = Some c ->
  c_usedAt c = None -> t <= c_expiresAt c ->
  verified_with id (call, fst (serve call t w)) = false ->
  challenge_by_id id (challenges (snd (serve call t w))) = Some c.
Proof.
  intros Hc Hu Ht Hv.
  destruct (serve_table_step call t w)
    as [(req & id0 & code & c0 & -> & Hp & Hc0 & Hu0 & Hv0 & Hcs & _)
       | (_ & [[Hcs _] | (uid & Hcs & _)])]; rewrite Hcs.
  - rewrite challenge_by_id_mark.
    destruct (String.eqb id id0) eqn:E; [|exact Hc].
    apply String.eqb_eq in E. subst id0. congruence.
  - exact Hc.
  - apply challenge_by_id_app, challenge_by_id_kept; [exact Hc|].
    unfold stale_for. rewrite Hu.
    assert ((c_expiresAt c <? t) = false) as -> by (apply Z.ltb_ge; lia).
    now rewrite andb_false_r.
Qed.

(** X13. A pending challenge stays valid until it expires.  Through any run of
    calls made no later than its expiry, among them new logins of its owner
    and wrong codes, an unconsumed challenge that no call of the run
    verified is still in the table, unconsumed. *)
Theorem pending_challenge_survives (calls : list (Z * Call)) (w : World)
    (id : string) (c : LoginChallenge) :
  challenge_by_id id (challenges w) = Some c ->
  c_usedAt c = None ->
  forallb (fun tc => fst tc <=? c_expiresAt c) calls = true ->
  consumptions id calls (fst (serve_all calls w)) = O ->
  challenge_by_id id (challenges (snd (serve_all calls w))) = Some c.
Proof.
  intros Hc Hu. revert w Hc.
  induction calls as [|[t call] calls IH]; intros w Hc Ht Hn; [exact Hc|].
  cbn [forallb fst] in Ht. apply andb_prop in Ht as (Ht1 & Ht). apply Z.leb_le in Ht1.
  cbn [serve_all] in *. unfold bind in *.
  pose proof (pending_survives_step call t w id c Hc Hu Ht1) as Hstep.
  destruct (serve call t w) as [o w1]. cbn [fst snd] in *.
  specialize (IH w1).
  destruct (serve_all calls w1) as [os w2]. cbn [fst snd ret] in *.
  unfold consumptions in *. cbn [List.map snd List.combine List.filter] in Hn.
  destruct (verified_with id (call, o)); [discriminate|].
  apply IH; auto.
Qed.

Lemma user_by_id_lock id em t us :
  user_by_id id (lock_accounts em t us)
  = option_map (fun u => if String.eqb (u_email u) em
                         then set_lockedUntil (Some t) u else u)
      (user_by_id id us).
Proof.
  unfold user_by_id, lock_accounts.
  induction us as [|u us IH]; [reflexivity|].
  cbn. destruct (String.eqb (u_email u) em) eqn:E1; cbn;
    destruct (String.eqb (u_id u) id) eqn:E2; cbn; rewrite ?E1; auto.
Qed.

#[local] Arguments lock_accounts : simpl never.
#[local] Arguments user_by_id : simpl never.

(** X14. Wrong codes never use a challenge up.  After any number of wrong codes
    for a pending challenge, each refused with INVALID_TOTP, a code the
    authenticator accepts, given before the expiry, still gets the session:
    the handler keeps no count of the tries. *)
Theorem wrong_codes_do_not_block (tries : list (Z * Request)) (req : Request)
    (now : Z) (w : World) (id code secret : string) (c : LoginChallenge) (u : User) :
  challenge_by_id id (challenges w) = Some c ->
  c_usedAt c = None -> now < c_expiresAt c ->
  user_by_id (c_userId c) (users w) = Some u ->
  u_totpEnabled u = true ->
  u_totpSecret u = Some secret -> truthy secret = true ->
  forallb (wrong_try id secret (c_expiresAt c)) tries = true ->
  VerifyTotpSchema_parse req = Some (id, code) ->
  authenticator_verify code secret now = true ->
  let r := serve_all (as_totp_calls tries) w in
  Forall (fun o => o = Some (reject 401 (Some MsgInvalidTotp) (Some "INVALID_TOTP") None))
    (fst r)
  /\ fst (login_totp req now (snd r))
     = Sent {| status := 200; body := UserBody (public_of u);
               set_cookie := Some (jwt_sign (u_id u) now) |}.
Proof.
  intros Hc Hu He Ho Hen Hs Ht Htries Hp Hv r. subst r.
  revert w u Hc Ho Hen Hs.
  induction tries as [|[t rq] tries IH]; intros w u Hc Ho Hen Hs.
  - cbn. split; [constructor|].
    rewrite (login_totp_eq _ _ _ _ _ Hp), Hc, Ho.
    now destruct (verify_found_verified req code now w c u secret Hu He Hen Hs Ht Hv).
  - cbn [forallb] in Htries. apply andb_prop in Htries as (Htry & Htries).
    unfold wrong_try in Htry. cbn [fst snd] in Htry.
    destruct (VerifyTotpSchema_parse rq) as [[id' code']|] eqn:Hp'; [|discriminate].
    apply andb_prop in Htry as (Htry & Hlt). apply andb_prop in Htry as (Hid & Hwrong).
    apply String.eqb_eq in Hid. subst id'.
    apply negb_true_iff in Hwrong. apply Z.ltb_lt in Hlt.
    change (as_totp_calls ((t, rq) :: tries))
      with ((t, PostLoginTotp rq) :: as_totp_calls tries).
    cbn [serve_all serve]. unfold bind.
    rewrite (login_totp_eq _ _ _ _ _ Hp'), Hc, Ho.
    assert (Hstep : exists w1 u1,
              verify_found rq code' t (Some (c, Some u)) w
              = (reject 401 (Some MsgInvalidTotp) (Some "INVALID_TOTP") None, w1)
              /\ challenges w1 = challenges w
              /\ user_by_id (c_userId c) (users w1) = Some u1
              /\ u_totpEnabled u1 = true /\ u_totpSecret u1 = Some secret
              /\ public_of u1 = public_of u /\ u_id u1 = u_id u).
    { unfold verify_found. rewrite Hu.
      assert ((c_expiresAt c <=? t) = false) as -> by (apply Z.leb_gt; lia).
      rewrite Hen, Hs. cbn [truthy_opt negb orb or_else]. rewrite Ht. cbn [negb orb].
      unfold authenticator_verify_call, bind, emit, modify, ret,
        recordIpAttempt; cbn.
      rewrite Hwrong. cbn. rewrite recordLoginAttempt_failure. cbn zeta.
      destruct (RATE_LIMIT.LOCKOUT_THRESHOLD <=? _); cbn.
      - eexists. eexists. split; [reflexivity|]. cbn.
        split; [reflexivity|]. rewrite user_by_id_lock, Ho. cbn.
        split; [reflexivity|].
        destruct (String.eqb (u_email u) (u_email u)); cbn; repeat split; auto.
      - eexists. exists u. split; [reflexivity|]. cbn. repeat split; auto. }
    destruct Hstep as (w1 & u1 & -> & Hcs & Ho1 & Hen1 & Hs1 & Hpub & Hid1).
    unfold ret. cbv beta iota zeta.
    rewrite <- Hcs in Hc.
    destruct (IH Htries w1 u1 Hc Ho1 Hen1 Hs1) as [IHf IHs].
    destruct (serve_all (as_totp_calls tries) w1) as [os w2]. cbn [fst snd ret] in *.
    split; [constructor; [reflexivity|exact IHf]|].
    rewrite IHs, Hpub, Hid1. reflexivity.
Qed.

End Liveness.

(** ** From the session issuer to the gate *)

Section Sessions.

Context {lib : Libraries}.

(** Every session the two handlers issue is a token signed at that instant
    for the id of an account of the table. *)
Lemma issued_session call now w o tok :
  fst (serve call now w) = Some o -> session_of o = Some tok ->
  exists u, In u (users w) /\ tok = jwt_sign (u_id u) now.
Proof.
  intros Ho Hs.
  destruct call as [req|req|]; cbn [serve] in *; unfold bind, ret in *;
    [| |discriminate].
  - destruct (LoginSchema_parse req) as [[email password]|] eqn:Hp.
    2:{ rewrite (login_unparsed _ _ _ Hp) in Ho. cbn in Ho.
        injection Ho as <-. discriminate. }
    rewrite (login_eq _ _ _ _ _ Hp) in *. cbn zeta in *.
    destruct (rate_limit_checks _ _ _ _) as [[early|] w1] eqn:Hg.
    { apply early_response_not_failed in Hg as (_ & _ & Hn).
      cbn in Ho. injection Ho as <-. congruence. }
    apply guards_passed_frame in Hg as (_ & Hus & _).
    match type of Ho with
    | context [credential_validation ?a ?b ?c ?d ?e ?f] =>
        pose proof (credential_validation_session_inv a b c d e f) as Hinv;
        pose proof (credential_validation_session a b c d e f) as Hok;
        destruct (credential_validation a b c d e f) as [o' w2]
    end.
    cbn [fst snd] in *. injection Ho as <-.
    destruct Hinv as (u & Hu & Hc & Ht); [congruence|].
    destruct (Hok u Hu Hc Ht) as (Hf & _). subst o'. cbn in Hs.
    destruct (user_by_email_sound _ _ _ Hu) as [_ Hin].
    exists u. split; [congruence|congruence].
  - destruct (VerifyTotpSchema_parse req) as [[id code]|] eqn:Hp.
    2:{ rewrite (login_totp_unparsed _ _ _ Hp) in Ho. cbn in Ho.
        injection Ho as <-. discriminate. }
    rewrite (login_totp_eq _ _ _ _ _ Hp) in *.
    match type of Ho with
    | context [verify_found ?a ?b ?c ?d ?e] =>
        pose proof (verify_found_session_inv a b c d e) as Hinv;
        destruct (verify_found a b c d e) as [o' w2] eqn:Hvf
    end.
    cbn [fst snd] in *. injection Ho as <-.
    destruct Hinv as (c & u & secret & Hf & Hu & He & Hen & Hsec & Ht & Hv);
      [congruence|].
    destruct (challenge_by_id id (challenges w)) as [c'|]; [|discriminate].
    injection Hf as -> Hown.
    destruct (user_by_id_sound _ _ _ Hown) as [_ Hin].
    destruct (verify_found_verified req code now w c u secret Hu He Hen Hsec Ht Hv)
      as (Hfst & _).
    rewrite Hown in Hvf. rewrite Hvf in Hfst. cbn in Hfst. subst o'. cbn in Hs.
    exists u. split; [exact Hin|congruence].
Qed.

(** X15. A session that was issued is accepted.  When [jwt.verify] accepts at
    [now'] what [jwt.sign] made at [now], the token of a successful login
    or second factor, sent back in an Authorization header after "Bearer ",
    or alone in the [eco_token] cookie, passes both modes of the gate as
    the account it was issued to. *)
Theorem issued_session_is_accepted (call : Call) (now now' : Z) (w : World)
    (o : Outcome) (tok : string) (req' : Request) :
  fst (serve call now w) = Some o ->
  session_of o = Some tok ->
  (forall sub, jwt_verify (jwt_sign sub now) now' = Some (Some sub)) ->
  truthy tok = true ->
  (forall u, In u (users w) -> truthy (u_id u) = true) ->
  h_authorization req' = Some ("Bearer " ++ tok)
  \/ (h_authorization req' = None
      /\ h_cookie req' = Some (AUTH_COOKIE ++ String "=" tok)
      /\ has_char ";" tok = false
      /\ trim (AUTH_COOKIE ++ String "=" tok) = AUTH_COOKIE ++ String "=" tok
      /\ match decodeURIComponent tok with
         | Some decoded => decoded = tok
         | None => True
         end) ->
  exists u,
    In u (users w)
    /\ requireAuth req' now' = Proceed (Some (u_id u))
    /\ optionalAuth req' now' = Proceed (Some (u_id u)).
Proof.
  intros Ho Hs Hjwt Htok Hids Hsent.
  destruct (issued_session call now w o tok Ho Hs) as (u & Hin & ->).
  exists u. split; [exact Hin|].
  assert (Hget : getTokenFromRequest req' = Some (jwt_sign (u_id u) now)).
  { destruct Hsent as [Hh|(Hh & Hc & Hsemi & Htrim & Hdec)];
      unfold getTokenFromRequest; rewrite Hh.
    - reflexivity.
    - rewrite Hc, getCookieValue_parts by reflexivity.
      assert (Hs1 : has_char ";" (AUTH_COOKIE ++ String "=" (jwt_sign (u_id u) now))
                    = false) by (simpl; exact Hsemi).
      rewrite (split_no_sep _ _ Hs1). cbn [cookie_in_parts].
      rewrite Htrim, split_app, split_no_sep by reflexivity. cbn [app].
      rewrite String.eqb_refl, join_split. unfold decode_or_raw.
      destruct (decodeURIComponent _); congruence. }
  unfold requireAuth, optionalAuth. rewrite Hget. cbn. rewrite Htok. cbn.
  rewrite Hjwt. cbn. now rewrite (Hids u Hin).
Qed.

End Sessions.

(** ** The second factor and the password of an account *)

Section AccountProps.

Context {lib : Libraries} {acc : AccountLibraries}.

#[local] Arguments recordLoginAttempt : simpl never.

Lemma find_updated (p : User -> bool) id data us :
  (forall x, p (data x) = p x) ->
  List.find p (updated_rows id data us)
  = option_map (fun x => if String.eqb (u_id x) id then data x else x)
      (List.find p us).
Proof.
  intros Hp. unfold updated_rows.
  induction us as [|x us IH]; cbn; [reflexivity|].
  destruct (String.eqb (u_id x) id) eqn:E.
  - rewrite Hp. destruct (p x); cbn; [now rewrite E|exact IH].
  - destruct (p x); cbn; [now rewrite E|exact IH].
Qed.

Lemma user_by_id_updated id data us u :
  (forall x, u_id (data x) = u_id x) ->
  user_by_id (u_id u) us = Some u ->
  user_by_id (u_id u) (updated_rows id data us)
  = Some (if String.eqb (u_id u) id then data u else u).
Proof.
  intros Hd Hu. unfold user_by_id in *.
  rewrite find_updated by (intros x; now rewrite Hd).
  now rewrite Hu.
Qed.

Lemma user_by_email_updated em id data us :
  (forall x, u_email (data x) = u_email x) ->
  user_by_email em (updated_rows id data us)
  = option_map (fun x => if String.eqb (u_id x) id then data x else x)
      (user_by_email em us).
Proof.
  intros Hd. unfold user_by_email.
  apply find_updated. intros x. now rewrite Hd.
Qed.

Lemma lockout_updated em now id data us :
  (forall x, u_email (data x) = u_email x) ->
  (forall x, u_lockedUntil (data x) = u_lockedUntil x) ->
  checkAccountLockout_pure em now (updated_rows id data us)
  = checkAccountLockout_pure em now us.
Proof.
  intros He Hl. unfold checkAccountLockout_pure.
  rewrite user_by_email_updated by exact He.
  destruct (user_by_email em us) as [x|]; cbn; [|reflexivity].
  destruct (String.eqb (u_id x) id); [rewrite Hl|]; reflexivity.
Qed.

Lemma guards_verdict_ext ip em now w w' :
  loginAttempts w' = loginAttempts w -> ledger w' = ledger w ->
  checkAccountLockout_pure em now (users w')
  = checkAccountLockout_pure em now (users w) ->
  guards_verdict ip em now w' = guards_verdict ip em now w.
Proof.
  unfold guards_verdict. intros -> -> ->. reflexivity.
Qed.

Lemma update_user_found id data w u :
  user_by_id id (users w) = Some u ->
  update_user id data w = (true, set_users (updated_rows id data (users w)) w).
Proof.
  intros Hu. unfold update_user, bind, get, modify, ret. now rewrite Hu.
Qed.

Lemma update_user_missing id data w :
  user_by_id id (users w) = None -> update_user id data w = (false, w).
Proof.
  intros Hu. unfold update_user, bind, get, modify, ret. now rewrite Hu.
Qed.

(** A login that passes the guards is the credential block, run on a world
    that differs in its trace only. *)
Lemma login_passed req now w email password :
  LoginSchema_parse req = Some (email, password) ->
  guards_verdict (getClientIp req) (trim (toLowerCase email)) now w = Passed ->
  exists w',
    login req now w
    = credential_validation (getClientIp req) (trim (toLowerCase email))
        password (h_user_agent req) now w'
    /\ users w' = users w /\ ledger w' = ledger w
    /\ loginAttempts w' = loginAttempts w /\ challenges w' = challenges w
    /\ drawn w' = drawn w.
Proof.
  intros Hp Hg. rewrite (login_eq _ _ _ _ _ Hp). cbn zeta.
  rewrite rate_limit_checks_eq, Hg.
  eexists. split; [reflexivity|]. cbn. tauto.
Qed.

Lemma totp_setup_ok req now generated w u :
  requireAuth req now = Proceed (Some (u_id u)) ->
  user_by_id (u_id u) (users w) = Some u ->
  u_totpEnabled u = false ->
  totp_setup req now generated w
  = (account_ok (TotpSetupBody generated
                   (keyuri (u_email u) TOTP_ISSUER generated)
                   TOTP_ISSUER (u_email u)) None,
     set_users (updated_rows (u_id u)
                  (fun x => set_totpEnabled false (set_totpSecret (Some generated) x))
                  (users w)) w).
Proof.
  intros Ha Hu He. unfold totp_setup, behind_requireAuth. rewrite Ha.
  unfold bind at 1. unfold get at 1. cbv beta iota zeta. rewrite Hu, He.
  unfold bind. rewrite (update_user_found _ _ _ _ Hu). reflexivity.
Qed.

Lemma totp_enable_ok req now w u code secret :
  requireAuth req now = Proceed (Some (u_id u)) ->
  EnableTotpSchema_parse req = Some code ->
  user_by_id (u_id u) (users w) = Some u ->
  u_totpSecret u = Some secret -> truthy secret = true ->
  authenticator_verify code secret now = true ->
  totp_enable req now w
  = (account_ok (TotpEnabledBody true) None,
     set_users (updated_rows (u_id u) (set_totpEnabled true) (users w))
       (add_event (EvTotpVerify code secret) w)).
Proof.
  intros Ha Hp Hu Hs Ht Hv. unfold totp_enable, behind_requireAuth.
  rewrite Ha, Hp. unfold bind at 1. unfold get at 1. cbv beta iota zeta.
  rewrite Hu, Hs. cbn [truthy_opt negb or_else]. rewrite Ht. cbn [negb].
  unfold authenticator_verify_call, bind, emit, modify, ret. cbv beta iota zeta.
  rewrite Hv. cbn [negb].
  rewrite (update_user_found _ _ (add_event _ w) u) by exact Hu. reflexivity.
Qed.

Lemma totp_disable_ok req now w u :
  requireAuth req now = Proceed (Some (u_id u)) ->
  user_by_id (u_id u) (users w) = Some u ->
  totp_disable req now w
  = (account_ok (TotpEnabledBody false) None,
     set_users (updated_rows (u_id u) (set_totpEnabled false) (users w)) w).
Proof.
  intros Ha Hu. unfold totp_disable, behind_requireAuth. rewrite Ha.
  unfold bind. rewrite (update_user_found _ _ _ _ Hu). reflexivity.
Qed.

(** X16. Enrolment round trip.  An account without a second factor that runs
    the setup and then enables it with a code the authenticator accepts for
    the secret the setup returned, is asked for the second factor from then
    on: its next password login, the guards being passed, is answered with
    a challenge and no session. *)
Theorem totp_enrolment_round_trip (reqS reqE reqL : Request) (t1 t2 t3 : Z)
    (generated code email password : string) (u : User) (w : World) :
  requireAuth reqS t1 = Proceed (Some (u_id u)) ->
  requireAuth reqE t2 = Proceed (Some (u_id u)) ->
  user_by_id (u_id u) (users w) = Some u ->
  user_by_email (u_email u) (users w) = Some u ->
  u_totpEnabled u = false ->
  truthy generated = true ->
  EnableTotpSchema_parse reqE = Some code ->
  authenticator_verify code generated t2 = true ->
  LoginSchema_parse reqL = Some (email, password) ->
  trim (toLowerCase email) = u_email u ->
  bcrypt_compare password (u_passwordHash u) = true ->
  guards_verdict (getClientIp reqL) (u_email u) t3 w = Passed ->
  let '(o1, w1) := totp_setup reqS t1 generated w in
  let '(o2, w2) := totp_enable reqE t2 w1 in
  let '(o3, w3) := login reqL t3 w2 in
  o1 = account_ok (TotpSetupBody generated
                     (keyuri (u_email u) TOTP_ISSUER generated)
                     TOTP_ISSUER (u_email u)) None
  /\ o2 = account_ok (TotpEnabledBody true) None
  /\ o3 = Sent {| status := 200;
                  body := ChallengeBody (uuid (drawn w)) (t3 + CHALLENGE_WINDOW_MS)
                            (public_of u);
                  set_cookie := None |}
  /\ user_by_id (u_id u) (users w3)
     = Some (set_totpEnabled true (set_totpSecret (Some generated) u)).
Proof.
  intros HaS HaE Hid Hem Hoff Hg Hp Hv Hl Hn Hpw Hguards.
  rewrite (totp_setup_ok _ _ _ _ _ HaS Hid Hoff).
  set (f1 := fun x => set_totpEnabled false (set_totpSecret (Some generated) x)).
  set (w1 := set_users _ w).
  assert (Hid1 : user_by_id (u_id u) (users w1) = Some (f1 u)).
  { unfold w1. cbn [users set_users].
    rewrite (user_by_id_updated (u_id u) f1 _ u (fun _ => eq_refl) Hid).
    now rewrite String.eqb_refl. }
  rewrite (totp_enable_ok reqE t2 w1 (f1 u) code generated HaE Hp Hid1 eq_refl Hg Hv).
  change (u_id (f1 u)) with (u_id u).
  set (w2 := set_users _ _).
  assert (Hem2 : user_by_email (u_email u) (users w2)
                 = Some (set_totpEnabled true (f1 u))).
  { unfold w2, w1. cbn [users set_users add_event].
    rewrite !user_by_email_updated by reflexivity. rewrite Hem.
    cbn [option_map]. rewrite String.eqb_refl.
    change (u_id (f1 u)) with (u_id u). now rewrite String.eqb_refl. }
  assert (Hid2 : user_by_id (u_id u) (users w2)
                 = Some (set_totpEnabled true (f1 u))).
  { unfold w2. cbn [users set_users add_event].
    pose proof (user_by_id_updated (u_id u) (set_totpEnabled true) _ (f1 u)
                  (fun _ => eq_refl) Hid1) as H.
    change (u_id (f1 u)) with (u_id u) in H. rewrite H.
    now rewrite String.eqb_refl. }
  assert (Hg2 : guards_verdict (getClientIp reqL) (trim (toLowerCase email)) t3 w2
                = Passed).
  { rewrite Hn, <- Hguards. apply guards_verdict_ext; try reflexivity.
    unfold w2, w1. cbn [users set_users add_event].
    now rewrite !lockout_updated by reflexivity. }
  destruct (login_passed reqL t3 w2 email password Hl Hg2)
    as (w2' & -> & Hus & Hle & Hla & Hch & Hdr).
  rewrite Hn. rewrite <- Hus in Hem2, Hid2.
  destruct (credential_validation_second_factor (getClientIp reqL) (u_email u)
              password (h_user_agent reqL) t3 w2' _ Hem2 Hpw eq_refl)
    as (Hf & _ & _ & _ & Hus3 & _).
  { cbn. exact Hg. }
  destruct (credential_validation _ _ _ _ _ w2') as [o3 w3].
  cbn [fst snd] in *. subst o3. rewrite Hus3, Hdr.
  repeat split; auto.
Qed.

(** X17. The second factor is switched on only with a valid code.  POST
    /totp/enable answers 200 only to a request that carries the session of
    an account with a stored secret and a well-formed code the
    authenticator accepts for that secret; it then sets the flag of that
    account and leaves its secret as it is.  Any other answer leaves the
    accounts untouched. *)
Theorem second_factor_needs_a_valid_code (req : Request) (now : Z) (w : World) :
  let r := totp_enable req now w in
  if answered_ok (fst r) then
    exists u code secret,
      requireAuth req now = Proceed (Some (u_id u))
      /\ user_by_id (u_id u) (users w) = Some u
      /\ EnableTotpSchema_parse req = Some code
      /\ u_totpSecret u = Some secret /\ truthy secret = true
      /\ authenticator_verify code secret now = true
      /\ users (snd r) = updated_rows (u_id u) (set_totpEnabled true) (users w)
  else users (snd r) = users w.
Proof.
  cbv zeta. destruct (totp_enable req now w) as [o w'] eqn:E. cbn [fst snd].
  revert E. unfold totp_enable, behind_requireAuth.
  destruct (requireAuth req now) as [[uid|]|] eqn:Ha;
    [| intros E; injection E as <- <-; reflexivity
     | intros E; injection E as <- <-; reflexivity].
  destruct (EnableTotpSchema_parse req) as [code|] eqn:Hp;
    [|intros E; injection E as <- <-; reflexivity].
  unfold bind at 1. unfold get at 1. cbv beta iota zeta.
  destruct (user_by_id uid (users w)) as [u|] eqn:Hu;
    [|intros E; injection E as <- <-; reflexivity].
  destruct (user_by_id_sound _ _ _ Hu) as [<- _].
  destruct (u_totpSecret u) as [secret|] eqn:Hs;
    [|intros E; injection E as <- <-; reflexivity].
  cbn [truthy_opt negb or_else].
  destruct (truthy secret) eqn:Ht;
    [|intros E; injection E as <- <-; reflexivity].
  cbn [negb].
  unfold authenticator_verify_call, bind, emit, modify, ret. cbv beta iota zeta.
  destruct (authenticator_verify code secret now) eqn:Hv;
    [|intros E; injection E as <- <-; reflexivity].
  cbn [negb].
  rewrite (update_user_found _ _ (add_event _ w) u) by exact Hu.
  intros E; injection E as <- <-.
  cbn. exists u, code, secret. auto 10.
Qed.

Lemma user_by_id_unique us u :
  NoDup (List.map u_id us) -> In u us -> user_by_id (u_id u) us = Some u.
Proof.
  unfold user_by_id. induction us as [|x us IH]; cbn; [tauto|].
  intros Hn [->|Hin].
  - now rewrite String.eqb_refl.
  - apply NoDup_cons in Hn as [Hx Hn].
    destruct (String.eqb (u_id x) (u_id u)) eqn:E; [|auto].
    apply String.eqb_eq in E. exfalso. apply Hx. rewrite E.
    apply list_elem_of_In, List.in_map, Hin.
Qed.

Lemma updated_rows_other id data us u :
  In u us -> u_id u <> id -> In u (updated_rows id data us).
Proof.
  intros Hin Hne. unfold updated_rows. apply List.in_map_iff.
  exists u. split; [|exact Hin].
  apply String.eqb_neq in Hne. now rewrite Hne.
Qed.

(** X18. The setup never replaces the secret of an enabled second factor.  With
    ids that are a key of the table, an account whose second factor is
    enabled is the same row after any POST /totp/setup, whoever calls it
    and whatever secret was generated. *)
Theorem setup_spares_an_enabled_second_factor (req : Request) (now : Z)
    (generated : string) (w : World) (u : User) :
  NoDup (List.map u_id (users w)) ->
  In u (users w) ->
  u_totpEnabled u = true ->
  In u (users (snd (totp_setup req now generated w))).
Proof.
  intros Hn Hin Hen. unfold totp_setup, behind_requireAuth.
  destruct (requireAuth req now) as [[uid|]|]; [|exact Hin|exact Hin].
  unfold bind at 1. unfold get at 1. cbv beta iota zeta.
  destruct (user_by_id uid (users w)) as [x|] eqn:Hx; [|exact Hin].
  destruct (u_totpEnabled x) eqn:Hex; [exact Hin|].
  unfold bind. rewrite (update_user_found _ _ _ _ Hx). cbn.
  apply updated_rows_other; [exact Hin|].
  intros <-. rewrite (user_by_id_unique _ _ Hn Hin) in Hx. congruence.
Qed.

(** X19. Switching the second factor off takes a session and nothing else.
    POST /totp/disable, whatever its body, answers 200 to the session of
    an account, keeps the stored secret, and the account's next password
    login, the guards being passed, is answered with a session at once. *)
Theorem disabling_needs_no_code (reqD reqL : Request) (t1 t2 : Z)
    (email password : string) (u : User) (w : World) :
  requireAuth reqD t1 = Proceed (Some (u_id u)) ->
  user_by_id (u_id u) (users w) = Some u ->
  user_by_email (u_email u) (users w) = Some u ->
  LoginSchema_parse reqL = Some (email, password) ->
  trim (toLowerCase email) = u_email u ->
  bcrypt_compare password (u_passwordHash u) = true ->
  guards_verdict (getClientIp reqL) (u_email u) t2 w = Passed ->
  let '(o1, w1) := totp_disable reqD t1 w in
  let '(o2, w2) := login reqL t2 w1 in
  o1 = account_ok (TotpEnabledBody false) None
  /\ user_by_id (u_id u) (users w1) = Some (set_totpEnabled false u)
  /\ o2 = Sent {| status := 200; body := SessionBody (public_of u);
                  set_cookie := Some (jwt_sign (u_id u) t2) |}.
Proof.
  intros Ha Hid Hem Hl Hn Hpw Hguards.
  rewrite (totp_disable_ok _ _ _ _ Ha Hid).
  set (w1 := set_users _ w).
  assert (Hid1 : user_by_id (u_id u) (users w1) = Some (set_totpEnabled false u)).
  { unfold w1. cbn [users set_users].
    rewrite (user_by_id_updated (u_id u) (set_totpEnabled false) _ u
               (fun _ => eq_refl) Hid).
    now rewrite String.eqb_refl. }
  assert (Hem1 : user_by_email (u_email u) (users w1)
                 = Some (set_totpEnabled false u)).
  { unfold w1. cbn [users set_users].
    rewrite user_by_email_updated by reflexivity. rewrite Hem.
    cbn [option_map]. now rewrite String.eqb_refl. }
  assert (Hg1 : guards_verdict (getClientIp reqL) (trim (toLowerCase email)) t2 w1
                = Passed).
  { rewrite Hn, <- Hguards. apply guards_verdict_ext; try reflexivity.
    unfold w1. cbn [users set_users].
    now rewrite lockout_updated by reflexivity. }
  destruct (login_passed reqL t2 w1 email password Hl Hg1)
    as (w1' & -> & Hus & _).
  rewrite Hn. rewrite <- Hus in Hem1.
  destruct (credential_validation_session (getClientIp reqL) (u_email u)
              password (h_user_agent reqL) t2 w1' _ Hem1 Hpw eq_refl)
    as (Hf & _).
  destruct (credential_validation _ _ _ _ _ w1') as [o2 w2].
  cbn [fst snd] in *. subst o2. auto.
Qed.

(** X20. Switching the second factor off strands the pending challenges.  Once
    the owner of a pending, unexpired challenge has disabled the second
    factor, a verification of that challenge is answered 403 whatever the
    code, and changes nothing: the challenge is not consumed and no attempt
    is recorded. *)
Theorem disabling_strands_pending_challenges (reqD reqT : Request) (t1 t2 : Z)
    (id code : string) (c : LoginChallenge) (u : User) (w : World) :
  requireAuth reqD t1 = Proceed (Some (u_id u)) ->
  user_by_id (u_id u) (users w) = Some u ->
  VerifyTotpSchema_parse reqT = Some (id, code) ->
  challenge_by_id id (challenges w) = Some c ->
  c_userId c = u_id u -> c_usedAt c = None -> t2 < c_expiresAt c ->
  let w1 := snd (totp_disable reqD t1 w) in
  login_totp reqT t2 w1
  = (reject 403 (Some MsgTotpNotConfigured) None None, w1).
Proof.
  intros Ha Hid Hp Hc Hown Hun Hexp.
  rewrite (totp_disable_ok _ _ _ _ Ha Hid). cbn [snd].
  rewrite (login_totp_eq _ _ _ _ _ Hp). cbn [challenges users set_users].
  rewrite Hc, Hown.
  rewrite (user_by_id_updated (u_id u) (set_totpEnabled false) _ u
             (fun _ => eq_refl) Hid).
  rewrite String.eqb_refl.
  unfold verify_found. rewrite Hun.
  apply Z.leb_gt in Hexp. rewrite Hexp. reflexivity.
Qed.

Lemma serve_account_step c req now w :
  account_step req now w (snd (serve_account c req now w)).
Proof.
  assert (Hsame : forall w', loginAttempts w' = loginAttempts w ->
            ledger w' = ledger w -> challenges w' = challenges w ->
            drawn w' = drawn w -> users w' = users w -> account_step req now w w').
  { intros w' H1 H2 H3 H4 H5. unfold account_step. tauto. }
  assert (Hupd : forall uid data w0, requireAuth req now = Proceed (Some uid) ->
            loginAttempts w0 = loginAttempts w -> ledger w0 = ledger w ->
            challenges w0 = challenges w -> drawn w0 = drawn w ->
            users w0 = users w ->
            account_step req now w
              (set_users (updated_rows uid data (users w0)) w0)).
  { intros uid data w0 Ha H1 H2 H3 H4 H5. unfold account_step. cbn.
    repeat split; auto. right. exists uid, data. rewrite H5. auto. }
  destruct c as [|generated| | |form salt]; cbn [serve_account];
    unfold totp_status, totp_setup, totp_enable, totp_disable, change_password,
      behind_requireAuth;
    destruct (requireAuth req now) as [[uid|]|] eqn:Ha;
    try (apply Hsame; reflexivity).
  - unfold bind, get, ret.
    destruct (user_by_id uid (users w)); apply Hsame; reflexivity.
  - unfold bind at 1. unfold get at 1. cbv beta iota zeta.
    destruct (user_by_id uid (users w)) as [x|] eqn:Hx;
      [|apply Hsame; reflexivity].
    destruct (u_totpEnabled x); [apply Hsame; reflexivity|].
    unfold bind. rewrite (update_user_found _ _ _ _ Hx). cbn [negb snd].
    apply Hupd; auto.
  - destruct (EnableTotpSchema_parse req) as [code|]; [|apply Hsame; reflexivity].
    unfold bind at 1. unfold get at 1. cbv beta iota zeta.
    destruct (user_by_id uid (users w)) as [x|] eqn:Hx;
      [|apply Hsame; reflexivity].
    destruct (negb (truthy_opt (u_totpSecret x))); [apply Hsame; reflexivity|].
    unfold authenticator_verify_call, bind, emit, modify, ret.
    cbv beta iota zeta.
    destruct (authenticator_verify _ _ _); cbn [negb];
      [|apply Hsame; reflexivity].
    rewrite (update_user_found _ _ (add_event _ w) x) by exact Hx. cbn [negb snd].
    apply Hupd; auto.
  - unfold bind.
    destruct (user_by_id uid (users w)) as [x|] eqn:Hx.
    + rewrite (update_user_found _ _ _ _ Hx). cbn [negb snd]. apply Hupd; auto.
    + rewrite (update_user_missing _ _ _ Hx). apply Hsame; reflexivity.
  - destruct (ChangePasswordSchema_parse form) as [[[current new] code]|];
      [|apply Hsame; reflexivity].
    unfold bind at 1. unfold get at 1. cbv beta iota zeta.
    destruct (user_by_id uid (users w)) as [x|] eqn:Hx;
      [|apply Hsame; reflexivity].
    unfold bcrypt_compare_call, authenticator_verify_call, jwt_sign_call,
      bind, emit, modify, ret. cbv beta iota zeta.
    destruct (bcrypt_compare current _); cbn [negb]; [|apply Hsame; reflexivity].
    destruct (bcrypt_compare new _); [apply Hsame; reflexivity|].
    destruct (u_totpEnabled x && truthy_opt (u_totpSecret x)).
    + destruct (negb (truthy_opt code)); [apply Hsame; reflexivity|].
      destruct (authenticator_verify _ _ _); cbn [negb];
        [|apply Hsame; reflexivity].
      match goal with
      | |- context [update_user uid ?d ?w0] =>
          rewrite (update_user_found uid d w0 x) by exact Hx
      end.
      cbn [negb snd]. unfold account_step. cbn.
      repeat split; auto. right. eauto.
    + match goal with
      | |- context [update_user uid ?d ?w0] =>
          rewrite (update_user_found uid d w0 x) by exact Hx
      end.
      cbn [negb snd]. unfold account_step. cbn.
      repeat split; auto. right. eauto.
Qed.

(** X21. These routes touch the caller's account only.  Whatever the request,
    GET /totp, POST /totp/setup, /totp/enable, /totp/disable and /password
    leave the IP tracker, the ledger of attempts and the challenges as they
    are, and leave every account as it is but the one the request's token
    names. *)
Theorem account_routes_touch_only_the_caller (c : AccountCall) (req : Request)
    (now : Z) (w : World) :
  let w' := snd (serve_account c req now w) in
  loginAttempts w' = loginAttempts w /\ ledger w' = ledger w
  /\ challenges w' = challenges w /\ drawn w' = drawn w
  /\ forall u, In u (users w) ->
       requireAuth req now <> Proceed (Some (u_id u)) -> In u (users w').
Proof.
  intros w'. destruct (serve_account_step c req now w)
    as (H1 & H2 & H3 & H4 & H5). fold w' in H1, H2, H3, H4, H5.
  repeat split; auto.
  intros u Hin Hne. destruct H5 as [->|(uid & data & Ha & ->)]; [exact Hin|].
  apply updated_rows_other; [exact Hin|]. intros <-. contradiction.
Qed.

End AccountProps.

(** ** The password of an account *)

Section Password.

Context {lib : Libraries} {acc : AccountLibraries}.

#[local] Arguments recordLoginAttempt : simpl never.

Lemma ChangePasswordSchema_fields form current new code :
  ChangePasswordSchema_parse form = Some (current, new, code) ->
  currentPassword form = Some current /\ newPassword form = Some new
  /\ totpCode form = code.
Proof.
  unfold ChangePasswordSchema_parse.
  destruct (currentPassword form) as [c|]; [|discriminate].
  destruct (newPassword form) as [n|]; [|discriminate].
  destruct (_ && _); [|discriminate].
  intros E. injection E as -> -> ->. auto.
Qed.

(** The two ways POST /password ends: with 200, which takes the session
    of an account, its current password, a new one the stored hash does not
    match and, when the account has a second factor, a code for it; or with
    the accounts as they were. *)
Lemma change_password_cases req form now salt w :
  let r := change_password req form now salt w in
  if answered_ok (fst r) then
    exists u current new code,
      requireAuth req now = Proceed (Some (u_id u))
      /\ user_by_id (u_id u) (users w) = Some u
      /\ ChangePasswordSchema_parse form = Some (current, new, code)
      /\ bcrypt_compare current (u_passwordHash u) = true
      /\ bcrypt_compare new (u_passwordHash u) = false
      /\ (u_totpEnabled u && truthy_opt (u_totpSecret u) = true ->
          exists c s, code = Some c /\ u_totpSecret u = Some s
                      /\ authenticator_verify c s now = true)
      /\ fst r = account_ok OkBody (Some (jwt_sign (u_id u) now))
      /\ users (snd r)
         = updated_rows (u_id u) (set_passwordHash (bcrypt_hash new salt)) (users w)
  else users (snd r) = users w.
Proof.
  cbv zeta. destruct (change_password req form now salt w) as [o w'] eqn:E.
  cbn [fst snd]. revert E. unfold change_password, behind_requireAuth.
  destruct (requireAuth req now) as [[uid|]|] eqn:Ha;
    [| intros E; injection E as <- <-; reflexivity
     | intros E; injection E as <- <-; reflexivity].
  destruct (ChangePasswordSchema_parse form) as [[[current new] code]|] eqn:Hp;
    [|intros E; injection E as <- <-; reflexivity].
  unfold bind at 1. unfold get at 1. cbv beta iota zeta.
  destruct (user_by_id uid (users w)) as [u|] eqn:Hu;
    [|intros E; injection E as <- <-; reflexivity].
  destruct (user_by_id_sound _ _ _ Hu) as [<- _].
  unfold bcrypt_compare_call, authenticator_verify_call, jwt_sign_call,
    bind, emit, modify, ret. cbv beta iota zeta.
  destruct (bcrypt_compare current (u_passwordHash u)) eqn:Hc; cbn [negb];
    [|intros E; injection E as <- <-; reflexivity].
  destruct (bcrypt_compare new (u_passwordHash u)) eqn:Hs;
    [intros E; injection E as <- <-; reflexivity|].
  destruct (u_totpEnabled u && truthy_opt (u_totpSecret u)) eqn:Ht.
  - destruct code as [c|]; cbn [truthy_opt negb or_else];
      [|intros E; injection E as <- <-; reflexivity].
    destruct (truthy c) eqn:Hc'; cbn [negb];
      [|intros E; injection E as <- <-; reflexivity].
    apply andb_true_iff in Ht as [_ Ht].
    destruct (u_totpSecret u) as [s|] eqn:Hsec; [|discriminate].
    cbn [truthy_opt] in Ht. cbn [or_else]. rewrite Ht.
    destruct (authenticator_verify c s now) eqn:Hv; cbn [negb];
      [|intros E; injection E as <- <-; reflexivity].
    match goal with
    | |- context [update_user (u_id u) ?d ?w0] =>
        rewrite (update_user_found (u_id u) d w0 u) by exact Hu
    end.
    intros E; injection E as <- <-. cbn.
    exists u, current, new, (Some c). repeat split; auto.
    intros _. exists c, s. auto.
  - match goal with
    | |- context [update_user (u_id u) ?d ?w0] =>
        rewrite (update_user_found (u_id u) d w0 u) by exact Hu
    end.
    intros E; injection E as <- <-. cbn.
    exists u, current, new, code. repeat split; auto.
    intros H. rewrite Ht in H. discriminate.
Qed.

(** X22. How a password changes.  POST /password answers 200, and hands out a
    new session, only to the session of an account with its current
    password, a new password the stored hash does not match, and a code
    the authenticator accepts when the account has a second factor; the
    hash of that account is then replaced.  Any other answer leaves the
    accounts as they were.  In no case does the route touch the IP
    tracker or the ledger of attempts: wrong current passwords sent here
    are not counted. *)
Theorem password_change_contract (req : Request) (form : PasswordForm)
    (now : Z) (salt : string) (w : World) :
  let r := change_password req form now salt w in
  loginAttempts (snd r) = loginAttempts w
  /\ ledger (snd r) = ledger w
  /\ if answered_ok (fst r) then
       exists u current new code,
         requireAuth req now = Proceed (Some (u_id u))
         /\ user_by_id (u_id u) (users w) = Some u
         /\ ChangePasswordSchema_parse form = Some (current, new, code)
         /\ bcrypt_compare current (u_passwordHash u) = true
         /\ bcrypt_compare new (u_passwordHash u) = false
         /\ (u_totpEnabled u && truthy_opt (u_totpSecret u) = true ->
             exists c s, code = Some c /\ u_totpSecret u = Some s
                         /\ authenticator_verify c s now = true)
         /\ fst r = account_ok OkBody (Some (jwt_sign (u_id u) now))
         /\ users (snd r)
            = updated_rows (u_id u) (set_passwordHash (bcrypt_hash new salt))
                (users w)
     else users (snd r) = users w.
Proof.
  intros r.
  destruct (serve_account_step (PostPassword form salt) req now w)
    as (H1 & H2 & _).
  cbn [serve_account] in H1, H2. fold r in H1, H2.
  split; [exact H1|]. split; [exact H2|].
  exact (change_password_cases req form now salt w).
Qed.

(** X23. The new password logs in, the old one does not.  After a POST
    /password that answered 200, and with a [bcrypt.compare] that accepts
    the new password for the hash made of it, a login of that account with
    the new password that passes the guards is answered 200, with a session
    or with a challenge; and a login with a password the new hash does not
    match is a failed attempt. *)
Theorem new_password_logs_in (reqP : Request) (form : PasswordForm)
    (t1 t2 : Z) (salt : string) (reqL : Request) (email new : string)
    (u : User) (w : World) :
  requireAuth reqP t1 = Proceed (Some (u_id u)) ->
  user_by_id (u_id u) (users w) = Some u ->
  user_by_email (u_email u) (users w) = Some u ->
  answered_ok (fst (change_password reqP form t1 salt w)) = true ->
  newPassword form = Some new ->
  bcrypt_compare new (bcrypt_hash new salt) = true ->
  LoginSchema_parse reqL = Some (email, new) ->
  trim (toLowerCase email) = u_email u ->
  guards_verdict (getClientIp reqL) (u_email u) t2 w = Passed ->
  let w1 := snd (change_password reqP form t1 salt w) in
  (exists r, fst (login reqL t2 w1) = Sent r /\ status r = 200)
  /\ forall reqO emailO old,
       LoginSchema_parse reqO = Some (emailO, old) ->
       trim (toLowerCase emailO) = u_email u ->
       guards_verdict (getClientIp reqO) (u_email u) t2 w = Passed ->
       bcrypt_compare old (bcrypt_hash new salt) = false ->
       failed_attempt (Some (fst (login reqO t2 w1))) = true.
Proof.
  intros Ha Hid Hem Hok Hnew Hrt Hl Hn Hguards w1.
  pose proof (change_password_cases reqP form t1 salt w) as Hcases.
  cbv zeta in Hcases. rewrite Hok in Hcases.
  destruct Hcases as (u0 & current & new0 & code & Ha0 & Hid0 & Hp & _ & _ & _ & _ & Hus).
  assert (u_id u0 = u_id u) as Hsame by congruence.
  rewrite Hsame in Hus.
  destruct (ChangePasswordSchema_fields _ _ _ _ Hp) as (_ & Hn0 & _).
  assert (new0 = new) as -> by congruence.
  fold w1 in Hus.
  destruct (serve_account_step (PostPassword form salt) reqP t1 w)
    as (Hla & Hle & _).
  cbn [serve_account] in Hla, Hle. fold w1 in Hla, Hle.
  set (h := bcrypt_hash new salt) in *.
  assert (Hem1 : user_by_email (u_email u) (users w1)
                 = Some (set_passwordHash h u)).
  { rewrite Hus, user_by_email_updated by reflexivity. rewrite Hem.
    cbn [option_map]. now rewrite String.eqb_refl. }
  assert (Hg1 : forall ip, guards_verdict ip (u_email u) t2 w1
                           = guards_verdict ip (u_email u) t2 w).
  { intros ip. apply guards_verdict_ext; auto.
    rewrite Hus. now rewrite lockout_updated by reflexivity. }
  split.
  - rewrite <- Hg1 in Hguards. rewrite <- Hn in Hguards.
    destruct (login_passed reqL t2 w1 email new Hl Hguards)
      as (w1' & -> & Hus1 & _).
    rewrite Hn. rewrite <- Hus1 in Hem1.
    destruct (negb (u_totpEnabled u) || negb (truthy_opt (u_totpSecret u))) eqn:Ht.
    + destruct (credential_validation_session (getClientIp reqL) (u_email u)
                  new (h_user_agent reqL) t2 w1' _ Hem1 Hrt Ht) as (Hf & _).
      eexists. split; [exact Hf|reflexivity].
    + apply orb_false_iff in Ht as [Hen Hs].
      apply negb_false_iff in Hen, Hs.
      destruct (credential_validation_second_factor (getClientIp reqL) (u_email u)
                  new (h_user_agent reqL) t2 w1' _ Hem1 Hrt Hen Hs) as (Hf & _).
      eexists. split; [exact Hf|reflexivity].
  - intros reqO emailO old HlO HnO HgO Hbad.
    rewrite <- Hg1 in HgO. rewrite <- HnO in HgO.
    destruct (login_passed reqO t2 w1 emailO old HlO HgO)
      as (w1' & -> & Hus1 & _).
    rewrite HnO. rewrite <- Hus1 in Hem1.
    rewrite (credential_validation_wrong_password _ _ _ _ _ _ _ Hem1 Hbad).
    cbv zeta. destruct (RATE_LIMIT.LOCKOUT_THRESHOLD <=? _); reflexivity.
Qed.

End Password.

(** ** Scenarios *)

(** Half a minute after the first of five failures from 1.2.3.4 the IP
    check turns the address down and announces a cooldown. *)
Lemma ip_cooldown_is_rest_of_window_witness :
  exists (d : IpEntry) (s : Z),
    loginAttempts after_five_failures !! ip_key "1.2.3.4" = Some d
    /\ RATE_LIMIT.IP_MAX_ATTEMPTS <= count d
    /\ 30500 - firstAttempt d <= RATE_LIMIT.IP_WINDOW_MS
    /\ remainingSeconds
         (checkIpRateLimit_pure "1.2.3.4" 30500 (loginAttempts after_five_failures))
       = Some s
    /\ 0 <= s
    /\ 1000 * (s - 1) < RATE_LIMIT.IP_WINDOW_MS - (30500 - firstAttempt d) <= 1000 * s
    /\ (firstAttempt d <= 30500 -> s <= 60).
Proof.
  apply (ip_cooldown_is_rest_of_window "1.2.3.4" 30500
           (loginAttempts after_five_failures)).
  vm_compute. reflexivity.
Defined.

(** A second after the tenth failure locked Alice's account, the lockout
    check announces the minutes that remain. *)
Lemma lockout_minutes_are_rest_of_lockout_witness :
  exists (u : User) (l minutes : Z),
    user_by_email "a@x.com" (users (snd (serve_all (lib := toy) ten_failures world0)))
    = Some u
    /\ u_lockedUntil u = Some l
    /\ remainingMinutes
         (checkAccountLockout_pure "a@x.com" 66000
            (users (snd (serve_all (lib := toy) ten_failures world0))))
       = Some minutes
    /\ 1 <= minutes
    /\ 60000 * (minutes - 1) < l - 66000 <= 60000 * minutes.
Proof.
  apply (lockout_minutes_are_rest_of_lockout "a@x.com" 66000
           (users (snd (serve_all (lib := toy) ten_failures world0)))).
  vm_compute. reflexivity.
Defined.

(** The tenth failure for Alice's e-mail, recorded at 549 s, locks her
    account: it is locked at 600 s, and no longer fifteen minutes after the
    failure. *)
Lemma lockout_lasts_fifteen_minutes_witness :
  (exists minutes,
     checkAccountLockout_pure "a@x.com" 600000
       (users (snd (recordLoginAttempt "a@x.com" "1.2.3.4" (Some "curl") false
                      (Some "u1") 549000
                      (snd (serve_all (lib := toy) (nine_failures "a@x.com") world0)))))
     = {| locked := true; remainingMinutes := Some minutes;
          message := Some (MsgAccountTempLocked minutes) |}
     /\ 1 <= minutes <= 15)
  /\ locked
       (checkAccountLockout_pure "a@x.com" 1449000
          (users (snd (recordLoginAttempt "a@x.com" "1.2.3.4" (Some "curl") false
                         (Some "u1") 549000
                         (snd (serve_all (lib := toy) (nine_failures "a@x.com")
                                 world0))))))
     = false.
Proof.
  pose proof (lockout_lasts_fifteen_minutes "a@x.com" "1.2.3.4" (Some "curl")
                (Some "u1") 549000
                (snd (serve_all (lib := toy) (nine_failures "a@x.com") world0))
                alice eq_refl eq_refl) as H.
  cbv zeta in H. split.
  - apply (proj1 (H 600000)). lia.
  - apply (proj2 (H 1449000)). lia.
Defined.

(** A login with Alice's password from 1.2.3.4, made while the address is
    turned down, leaves no record. *)
Lemma rejected_login_leaves_no_record_witness :
  let w' := snd (login (lib := toy) (login_req "1.2.3.4" "a@x.com" "P@ssw0rd1")
                   30500 after_five_failures) in
  loginAttempts w' = loginAttempts after_five_failures
  /\ same_database after_five_failures w'
  /\ session_of (fst (login (lib := toy) (login_req "1.2.3.4" "a@x.com" "P@ssw0rd1")
                        30500 after_five_failures)) = None.
Proof.
  apply (rejected_login_leaves_no_record (lib := toy)
           (login_req "1.2.3.4" "a@x.com" "P@ssw0rd1") 30500 after_five_failures).
  vm_compute. discriminate.
Defined.

(** A sweep at 3 700 s drops nothing a client could notice: a login from
    1.2.3.4 right after it is answered as it would have been without it. *)
Lemma sweep_is_invisible_witness :
  same_database alice_later (snd (cleanupLoginAttempts 3700000 alice_later))
  /\ fst (serve (lib := toy) (good_login "1.2.3.4") 3700000
            (snd (cleanupLoginAttempts 3700000 alice_later)))
     = fst (serve (lib := toy) (good_login "1.2.3.4") 3700000 alice_later).
Proof.
  apply (proj2 (sweep_is_invisible (lib := toy) 3700000 3700000 alice_later
                  (good_login "1.2.3.4") ltac:(lia))).
Defined.

(** With the bucket of 1.2.3.4 full, the middleware answers a login from
    that address as the handler itself does. *)
Lemma middleware_is_the_ip_guard_witness :
  snd (loginRateLimitMiddleware (login_req "1.2.3.4" "a@x.com" "P@ssw0rd1") 30500
         after_five_failures)
  = add_event (EvCheckIpRateLimit "1.2.3.4") after_five_failures
  /\ fst (login (lib := toy) (login_req "1.2.3.4" "a@x.com" "P@ssw0rd1") 30500
            after_five_failures)
     = Sent {| status := 429;
               body := ErrorBody (Some (MsgIpRateLimit (Some 30)))
                         (Some "IP_RATE_LIMIT") (Some 30);
               set_cookie := None |}.
Proof.
  exact (middleware_is_the_ip_guard (lib := toy)
           (login_req "1.2.3.4" "a@x.com" "P@ssw0rd1") 30500 after_five_failures
           "a@x.com" "P@ssw0rd1" eq_refl).
Defined.

(** The first entry of the header, with a no-break space, spaces and a
    tab around it, is the client address; a blank first entry gives
    "unknown". *)
Lemma client_ip_is_first_forwarded_entry_witness :
  getClientIp
    {| h_x_forwarded_for :=
         Some (String nbsp " 1.2.3.4 " ++ String tab ", 10.0.0.1");
       h_user_agent := None; h_authorization := None; h_cookie := None;
       remoteAddress := Some "10.9.9.9"; body_email := None;
       body_password := None; body_challengeId := None; body_code := None |}
  = "1.2.3.4"
  /\ getClientIp
       {| h_x_forwarded_for := Some (String nbsp " , 10.0.0.1");
          h_user_agent := None; h_authorization := None; h_cookie := None;
          remoteAddress := Some "10.9.9.9"; body_email := None;
          body_password := None; body_challengeId := None; body_code := None |}
     = "unknown".
Proof.
  split.
  - apply (proj2 (proj2 (client_ip_is_first_forwarded_entry _))
             (String nbsp " ") "1.2.3.4" (String " " (String tab "")) " 10.0.0.1");
      try reflexivity.
    right. reflexivity.
  - apply (proj2 (proj2 (client_ip_is_first_forwarded_entry _))
             (String nbsp " ") "" "" " 10.0.0.1");
      try reflexivity.
    right. reflexivity.
Defined.

(** A cookie padded with a no-break space and a tab, whose value contains
    an equals sign, is read whole and without the padding. *)
Lemma cookie_value_round_trip_witness :
  getCookieValue (lib := toy)
    (Some (String nbsp "eco_token=a.b=c" ++ String tab "")) "eco_token"
  = Some "a.b=c".
Proof.
  exact (cookie_value_round_trip (lib := toy) (String nbsp "") (String tab "")
           "eco_token" "a.b=c" eq_refl eq_refl eq_refl eq_refl eq_refl eq_refl).
Defined.

(** Of two [eco_token] cookies in one header the first is read; and a
    cookie is found behind a no-break space. *)
Lemma first_cookie_wins_witness :
  getCookieValue (lib := toy) (Some "eco_token=jwt.u1; eco_token=jwt.u2") "eco_token"
  = Some "jwt.u1"
  /\ getCookieValue (lib := toy) (Some ("a=1;" ++ String nbsp "eco_token=tok"))
       "eco_token"
     = Some "tok".
Proof.
  split.
  - apply (first_cookie_wins (lib := toy) [] [" eco_token=jwt.u2"]
             "eco_token=jwt.u1" "eco_token" "jwt.u1");
      [reflexivity|repeat constructor|constructor|reflexivity].
  - apply (first_cookie_wins (lib := toy) ["a=1"] [] (String nbsp "eco_token=tok")
             "eco_token" "tok");
      [reflexivity|repeat constructor| |reflexivity].
    constructor; [|constructor]. split; [|intros v]; intros H;
      vm_compute in H; discriminate.
Defined.

(** Two hours after her account was locked and the last failure was
    recorded, Alice logs in again from the address that failed. *)
Lemma access_comes_back_witness :
  guards_verdict "1.2.3.4" "a@x.com" 7300000 alice_later = Passed
  /\ fst (login (lib := toy) (login_req "1.2.3.4" "a@x.com" "P@ssw0rd1") 7300000
            alice_later)
     = Sent {| status := 200;
               body := SessionBody {| pu_id := "u1"; pu_email := "a@x.com";
                                      pu_name := "Alice" |};
               set_cookie := Some "jwt.u1" |}.
Proof.
  apply (access_comes_back (lib := toy) (login_req "1.2.3.4" "a@x.com" "P@ssw0rd1")
           7300000 alice_later "a@x.com" "P@ssw0rd1"
           (set_lockedUntil (Some 965000) alice) eq_refl).
  - vm_compute. reflexivity.
  - reflexivity.
  - vm_compute. reflexivity.
  - intros l E. injection E as <-. lia.
  - apply List.Forall_forall. intros row Hin. apply Z.ltb_lt.
    revert row Hin. apply forallb_forall. vm_compute. reflexivity.
Defined.

(** Bob's pending challenge is still there after two wrong codes, a new
    first factor of his and a sweep. *)
Lemma pending_challenge_survives_witness :
  challenge_by_id uuid0
    (challenges (snd (serve_all (lib := toy) bob_retries bob_pending)))
  = Some bob_challenge.
Proof.
  apply (pending_challenge_survives (lib := toy) bob_retries bob_pending uuid0
           bob_challenge); vm_compute; reflexivity.
Defined.

(** After three wrong codes Bob's own code still gets him the session. *)
Lemma wrong_codes_do_not_block_witness :
  fst (login_totp (lib := toy) (totp_req "5.5.5.5" uuid0 "123456") 4000
         (snd (serve_all (lib := toy) (as_totp_calls bob_wrong_codes) bob_pending)))
  = Sent {| status := 200; body := UserBody (public_of bob);
            set_cookie := Some (jwt_sign (Libraries := toy) (u_id bob) 4000) |}.
Proof.
  apply (proj2 (wrong_codes_do_not_block (lib := toy) bob_wrong_codes
                  (totp_req "5.5.5.5" uuid0 "123456") 4000 bob_pending
                  uuid0 "123456" "123456" bob_challenge bob
                  eq_refl eq_refl ltac:(reflexivity) eq_refl eq_refl eq_refl eq_refl
                  eq_refl eq_refl eq_refl)).
Defined.

(** The token Alice's login sets is accepted a second later, sent back as
    the [eco_token] cookie. *)
Lemma issued_session_is_accepted_witness :
  exists u,
    In u (users world0)
    /\ requireAuth (lib := toy) (gate_req None (Some "eco_token=jwt.u1")) 1000
       = Proceed (Some (u_id u))
    /\ optionalAuth (lib := toy) (gate_req None (Some "eco_token=jwt.u1")) 1000
       = Proceed (Some (u_id u)).
Proof.
  apply (issued_session_is_accepted (lib := toy) (good_login "1.2.3.4") 0 1000 world0
           (Sent {| status := 200; body := SessionBody (public_of alice);
                    set_cookie := Some "jwt.u1" |})
           "jwt.u1" (gate_req None (Some "eco_token=jwt.u1"))).
  - vm_compute. reflexivity.
  - reflexivity.
  - intros sub. reflexivity.
  - reflexivity.
  - intros u [<-|[<-|[]]]; reflexivity.
  - right. repeat split; reflexivity.
Defined.

(** Alice sets up a second factor, enables it with the code of the new
    secret, and is asked for it at her next login. *)
Lemma totp_enrolment_round_trip_witness :
  let '(o1, w1) := totp_setup (lib := toy) (acc := toy_account)
                     (alice_req None) 1000 "654321" world0 in
  let '(o2, w2) := totp_enable (lib := toy) (alice_req (Some "654321")) 2000 w1 in
  let '(o3, w3) := login (lib := toy) (login_req "1.2.3.4" "a@x.com" "P@ssw0rd1")
                     3000 w2 in
  o1 = account_ok (TotpSetupBody "654321"
                     (keyuri (AccountLibraries := toy_account) "a@x.com"
                        (TOTP_ISSUER (AccountLibraries := toy_account)) "654321")
                     (TOTP_ISSUER (AccountLibraries := toy_account)) "a@x.com") None
  /\ o2 = account_ok (TotpEnabledBody true) None
  /\ o3 = Sent {| status := 200;
                  body := ChallengeBody uuid0 (3000 + CHALLENGE_WINDOW_MS)
                            (public_of alice);
                  set_cookie := None |}
  /\ user_by_id "u1" (users w3)
     = Some (set_totpEnabled true (set_totpSecret (Some "654321") alice)).
Proof.
  exact (totp_enrolment_round_trip (lib := toy) (acc := toy_account)
           (alice_req None) (alice_req (Some "654321"))
           (login_req "1.2.3.4" "a@x.com" "P@ssw0rd1") 1000 2000 3000
           "654321" "654321" "a@x.com" "P@ssw0rd1" alice world0
           eq_refl eq_refl eq_refl eq_refl eq_refl eq_refl eq_refl eq_refl
           eq_refl eq_refl eq_refl eq_refl).
Defined.

(** Bob's second factor is enabled: a setup with his session leaves his
    row, secret included, as it is. *)
Lemma setup_spares_an_enabled_second_factor_witness :
  In bob (users (snd (totp_setup (lib := toy) (acc := toy_account)
                        (bob_req None) 1000 "999999" world0))).
Proof.
  apply (setup_spares_an_enabled_second_factor (lib := toy) (acc := toy_account)
           (bob_req None) 1000 "999999" world0 bob).
  - apply (bool_decide_unpack _). vm_compute. exact I.
  - right. left. reflexivity.
  - reflexivity.
Defined.

(** Bob switches his second factor off with his session alone; his next
    login is answered with a session. *)
Lemma disabling_needs_no_code_witness :
  let '(o1, w1) := totp_disable (lib := toy) (bob_req None) 1000 world0 in
  let '(o2, w2) := login (lib := toy) (login_req "5.5.5.5" "b@x.com" "hunter22")
                     2000 w1 in
  o1 = account_ok (TotpEnabledBody false) None
  /\ user_by_id "u2" (users w1) = Some (set_totpEnabled false bob)
  /\ o2 = Sent {| status := 200; body := SessionBody (public_of bob);
                  set_cookie := Some "jwt.u2" |}.
Proof.
  exact (disabling_needs_no_code (lib := toy) (bob_req None)
           (login_req "5.5.5.5" "b@x.com" "hunter22") 1000 2000
           "b@x.com" "hunter22" bob world0
           eq_refl eq_refl eq_refl eq_refl eq_refl eq_refl eq_refl).
Defined.

(** Bob has a pending challenge and switches his second factor off: his
    code for the challenge is then answered 403. *)
Lemma disabling_strands_pending_challenges_witness :
  login_totp (lib := toy) (totp_req "5.5.5.5" uuid0 "123456") 2000
    (snd (totp_disable (lib := toy) (bob_req None) 1000 bob_pending))
  = (reject 403 (Some MsgTotpNotConfigured) None None,
     snd (totp_disable (lib := toy) (bob_req None) 1000 bob_pending)).
Proof.
  apply (disabling_strands_pending_challenges (lib := toy) (bob_req None)
           (totp_req "5.5.5.5" uuid0 "123456") 1000 2000 uuid0 "123456"
           bob_challenge bob bob_pending);
    reflexivity.
Defined.

(** Alice changes her password: the new one logs her in, the old one is a
    failed attempt. *)
Lemma new_password_logs_in_witness :
  (exists r,
     fst (login (lib := toy) (login_req "1.2.3.4" "a@x.com" "N3wP@ssw0rd") 2000
            (snd (change_password (lib := toy) (acc := toy_account) (alice_req None)
                    (password_form "P@ssw0rd1" "N3wP@ssw0rd" None) 1000 "salt"
                    world0)))
     = Sent r /\ status r = 200)
  /\ failed_attempt
       (Some (fst (login (lib := toy) (login_req "1.2.3.4" "a@x.com" "P@ssw0rd1") 2000
                     (snd (change_password (lib := toy) (acc := toy_account)
                             (alice_req None)
                             (password_form "P@ssw0rd1" "N3wP@ssw0rd" None) 1000
                             "salt" world0)))))
     = true.
Proof.
  pose proof (new_password_logs_in (lib := toy) (acc := toy_account) (alice_req None)
                (password_form "P@ssw0rd1" "N3wP@ssw0rd" None) 1000 2000 "salt"
                (login_req "1.2.3.4" "a@x.com" "N3wP@ssw0rd") "a@x.com" "N3wP@ssw0rd"
                alice world0
                eq_refl eq_refl eq_refl eq_refl eq_refl eq_refl eq_refl eq_refl
                eq_refl) as H.
  cbv zeta in H. destruct H as [H1 H2]. split; [exact H1|].
  apply (H2 (login_req "1.2.3.4" "a@x.com" "P@ssw0rd1") "a@x.com" "P@ssw0rd1");
    reflexivity.
Defined.
